(** * AtlasCare prescription ledger: the request handlers of
    [backend/index.js] as state transformers.

    The handlers [POST /api/issue-prescription], [POST /api/payments],
    [POST /api/verify] and [POST /api/dispense] are embedded as programs of a
    small state-and-exception monad over the in-process stores
    ([inMemoryStore], [lastEventHashPerTopic], [lastEventTypePerTopic],
    [usedNonces], the dispense locks, ...).  JavaScript values are kept as
    JavaScript has them: objects are insertion-ordered property lists (the
    order is what [JSON.stringify] prints, hence what is hashed), property
    reads go through [?.], [||] and [??] with their truthiness rules.

    A handler runs to completion as one transition.  The interleaving of
    the [await] points of two requests is outside this model, but for two
    payments that meet at the [await] of the submission ([Overlap]).
    Strings are sequences of code units below 256, read as Latin-1. *)

From stdpp Require Import base option gmap strings list.
From Stdlib Require Import ZArith DecimalString Ascii.

(** ** JavaScript values *)

Module Js.

(** The numbers among the values are the integers plus NaN: the counters,
    status codes and timestamps of the handlers are integral.  (What a
    string denotes as a number, which a comparison may ask for, is kept
    exactly: see [number] below.) *)
#[warnings="-register-all"] Inductive jsval : Type :=
| JUndef
| JNull
| JNaN
| JBool (b : bool)
| JNum (z : Z)
| JStr (s : string)
| JArr (l : list jsval)
| JObj (o : list (string * jsval)).

Definition props := list (string * jsval).

(** ToBoolean *)
Definition truthy (v : jsval) : bool :=
  match v with
  | JUndef | JNull | JNaN => false
  | JBool b => b
  | JNum z => negb (z =? 0)%Z
  | JStr s => negb (String.eqb s "")
  | JArr _ | JObj _ => true
  end.

(** [a || b], [a ?? b], [!a], [!!a] *)
Definition or (a b : jsval) : jsval := if truthy a then a else b.

Definition nullish (v : jsval) : bool :=
  match v with JUndef | JNull => true | _ => false end.

Definition coalesce (a b : jsval) : jsval := if nullish a then b else a.

Definition is_undef (v : jsval) : bool :=
  match v with JUndef => true | _ => false end.

(** ** Property lists *)

Fixpoint lookup_prop (k : string) (o : props) : jsval :=
  match o with
  | [] => JUndef
  | (k', v) :: o' => if String.eqb k k' then v else lookup_prop k o'
  end.

Fixpoint has_prop (k : string) (o : props) : bool :=
  match o with
  | [] => false
  | (k', _) :: o' => String.eqb k k' || has_prop k o'
  end.

(** [o[k] = v] and a property of an object literal or spread: an existing
    key keeps its position, a new key goes last. *)
Fixpoint set_prop (k : string) (v : jsval) (o : props) : props :=
  match o with
  | [] => [(k, v)]
  | (k', v') :: o' =>
      if String.eqb k k' then (k, v) :: o' else (k', v') :: set_prop k v o'
  end.

(** [delete o[k]] *)
Fixpoint del_prop (k : string) (o : props) : props :=
  match o with
  | [] => []
  | (k', v') :: o' =>
      if String.eqb k k' then del_prop k o' else (k', v') :: del_prop k o'
  end.

(** [{ ...a, ...b }] *)
Definition spread (a b : props) : props :=
  fold_left (fun acc kv => set_prop kv.1 kv.2 acc) b a.

(** An object literal [{ k1: v1, ..., kn: vn }]. *)
Definition literal (b : props) : props := spread [] b.

(** [v?.k]: undefined on undefined and null; a primitive has none of the
    properties the handlers read. *)
Definition opt_get (v : jsval) (k : string) : jsval :=
  match v with
  | JObj o => lookup_prop k o
  | _ => JUndef
  end.

(** [v.k]: [None] is the TypeError of reading a property of undefined or
    null. *)
Definition get (v : jsval) (k : string) : option jsval :=
  match v with
  | JUndef | JNull => None
  | _ => Some (opt_get v k)
  end.

(** ** Conversions *)

Definition show_Z (z : Z) : string := NilZero.string_of_int (Z.to_int z).

Definition join (sep : string) (l : list string) : string :=
  match l with
  | [] => ""
  | x :: l' => fold_left (fun acc y => acc +:+ sep +:+ y) l' x
  end.

(** ToString; an array joins its elements with commas, undefined and null
    elements printing as nothing. *)
Fixpoint to_string (v : jsval) : string :=
  match v with
  | JUndef => "undefined"
  | JNull => "null"
  | JNaN => "NaN"
  | JBool true => "true"
  | JBool false => "false"
  | JNum z => show_Z z
  | JStr s => s
  | JArr l =>
      join "," (map (fun x => if nullish x then "" else to_string x) l)
  | JObj _ => "[object Object]"
  end.

(** Strings are sequences of code units below 256, read as Latin-1.  The
    white space that [trim] and ToNumber strip is, among these, the
    characters 9 to 13, the space and the no-break space (U+00A0). *)
Definition is_space (c : ascii) : bool :=
  let n := nat_of_ascii c in
  (n =? 32)%nat || ((9 <=? n)%nat && (n <=? 13)%nat) || (n =? 160)%nat.

Fixpoint trim_left (s : string) : string :=
  match s with
  | String c s' => if is_space c then trim_left s' else s
  | EmptyString => EmptyString
  end.

Definition trim (s : string) : string :=
  String.rev (trim_left (String.rev (trim_left s))).

(** *** The number a string denotes

    ToNumber of a string is a double that need not be an integer.  It is
    kept exactly: NaN, an infinity, or [m * 2 ^ e]. *)
Inductive number : Type :=
| NNaN
| NInf (negative : bool)
| NFin (m e : Z).

(** [n / d < 2 ^ e], for positive [n] and [d] *)
Definition below_pow2 (n d e : Z) : bool :=
  if (0 <=? e)%Z then (n <? d * 2 ^ e)%Z else (n * 2 ^ (- e) <? d)%Z.

(** The double nearest to [n / d], for [0 <= n] and [0 < d]: 53 bits of
    significand, exponents of the last place from -1074, ties to the even
    significand, an infinity from [2 ^ 1024] on. *)
Definition round_double (n d : Z) : number :=
  if (n =? 0)%Z then NFin 0 0
  else
    let e0 := (Z.log2 n - Z.log2 d)%Z in
    let e := if below_pow2 n d e0 then (e0 - 1)%Z else e0 in
    let u := Z.max (e - 52) (-1074) in
    let num := if (0 <=? u)%Z then n else (n * 2 ^ (- u))%Z in
    let den := if (0 <=? u)%Z then (d * 2 ^ u)%Z else d in
    let q := (num / den)%Z in
    let r := (num mod den)%Z in
    let m := if (2 * r <? den)%Z then q
             else if (den <? 2 * r)%Z then (q + 1)%Z
             else if Z.even q then q else (q + 1)%Z in
    if (0 <=? u)%Z && (2 ^ 1024 <=? m * 2 ^ u)%Z then NInf false else NFin m u.

Definition negate (x : number) : number :=
  match x with
  | NNaN => NNaN
  | NInf b => NInf (negb b)
  | NFin m e => NFin (- m) e
  end.

Definition digit_in (base : Z) (c : ascii) : option Z :=
  let n := Z.of_nat (nat_of_ascii c) in
  let v := if (48 <=? n)%Z && (n <=? 57)%Z then Some (n - 48)%Z
           else if (97 <=? n)%Z && (n <=? 102)%Z then Some (n - 87)%Z
           else if (65 <=? n)%Z && (n <=? 70)%Z then Some (n - 55)%Z
           else None in
  match v with
  | Some d => if (d <? base)%Z then Some d else None
  | None => None
  end.

(** The digits at the head of [s]: their value on top of [acc], how many
    there are, and what follows them. *)
Fixpoint digits (base : Z) (s : string) (acc : Z) (count : nat)
    : Z * nat * string :=
  match s with
  | String c s' =>
      match digit_in base c with
      | Some d => digits base s' (base * acc + d)%Z (S count)
      | None => (acc, count, s)
      end
  | EmptyString => (acc, count, s)
  end.

(** A whole string of one or more digits of [base]. *)
Definition all_digits (base : Z) (s : string) : option Z :=
  let '(v, k, rest) := digits base s 0 0 in
  match k, rest with
  | S _, EmptyString => Some v
  | _, _ => None
  end.

(** ExponentPart, when there is one, up to the end of the string: [e] or
    [E], an optional sign, digits. *)
Definition exponent (s : string) : option Z :=
  match s with
  | EmptyString => Some 0%Z
  | String c s' =>
      if Ascii.eqb c "e" || Ascii.eqb c "E" then
        match s' with
        | String "+"%char r => all_digits 10 r
        | String "-"%char r => Z.opp <$> all_digits 10 r
        | _ => all_digits 10 s'
        end
      else None
  end.

(** StrUnsignedDecimalLiteral: [Infinity], digits with an optional
    fraction, or a fraction alone, each of the last two with an optional
    exponent.  The value of [f] and [p] is [f * 10 ^ p]. *)
Definition unsigned_decimal (s : string) : number :=
  if String.eqb s "Infinity" then NInf false
  else
    let '(i, ki, r) := digits 10 s 0 0 in
    let parsed :=
      match r with
      | String "."%char r' =>
          let '(f, kf, r'') := digits 10 r' i 0 in
          match ki, kf with
          | O, O => None
          | _, _ => x ← exponent r''; Some (f, (x - Z.of_nat kf)%Z)
          end
      | _ =>
          match ki with
          | O => None
          | S _ => x ← exponent r; Some (i, x)
          end
      end in
    match parsed with
    | Some (f, p) =>
        if (0 <=? p)%Z then round_double (f * 10 ^ p) 1
        else round_double f (10 ^ (- p))
    | None => NNaN
    end.

(** NonDecimalIntegerLiteral: [0x], [0o] or [0b], in either case, and digits
    of that base; it takes no sign. *)
Definition non_decimal (s : string) : option number :=
  match s with
  | String "0"%char (String c r) =>
      let base :=
        if Ascii.eqb c "x" || Ascii.eqb c "X" then Some 16%Z
        else if Ascii.eqb c "o" || Ascii.eqb c "O" then Some 8%Z
        else if Ascii.eqb c "b" || Ascii.eqb c "B" then Some 2%Z
        else None in
      match base with
      | Some b =>
          Some match all_digits b r with
               | Some v => round_double v 1
               | None => NNaN
               end
      | None => None
      end
  | _ => None
  end.

(** ToNumber of a string (StringToNumber): white space around the literal
    is dropped, the empty string is 0, anything that is not a
    StrNumericLiteral is NaN. *)
Definition num_of_string (s : string) : number :=
  match trim s with
  | EmptyString => NFin 0 0
  | String "+"%char t' => unsigned_decimal t'
  | String "-"%char t' => negate (unsigned_decimal t')
  | t =>
      match non_decimal t with
      | Some x => x
      | None => unsigned_decimal t
      end
  end.

(** ToNumber of a value that is not a string, an array or an object; [None]
    is NaN. *)
Definition prim_number (v : jsval) : option Z :=
  match v with
  | JNull => Some 0%Z
  | JBool b => Some (if b then 1 else 0)%Z
  | JNum z => Some z
  | _ => None
  end.

(** ToNumber: an array or an object goes through its string. *)
Definition to_number (v : jsval) : number :=
  match v with
  | JUndef | JNaN => NNaN
  | JNull => NFin 0 0
  | JBool b => NFin (if b then 1 else 0) 0
  | JNum z => NFin z 0
  | JStr s => num_of_string s
  | JArr _ | JObj _ => num_of_string (to_string v)
  end.

Definition of_number (n : option Z) : jsval :=
  match n with Some z => JNum z | None => JNaN end.

(** ToPrimitive leaves a string when the operand is a string, an array or
    an object. *)
Definition stringlike (v : jsval) : bool :=
  match v with JStr _ | JArr _ | JObj _ => true | _ => false end.

(** [a + b]: a string operand makes it a concatenation; the other values
    add as numbers. *)
Definition add (a b : jsval) : jsval :=
  if stringlike a || stringlike b
  then JStr (to_string a +:+ to_string b)
  else of_number (x ← prim_number a; y ← prim_number b; Some (x + y)%Z).

(** [a <= b] on numbers, NaN comparing false. *)
Definition number_le (a b : number) : bool :=
  match a, b with
  | NNaN, _ | _, NNaN => false
  | NInf true, _ | _, NInf false => true
  | NInf false, _ | _, NInf true => false
  | NFin m1 e1, NFin m2 e2 =>
      let e := Z.min e1 e2 in
      (m1 * 2 ^ (e1 - e) <=? m2 * 2 ^ (e2 - e))%Z
  end.

(** [a >= b]: two strings compare by code units, anything else as numbers,
    NaN comparing false. *)
Definition ge (a b : jsval) : bool :=
  if stringlike a && stringlike b
  then String.leb (to_string b) (to_string a)
  else number_le (to_number b) (to_number a).

(** [a === s] for a string literal [s] *)
Definition is_str (v : jsval) (s : string) : bool :=
  match v with JStr s' => String.eqb s' s | _ => false end.

(** SameValueZero, the equality of [Set.prototype.has]: primitives by value;
    an object parsed from a request body is a fresh reference, equal to
    nothing stored. *)
Definition same_value_zero (a b : jsval) : bool :=
  match a, b with
  | JUndef, JUndef | JNull, JNull | JNaN, JNaN => true
  | JBool x, JBool y => Bool.eqb x y
  | JNum x, JNum y => (x =? y)%Z
  | JStr x, JStr y => String.eqb x y
  | _, _ => false
  end.

(** ** JSON.stringify *)

Definition dquote : ascii := "034"%char.

Definition hex_digit (n : nat) : ascii :=
  ascii_of_nat (if (n <? 10)%nat then 48 + n else 87 + n).

(** One character inside a JSON string literal. *)
Definition escape_char (c : ascii) : string :=
  let n := nat_of_ascii c in
  if (n =? 34)%nat then String "\" (String dquote "")
  else if (n =? 92)%nat then "\\"
  else if (n =? 8)%nat then "\b"
  else if (n =? 9)%nat then "\t"
  else if (n =? 10)%nat then "\n"
  else if (n =? 12)%nat then "\f"
  else if (n =? 13)%nat then "\r"
  else if (n <? 32)%nat
       then "\u00" +:+ String (hex_digit (n / 16)) (String (hex_digit (n mod 16)) "")
       else String c "".

Fixpoint escape (s : string) : string :=
  match s with
  | EmptyString => EmptyString
  | String c s' => escape_char c +:+ escape s'
  end.

Definition quote (s : string) : string :=
  String dquote (escape s +:+ String dquote "").

(** [JSON.stringify v]; [None] is the [undefined] it returns for
    [undefined].  A property whose value is undefined is left out; inside an
    array undefined prints as null. *)
Fixpoint stringify_opt (v : jsval) : option string :=
  match v with
  | JUndef => None
  | JNull | JNaN => Some "null"
  | JBool true => Some "true"
  | JBool false => Some "false"
  | JNum z => Some (show_Z z)
  | JStr s => Some (quote s)
  | JArr l =>
      Some ("[" +:+ join "," (map (fun x => default "null" (stringify_opt x)) l) +:+ "]")
  | JObj o =>
      Some ("{" +:+
            join "," (omap (fun kv => (fun s => quote kv.1 +:+ ":" +:+ s) <$> stringify_opt kv.2) o)
            +:+ "}")
  end.

(** [JSON.stringify] of an object, as the handlers use it. *)
Definition stringify (o : props) : string :=
  default "" (stringify_opt (JObj o)).

End Js.

Import Js.

(** ** Collaborators

    The cryptographic primitives of Node's [crypto], the key and signature
    helpers of [utils/signature], [hashIdentifier] of [utils/privacy], the
    date functions and the fraud detector are used by the handlers as black
    boxes.  Two constants of modules outside this snapshot are left open as
    well: the timeout of the dispense lock and the token alphabet of the
    value dictionary.  They are the fields of one interface, every result
    holding for each implementation. *)

Class External := {
  (** [crypto.createHash('sha256').update(x).digest('hex')] *)
  sha256hex : string -> string;
  (** [Buffer.from(h, 'hex')] *)
  bufferFromHex : string -> string;
  (** [crypto.randomBytes(8).toString('hex')], from the request's entropy *)
  randomHex : Z -> string;
  (** [ensureKeyPair(id).publicKeyHex] *)
  ensureKeyPair : string -> string;
  (** [signPayload(payload, id)] *)
  signPayload : props -> string -> string;
  (** [verifySignature(payload, signature, id)] *)
  verifySignature : props -> jsval -> string -> bool;
  (** [hashIdentifier(id, salt, context)] *)
  hashIdentifier : string -> string -> jsval -> string;
  (** [process.env.CNDP_SALT] *)
  CNDP_SALT : jsval;
  (** [new Date(v).getTime()], [None] for an invalid date *)
  parseDate : jsval -> option Z;
  (** [new Date(ms).toISOString()] *)
  toISOString : Z -> string;
  (** the fraud check of [/api/verify] on the payload and the pharmacy's
      position: null, or the alert object *)
  fraudCheck : jsval -> jsval -> jsval;
  (** how long a dispense lock is held before it lapses *)
  LOCK_TIMEOUT_MS : Z;
  (** the value dictionary: which strings it abbreviates, its n-th token,
      and how a token is recognised *)
  is_long : string -> bool;
  token_of : nat -> string;
  token_index : string -> option nat;
  token_index_of : forall n, token_index (token_of n) = Some n;
  token_nonempty : forall n, token_of n <> ""
}.

(** [process.env.CNDP_SALT || 'atlascare-default-salt'] *)
Definition salt `{External} : string :=
  to_string (or CNDP_SALT (JStr "atlascare-default-salt")).

(** ['sha256:' + sha256(String(id) + salt)] *)
Definition actor_hash `{External} (id : string) : string :=
  "sha256:" +:+ sha256hex (id +:+ salt).

(** ['fp:' + sha256(Buffer.from(publicKeyHex, 'hex')).slice(0, 16)] *)
Definition key_id `{External} (id : string) : string :=
  "fp:" +:+ String.substring 0 16 (sha256hex (bufferFromHex (ensureKeyPair id))).

(** ['sha256:' + sha256(JSON.stringify(o))] *)
Definition hash_of `{External} (o : props) : string :=
  "sha256:" +:+ sha256hex (stringify o).

(** ** The dispense lock *)

Module Lock.

Record lock := { owner : string; acquiredAt : Z }.

Definition expired (timeout now : Z) (l : lock) : bool :=
  (acquiredAt l + timeout <=? now)%Z.

(** A lock counts as held by [l]'s owner until it lapses. *)
Definition held_by_other (timeout now : Z) (ownerId : string)
    (l : option lock) : bool :=
  match l with
  | Some l => negb (expired timeout now l) && negb (String.eqb (owner l) ownerId)
  | None => false
  end.

(** Modelled from the spec: [acquireDispenseLock] of
    [services/statusReconciliation], whose source is not part of the
    repository snapshot.  "States: free -> held(owner, acquiredAt) -> free
    via acquire/release/timeout.  acquire(channelId, ownerId) returns false
    immediately (no blocking) if held by a different owner.  A held lock
    auto-expires after a bounded duration." *)
Definition acquire (timeout now : Z) (channelId ownerId : string)
    (locks : gmap string lock) : bool * gmap string lock :=
  if held_by_other timeout now ownerId (locks !! channelId)
  then (false, locks)
  else (true, <[channelId := {| owner := ownerId; acquiredAt := now |}]> locks).

(** Modelled from the spec: [releaseDispenseLock] of
    [services/statusReconciliation], absent like [acquire].  "release is
    idempotent." *)
Definition release (channelId : string) (locks : gmap string lock)
    : gmap string lock :=
  delete channelId locks.

End Lock.

(** ** The in-process stores *)

(** One call of [submitPrescriptionMessage]: its arguments, whether the
    ledger took it, and the event before compression. *)
Record submission := {
  sub_args : list jsval;
  sub_event : props;
  sub_accepted : bool
}.

Record Store := {
  (** [services/store]: topicID -> [{ prescription, payload }] *)
  inMemoryStore : gmap string jsval;
  lastEventHashPerTopic : gmap string string;
  lastEventTypePerTopic : gmap string string;
  (** [index.js]: the module-level indexes *)
  prescriptionIndex : gmap string jsval;
  prescriptionToTopic : gmap string string;
  (** what [setTopicStatus] records *)
  topicStatus : gmap string string;
  (** [putSensitiveData] / [getSensitiveData] *)
  sensitiveData : gmap string props;
  usedNonces : list jsval;
  (** the value dictionary shared by compressor and decompressor *)
  hashLookup : list string;
  dispenseLocks : gmap string Lock.lock;
  (** [queueMessage] *)
  messageQueue : list (jsval * props);
  (** [submitPrescriptionMessage], oldest first *)
  hcsSubmitted : list submission;
  (** [logHCSEvent] *)
  hcsEventLog : list props
}.

Definition with_inMemoryStore (f : gmap string jsval -> gmap string jsval) (s : Store) : Store :=
  {| inMemoryStore := f (inMemoryStore s);
     lastEventHashPerTopic := lastEventHashPerTopic s;
     lastEventTypePerTopic := lastEventTypePerTopic s;
     prescriptionIndex := prescriptionIndex s;
     prescriptionToTopic := prescriptionToTopic s;
     topicStatus := topicStatus s;
     sensitiveData := sensitiveData s;
     usedNonces := usedNonces s;
     hashLookup := hashLookup s;
     dispenseLocks := dispenseLocks s;
     messageQueue := messageQueue s;
     hcsSubmitted := hcsSubmitted s;
     hcsEventLog := hcsEventLog s |}.

Definition with_lastEventHash (f : gmap string string -> gmap string string) (s : Store) : Store :=
  {| inMemoryStore := inMemoryStore s;
     lastEventHashPerTopic := f (lastEventHashPerTopic s);
     lastEventTypePerTopic := lastEventTypePerTopic s;
     prescriptionIndex := prescriptionIndex s;
     prescriptionToTopic := prescriptionToTopic s;
     topicStatus := topicStatus s;
     sensitiveData := sensitiveData s;
     usedNonces := usedNonces s;
     hashLookup := hashLookup s;
     dispenseLocks := dispenseLocks s;
     messageQueue := messageQueue s;
     hcsSubmitted := hcsSubmitted s;
     hcsEventLog := hcsEventLog s |}.

Definition with_lastEventType (f : gmap string string -> gmap string string) (s : Store) : Store :=
  {| inMemoryStore := inMemoryStore s;
     lastEventHashPerTopic := lastEventHashPerTopic s;
     lastEventTypePerTopic := f (lastEventTypePerTopic s);
     prescriptionIndex := prescriptionIndex s;
     prescriptionToTopic := prescriptionToTopic s;
     topicStatus := topicStatus s;
     sensitiveData := sensitiveData s;
     usedNonces := usedNonces s;
     hashLookup := hashLookup s;
     dispenseLocks := dispenseLocks s;
     messageQueue := messageQueue s;
     hcsSubmitted := hcsSubmitted s;
     hcsEventLog := hcsEventLog s |}.

Definition with_prescriptionIndex (f : gmap string jsval -> gmap string jsval) (s : Store) : Store :=
  {| inMemoryStore := inMemoryStore s;
     lastEventHashPerTopic := lastEventHashPerTopic s;
     lastEventTypePerTopic := lastEventTypePerTopic s;
     prescriptionIndex := f (prescriptionIndex s);
     prescriptionToTopic := prescriptionToTopic s;
     topicStatus := topicStatus s;
     sensitiveData := sensitiveData s;
     usedNonces := usedNonces s;
     hashLookup := hashLookup s;
     dispenseLocks := dispenseLocks s;
     messageQueue := messageQueue s;
     hcsSubmitted := hcsSubmitted s;
     hcsEventLog := hcsEventLog s |}.

Definition with_prescriptionToTopic (f : gmap string string -> gmap string string) (s : Store) : Store :=
  {| inMemoryStore := inMemoryStore s;
     lastEventHashPerTopic := lastEventHashPerTopic s;
     lastEventTypePerTopic := lastEventTypePerTopic s;
     prescriptionIndex := prescriptionIndex s;
     prescriptionToTopic := f (prescriptionToTopic s);
     topicStatus := topicStatus s;
     sensitiveData := sensitiveData s;
     usedNonces := usedNonces s;
     hashLookup := hashLookup s;
     dispenseLocks := dispenseLocks s;
     messageQueue := messageQueue s;
     hcsSubmitted := hcsSubmitted s;
     hcsEventLog := hcsEventLog s |}.

Definition with_topicStatus (f : gmap string string -> gmap string string) (s : Store) : Store :=
  {| inMemoryStore := inMemoryStore s;
     lastEventHashPerTopic := lastEventHashPerTopic s;
     lastEventTypePerTopic := lastEventTypePerTopic s;
     prescriptionIndex := prescriptionIndex s;
     prescriptionToTopic := prescriptionToTopic s;
     topicStatus := f (topicStatus s);
     sensitiveData := sensitiveData s;
     usedNonces := usedNonces s;
     hashLookup := hashLookup s;
     dispenseLocks := dispenseLocks s;
     messageQueue := messageQueue s;
     hcsSubmitted := hcsSubmitted s;
     hcsEventLog := hcsEventLog s |}.

Definition with_sensitiveData (f : gmap string props -> gmap string props) (s : Store) : Store :=
  {| inMemoryStore := inMemoryStore s;
     lastEventHashPerTopic := lastEventHashPerTopic s;
     lastEventTypePerTopic := lastEventTypePerTopic s;
     prescriptionIndex := prescriptionIndex s;
     prescriptionToTopic := prescriptionToTopic s;
     topicStatus := topicStatus s;
     sensitiveData := f (sensitiveData s);
     usedNonces := usedNonces s;
     hashLookup := hashLookup s;
     dispenseLocks := dispenseLocks s;
     messageQueue := messageQueue s;
     hcsSubmitted := hcsSubmitted s;
     hcsEventLog := hcsEventLog s |}.

Definition with_usedNonces (f : list jsval -> list jsval) (s : Store) : Store :=
  {| inMemoryStore := inMemoryStore s;
     lastEventHashPerTopic := lastEventHashPerTopic s;
     lastEventTypePerTopic := lastEventTypePerTopic s;
     prescriptionIndex := prescriptionIndex s;
     prescriptionToTopic := prescriptionToTopic s;
     topicStatus := topicStatus s;
     sensitiveData := sensitiveData s;
     usedNonces := f (usedNonces s);
     hashLookup := hashLookup s;
     dispenseLocks := dispenseLocks s;
     messageQueue := messageQueue s;
     hcsSubmitted := hcsSubmitted s;
     hcsEventLog := hcsEventLog s |}.

Definition with_hashLookup (f : list string -> list string) (s : Store) : Store :=
  {| inMemoryStore := inMemoryStore s;
     lastEventHashPerTopic := lastEventHashPerTopic s;
     lastEventTypePerTopic := lastEventTypePerTopic s;
     prescriptionIndex := prescriptionIndex s;
     prescriptionToTopic := prescriptionToTopic s;
     topicStatus := topicStatus s;
     sensitiveData := sensitiveData s;
     usedNonces := usedNonces s;
     hashLookup := f (hashLookup s);
     dispenseLocks := dispenseLocks s;
     messageQueue := messageQueue s;
     hcsSubmitted := hcsSubmitted s;
     hcsEventLog := hcsEventLog s |}.

Definition with_dispenseLocks (f : gmap string Lock.lock -> gmap string Lock.lock) (s : Store) : Store :=
  {| inMemoryStore := inMemoryStore s;
     lastEventHashPerTopic := lastEventHashPerTopic s;
     lastEventTypePerTopic := lastEventTypePerTopic s;
     prescriptionIndex := prescriptionIndex s;
     prescriptionToTopic := prescriptionToTopic s;
     topicStatus := topicStatus s;
     sensitiveData := sensitiveData s;
     usedNonces := usedNonces s;
     hashLookup := hashLookup s;
     dispenseLocks := f (dispenseLocks s);
     messageQueue := messageQueue s;
     hcsSubmitted := hcsSubmitted s;
     hcsEventLog := hcsEventLog s |}.

Definition with_messageQueue (f : list (jsval * props) -> list (jsval * props)) (s : Store) : Store :=
  {| inMemoryStore := inMemoryStore s;
     lastEventHashPerTopic := lastEventHashPerTopic s;
     lastEventTypePerTopic := lastEventTypePerTopic s;
     prescriptionIndex := prescriptionIndex s;
     prescriptionToTopic := prescriptionToTopic s;
     topicStatus := topicStatus s;
     sensitiveData := sensitiveData s;
     usedNonces := usedNonces s;
     hashLookup := hashLookup s;
     dispenseLocks := dispenseLocks s;
     messageQueue := f (messageQueue s);
     hcsSubmitted := hcsSubmitted s;
     hcsEventLog := hcsEventLog s |}.

Definition with_hcsSubmitted (f : list submission -> list submission) (s : Store) : Store :=
  {| inMemoryStore := inMemoryStore s;
     lastEventHashPerTopic := lastEventHashPerTopic s;
     lastEventTypePerTopic := lastEventTypePerTopic s;
     prescriptionIndex := prescriptionIndex s;
     prescriptionToTopic := prescriptionToTopic s;
     topicStatus := topicStatus s;
     sensitiveData := sensitiveData s;
     usedNonces := usedNonces s;
     hashLookup := hashLookup s;
     dispenseLocks := dispenseLocks s;
     messageQueue := messageQueue s;
     hcsSubmitted := f (hcsSubmitted s);
     hcsEventLog := hcsEventLog s |}.

Definition with_hcsEventLog (f : list props -> list props) (s : Store) : Store :=
  {| inMemoryStore := inMemoryStore s;
     lastEventHashPerTopic := lastEventHashPerTopic s;
     lastEventTypePerTopic := lastEventTypePerTopic s;
     prescriptionIndex := prescriptionIndex s;
     prescriptionToTopic := prescriptionToTopic s;
     topicStatus := topicStatus s;
     sensitiveData := sensitiveData s;
     usedNonces := usedNonces s;
     hashLookup := hashLookup s;
     dispenseLocks := dispenseLocks s;
     messageQueue := messageQueue s;
     hcsSubmitted := hcsSubmitted s;
     hcsEventLog := f (hcsEventLog s) |}.

(** ** Handler programs: state and exceptions *)

Inductive outcome (A : Type) : Type :=
| Ok (a : A)
| Throw (msg : string).
Arguments Ok {A} a.
Arguments Throw {A} msg.

(** The stores survive an exception: what was written before the throw stays
    written. *)
Definition M (A : Type) : Type := Store -> outcome A * Store.

#[global] Instance M_ret : MRet M := fun A a s => (Ok a, s).

#[global] Instance M_bind : MBind M := fun A B f m s =>
  match m s with
  | (Ok a, s') => f a s'
  | (Throw e, s') => (Throw e, s')
  end.

Definition read {A} (f : Store -> A) : M A := fun s => (Ok (f s), s).
Definition update (f : Store -> Store) : M unit := fun s => (Ok (), f s).
Definition throw {A} (msg : string) : M A := fun s => (Throw msg, s).

(** [try { m } catch (e) { h e }] *)
Definition try_catch {A} (m : M A) (h : string -> M A) : M A := fun s =>
  match m s with
  | (Ok a, s') => (Ok a, s')
  | (Throw e, s') => h e s'
  end.

(** [try { m } catch (_) { }] *)
Definition attempt (m : M unit) : M unit := try_catch m (fun _ => mret ()).

(** The calls that can fail for reasons outside the process: the request's
    world says which ones do. *)
Inductive collaborator : Type :=
| CEnsureKeyPair | CSignPayload | CPutSensitiveData | CCompressPayload
| CQueueMessage | CSubmitMessage | CSetTopicStatus | CLogHCSEvent
| CHashIdentifier.

(** What a request finds outside the stores: the clock, its share of
    entropy, and the collaborators that fail while it runs. *)
Record World := {
  now_ms : Z;
  entropy : Z;
  fails : collaborator -> bool
}.

(** [new Date().toISOString()] *)
Definition now_iso `{External} (w : World) : string := toISOString (now_ms w).

Definition calling (w : World) (c : collaborator) (what : string) : M unit :=
  if fails w c then throw what else mret ().

Record Response := { status : Z; body : props }.

(** [res.json(b)] and [res.status(c).json(b)] *)
Definition json (b : props) : Response := {| status := 200; body := literal b |}.
Definition status_json (c : Z) (b : props) : Response :=
  {| status := c; body := literal b |}.

(** ** Payload compressor *)

Module Compressor.

(** Modelled from the spec: the static field dictionary of
    [utils/hcsPayloadCompressor], whose source is not part of the repository
    snapshot.  "A static dictionary maps long field names to short codes
    (eventType -> e, topicID -> t, dispenseCount -> dc, ...)", the further
    codes being the short keys [v, h, d, q, i, u, n, g, p, md, s] of the
    wire format, paired with long names as [/api/verify] pairs them. *)
Definition fieldCodes : list (string * string) :=
  [ ("eventType", "e"); ("topicID", "t"); ("dispenseCount", "dc");
    ("maxDispenses", "md"); ("version", "v"); ("hashedPatientId", "h");
    ("drugId", "d"); ("quantity", "q"); ("instructions", "i");
    ("validUntil", "u"); ("nonce", "n"); ("geoTag", "g");
    ("doctorIdHash", "p"); ("signature", "s") ].

Fixpoint short_in (codes : list (string * string)) (k : string) : string :=
  match codes with
  | [] => k
  | (long, short) :: codes' =>
      if String.eqb k long then short else short_in codes' k
  end.

Fixpoint long_in (codes : list (string * string)) (k : string) : string :=
  match codes with
  | [] => k
  | (long, short) :: codes' =>
      if String.eqb k short then long else long_in codes' k
  end.

Definition short_of : string -> string := short_in fieldCodes.
Definition long_of : string -> string := long_in fieldCodes.

Definition is_code (k : string) : bool :=
  existsb (fun c => String.eqb k c.2) fieldCodes.

Section Values.
Context `{External}.

Fixpoint index_of (v : string) (dict : list string) : option nat :=
  match dict with
  | [] => None
  | x :: dict' => if String.eqb v x then Some 0 else S <$> index_of v dict'
  end.

(** A string spelled like a token. *)
Definition is_token (s : string) : bool :=
  match token_index s with Some _ => true | None => false end.

(** Modelled from the spec: the value dictionary.  "A value dictionary maps
    frequently repeated long values (drug ids, identifiers) to short
    tokens, populated on first occurrence."  The mapping is "lossless", and
    the decompressor expands every token it reads: so a value that is
    itself spelled like a token is entered in the dictionary as well, and
    travels as the token of its entry. *)
Definition abbreviate (s : string) (dict : list string) : string * list string :=
  if is_long s || is_token s then
    match index_of s dict with
    | Some n => (token_of n, dict)
    | None => (token_of (length dict), dict ++ [s])
    end
  else (s, dict).

Definition expand (dict : list string) (s : string) : string :=
  match token_index s with
  | Some n => default s (dict !! n)
  | None => s
  end.

Fixpoint abbreviate_all (l : list jsval) (dict : list string)
    : list jsval * list string :=
  match l with
  | [] => ([], dict)
  | JStr s :: l' =>
      let '(s', d1) := abbreviate s dict in
      let '(l'', d2) := abbreviate_all l' d1 in
      (JStr s' :: l'', d2)
  | x :: l' =>
      let '(l'', d2) := abbreviate_all l' dict in
      (x :: l'', d2)
  end.

(** A string value, and the strings of a list of identifiers, go through the
    value dictionary; numbers, booleans, absent values and nested objects
    are carried as they are. *)
Definition compress_value (v : jsval) (dict : list string) : jsval * list string :=
  match v with
  | JStr s => let '(s', d) := abbreviate s dict in (JStr s', d)
  | JArr l => let '(l', d) := abbreviate_all l dict in (JArr l', d)
  | _ => (v, dict)
  end.

Definition expand_elem (dict : list string) (v : jsval) : jsval :=
  match v with
  | JStr s => JStr (expand dict s)
  | _ => v
  end.

Definition decompress_value (dict : list string) (v : jsval) : jsval :=
  match v with
  | JStr s => JStr (expand dict s)
  | JArr l => JArr (map (expand_elem dict) l)
  | _ => v
  end.

(** Modelled from the spec: [compressPayload(payload, hashLookup)].  It
    "shrinks an event before ledger submission": every field is renamed
    through the static dictionary and its value abbreviated through the
    value dictionary, which it returns extended. *)
Fixpoint compressPayload (payload : props) (dict : list string)
    : props * list string :=
  match payload with
  | [] => ([], dict)
  | (k, v) :: payload' =>
      let '(v', d1) := compress_value v dict in
      let '(rest, d2) := compressPayload payload' d1 in
      ((short_of k, v') :: rest, d2)
  end.

(** Modelled from the spec: [decompressPayload(payload, hashLookup)], which
    "losslessly restores it on read". *)
Definition decompressPayload (payload : props) (dict : list string) : props :=
  map (fun kv => (long_of kv.1, decompress_value dict kv.2)) payload.

Definition is_event_type (v : jsval) : bool :=
  is_str v "issued" || is_str v "verified" || is_str v "paid" || is_str v "dispensed".

(** The shape of an event before compression: one of the four event types,
    under long field names, as the handlers build them.  Its values are
    any. *)
Definition event_shape (x : props) : bool :=
  is_event_type (lookup_prop "eventType" x)
  && forallb (fun kv => negb (is_code kv.1)) x.

End Values.

(** [payload?.e && !payload?.eventType], the test of [/api/verify] for a
    payload in compressed form. *)
Definition is_compressed (payload : jsval) : bool :=
  truthy (opt_get payload "e") && negb (truthy (opt_get payload "eventType")).

End Compressor.

(** ** Store operations used by the handlers *)

Section Handlers.
Context `{External}.

Definition acquireDispenseLock (w : World) (topicID ownerId : string) : M bool :=
  fun s =>
    let '(ok, locks) :=
      Lock.acquire LOCK_TIMEOUT_MS (now_ms w) topicID ownerId (dispenseLocks s) in
    (Ok ok, with_dispenseLocks (fun _ => locks) s).

Definition releaseDispenseLock (topicID : string) : M unit :=
  update (with_dispenseLocks (Lock.release topicID)).

(** [m.get(k)] on a map of strings *)
Definition get_str (m : gmap string string) (k : string) : jsval :=
  from_option JStr JUndef (m !! k).

Definition get_val (m : gmap string jsval) (k : string) : jsval :=
  default JUndef (m !! k).

(** [m.get(k)] for a key that is any value: only a string finds an entry. *)
Definition get_str_at (m : gmap string string) (k : jsval) : jsval :=
  match k with JStr k => get_str m k | _ => JUndef end.

Definition get_val_at (m : gmap string jsval) (k : jsval) : jsval :=
  match k with JStr k => get_val m k | _ => JUndef end.

(** [compressPayload(payload, hashLookup)] *)
Definition compress (w : World) (payload : props) : M props :=
  calling w CCompressPayload "compressPayload failed";;
  dict ← read hashLookup;
  let '(wire, dict') := Compressor.compressPayload payload dict in
  update (with_hashLookup (fun _ => dict'));;
  mret wire.

(** [queueMessage(topicID, { eventType, payload })] *)
Definition queueMessage (w : World) (topicID : jsval) (eventType : string)
    (wire : props) : M unit :=
  calling w CQueueMessage "queueMessage failed";;
  update (with_messageQueue
            (fun q => q ++ [(topicID, literal [("eventType", JStr eventType);
                                               ("payload", JObj wire)])])).

(** [await submitPrescriptionMessage(...)]: the call is recorded whether or
    not the ledger takes the message; a refusal is an exception. *)
Definition submitPrescriptionMessage (w : World) (args : list jsval)
    (event : props) : M unit :=
  update (with_hcsSubmitted
            (fun l => l ++ [{| sub_args := args; sub_event := event;
                               sub_accepted := negb (fails w CSubmitMessage) |}]));;
  calling w CSubmitMessage "HCS submission failed".

(** Modelled from the spec: [setTopicStatus] of [services/store], whose
    source is not part of the repository snapshot.  "EventStore exposes to
    request handlers: getChannel, putChannel, setStatus,
    appendAuditLogEntry, markDirty"; the status is an attribute of the
    channel.  It is kept here in a table of its own, [topicStatus], beside
    the channel's entry: the comments at index.js:485 and :1599 and the read
    at :320 suggest that the function writes it into the [inMemoryStore]
    entry, next to the [payload] that the handlers read; none of the
    handlers modelled here reads it back. *)
Definition setTopicStatus (w : World) (topicID status : string) : M unit :=
  calling w CSetTopicStatus "setTopicStatus failed";;
  update (with_topicStatus <[topicID := status]>).

Definition logHCSEvent (w : World) (entry : props) : M unit :=
  calling w CLogHCSEvent "logHCSEvent failed";;
  update (with_hcsEventLog (fun l => l ++ [literal entry])).

(** [v.k = x]: [None] is the TypeError of writing through undefined or
    null; a write to a primitive is dropped (the module is not in strict
    mode).  An array keeps its elements: the named properties it could take
    are not represented. *)
Definition assign (v : jsval) (k : string) (x : jsval) : option jsval :=
  match v with
  | JUndef | JNull => None
  | JObj o => Some (JObj (set_prop k x o))
  | _ => Some v
  end.

Definition type_error {A} : M A := throw "TypeError".

Definition lift {A} (o : option A) : M A :=
  match o with Some a => mret a | None => type_error end.

(** The signed event of the pharmacist-side handlers:
[[
  const keyId = 'fp:' + ...; const nonce = crypto.randomBytes(8).toString('hex');
  const toHash = { ...base, keyId, nonce };
  const contentHash = 'sha256:' + sha256(JSON.stringify(toHash));
  const signed = { ...toHash, contentHash };
  const signature = signPayload(signed, id);
  const msg = { ...signed, signature: `hex:${signature}` };
]] *)
Definition to_hash (w : World) (base : props) (id : string) : props :=
  spread base [("keyId", JStr (key_id id)); ("nonce", JStr (randomHex (entropy w)))].

Definition content_hash (toHash : props) : string := hash_of toHash.

Definition signed_event (w : World) (base : props) (id : string) : props :=
  let toHash := to_hash w base id in
  let contentHash := content_hash toHash in
  let signed := spread toHash [("contentHash", JStr contentHash)] in
  let signature := signPayload signed id in
  spread signed [("signature", JStr ("hex:" +:+ signature))].

(** Building it calls [ensureKeyPair], then [signPayload]. *)
Definition sign_event (w : World) (base : props) (id : string) : M props :=
  calling w CEnsureKeyPair "ensureKeyPair failed";;
  calling w CSignPayload "signPayload failed";;
  mret (signed_event w base id).

End Handlers.

(** ** POST /api/dispense *)

Module Dispense.

(** The body as the route's schema admits it: [topicID] and
    [pharmacistNationalId] are strings; a field the request does not carry
    is [JUndef]. *)
Record request := {
  topicID : string;
  pharmacistNationalId : string;
  items : jsval;
  totals : jsval;
  paymentMethod : jsval;
  prevEventHash : jsval
}.

Section Handler.
Context `{External}.

Definition is_array (v : jsval) : bool :=
  match v with JArr _ => true | _ => false end.

Definition conflict : Response :=
  status_json 409
    [ ("success", JBool false);
      ("message", JStr "Another dispense operation is in progress for this prescription");
      ("error", JStr "CONCURRENT_DISPENSE_ATTEMPT") ].

Definition fully_dispensed (currentDispenseCount maxDispenses : jsval) : Response :=
  status_json 400
    [ ("success", JBool false);
      ("message", JStr ("Prescription fully dispensed (" +:+ to_string currentDispenseCount
                        +:+ "/" +:+ to_string maxDispenses +:+ ")")) ].

Definition base (w : World) (req : request)
    (chainPrev newDispenseCount maxDispenses : jsval) : props :=
  literal
    [ ("version", JStr "1");
      ("alg", JStr "secp256k1+SHA-256");
      ("eventType", JStr "dispensed");
      ("topicID", JStr (topicID req));
      ("timestamp", JStr (now_iso w));
      ("signerRole", JStr "pharmacist");
      ("actorIdHash", JStr (actor_hash (pharmacistNationalId req)));
      ("items", if is_array (items req) then items req else JUndef);
      ("totals", or (totals req) JUndef);
      ("paymentMethod", or (paymentMethod req) JUndef);
      ("prevEventHash", chainPrev);
      ("dispenseCount", newDispenseCount);
      ("maxDispenses", maxDispenses) ].

(** [prevEventHash || lastEventHashPerTopic.get(topicID) || undefined] *)
Definition chainPrev (req : request) (st : Store) : jsval :=
  or (or (prevEventHash req) (get_str (lastEventHashPerTopic st) (topicID req)))
     JUndef.

(** The block after the submission, inside its own [try { } catch (_) { }]:
    the channel head, the stored count, the index, the status and the admin
    log, in the order the source writes them. *)
Definition record_dispense (w : World) (req : request) (prescriptionData : jsval)
    (payload : props) (newDispenseCount maxDispenses base_timestamp base_actor : jsval)
    : M unit :=
  let topicID := topicID req in
  update (with_lastEventHash <[topicID := hash_of payload]>);;
  update (with_lastEventType <[topicID := "dispensed"]>);;
  (if truthy prescriptionData then
     p ← lift (get prescriptionData "payload");
     p1 ← lift (assign p "dispenseCount" newDispenseCount);
     p2 ← lift (assign p1 "lastDispenseDate" (JStr (now_iso w)));
     d ← lift (assign prescriptionData "payload" p2);
     update (with_inMemoryStore <[topicID := d]>)
   else mret ());;
  prescriptionRecord ← read (fun s => get_val (prescriptionIndex s) topicID);
  (if truthy prescriptionRecord then
     r1 ← lift (assign prescriptionRecord "dispenseCount" newDispenseCount);
     r2 ← lift (assign r1 "lastDispenseDate" (JStr (now_iso w)));
     update (with_prescriptionIndex <[topicID := r2]>)
   else mret ());;
  setTopicStatus w topicID "dispensed";;
  logHCSEvent w
    [ ("topicID", JStr topicID);
      ("eventType", JStr "dispensed");
      ("timestamp", base_timestamp);
      ("signerRole", JStr "pharmacist");
      ("actorIdHash", base_actor);
      ("dispenseCount", newDispenseCount);
      ("maxDispenses", maxDispenses);
      ("fraudAlert", JNull);
      ("drugIds", or (opt_get (opt_get prescriptionData "payload") "drugIds") (JArr []));
      ("prescriptionId", or (opt_get (opt_get prescriptionData "prescription") "id") (JStr topicID));
      ("paymentMethod", paymentMethod req);
      ("totals", totals req) ].

(** The body of the handler's [try], entered with the lock held. *)
Definition locked_body (w : World) (req : request) : M Response :=
  let topicID := topicID req in
  prescriptionData ← read (fun s => get_val (inMemoryStore s) topicID);
  let currentDispenseCount :=
    or (opt_get (opt_get prescriptionData "payload") "dispenseCount") (JNum 0) in
  let maxDispenses :=
    or (opt_get (opt_get prescriptionData "payload") "maxDispenses") (JNum 1) in
  if ge currentDispenseCount maxDispenses then
    releaseDispenseLock topicID;;
    mret (fully_dispensed currentDispenseCount maxDispenses)
  else
    let newDispenseCount := add currentDispenseCount (JNum 1) in
    chainPrev ← read (chainPrev req);
    let base := base w req chainPrev newDispenseCount maxDispenses in
    payload ← sign_event w base (pharmacistNationalId req);
    calling w CPutSensitiveData "putSensitiveData failed";;
    update (with_sensitiveData (fun m =>
      <[topicID := spread (default [] (m !! topicID))
                     [ ("dispensedItems", items req);
                       ("dispensedTotals", totals req);
                       ("paymentMethod", paymentMethod req) ]]> m));;
    compressedPayload ← compress w payload;
    queueMessage w (JStr topicID) "dispensed" compressedPayload;;
    attempt (submitPrescriptionMessage w [JStr topicID; JObj compressedPayload] payload);;
    attempt (record_dispense w req prescriptionData payload newDispenseCount maxDispenses
               (lookup_prop "timestamp" base) (lookup_prop "actorIdHash" base));;
    releaseDispenseLock topicID;;
    mret (json [("success", JBool true)]).

Definition handler (w : World) (req : request) : M Response :=
  acquired ← acquireDispenseLock w (topicID req) (pharmacistNationalId req);
  if negb acquired then mret conflict
  else
    try_catch (locked_body w req)
      (fun e =>
         releaseDispenseLock (topicID req);;
         mret (status_json 500 [("success", JBool false); ("error", JStr e)])).

End Handler.
End Dispense.

(** ** POST /api/verify *)

Module Verify.

(** The body as the route's schema admits it: [payload] is an object or
    absent, the identifiers are strings (possibly empty) or absent; an
    absent field is [JUndef].  [geo] is what [req.body.geo] reads. *)
Record request := {
  payload : jsval;
  topicID : jsval;
  doctorNationalId : jsval;
  pharmacistNationalId : jsval;
  pharmacyId : jsval;
  geo : jsval
}.

(** [x && x.trim() !== '' ? x : undefined] *)
Definition normalized (x : jsval) : jsval :=
  match x with
  | JStr s => if truthy x && negb (String.eqb (trim s) "") then x else JUndef
  | _ => JUndef
  end.

(** [v?.[0]]: the first element of an array, the first character of a
    string, the property [0] of an object. *)
Definition opt_first (v : jsval) : jsval :=
  match v with
  | JArr (x :: _) => x
  | JStr (String c _) => JStr (String c "")
  | JObj o => lookup_prop "0" o
  | _ => JUndef
  end.

(** The identifiers bound where the verified event is built: the module
    scope of [index.js], the globals it uses, and the handler's locals up to
    that statement.  A [const] of another handler's body is not among
    them. *)
Definition module_scope : list string :=
  [ "express"; "cors"; "uuidv4"; "helmet"; "rateLimit"; "storePrescription";
    "getPrescription"; "submitAuditMessage"; "buildFHIRPrescription";
    "sendEmail"; "generatePrescriptionPdf"; "generatePharmacistReport";
    "hashIdentifier"; "issueOtp"; "verifyOtp"; "generateFSE"; "orchestrator";
    "verifyPrescriptionOnMirror"; "initQueue"; "enqueueIssue"; "waitForJob";
    "isQueueEnabled"; "signToken"; "authenticateJWT"; "requireRole";
    "celebrate"; "Joi"; "Segments"; "celebrateErrors"; "crypto";
    "ensureKeyPair"; "signPayload"; "verifySignature"; "putPayload";
    "queueMessage"; "inMemoryStore"; "lastEventHashPerTopic";
    "lastEventTypePerTopic"; "hashLookup"; "putSensitiveData";
    "getSensitiveData"; "queueSyncLoop"; "compressPayload";
    "decompressPayload"; "compressGeotag"; "path"; "fs"; "XLSX"; "app";
    "PORT"; "allowedOrigins"; "limiter"; "generatePrescriptionId";
    "generateInvoiceId"; "cnopsCatalog"; "normalizeKey"; "pickField";
    "deriveCatalogRow"; "loadCnopsCatalog"; "users"; "prescriptionIndex";
    "prescriptionToTopic"; "topicIndex"; "indexPersistence";
    "medicinesCache"; "medicinesCacheTimestamp"; "loadMedicinesCache" ].

Definition globals : list string :=
  [ "require"; "module"; "exports"; "__dirname"; "__filename"; "process";
    "console"; "Buffer"; "JSON"; "Date"; "Math"; "Number"; "String"; "Array";
    "Object"; "Map"; "Set"; "setTimeout"; "undefined"; "globalThis" ].

Definition handler_locals : list string :=
  [ "req"; "res"; "payloadIn"; "topicID"; "doctorNationalId";
    "pharmacistNationalId"; "pharmacyId"; "normalizedTopicID";
    "normalizedDoctorId"; "normalizedPharmacistId"; "payload";
    "dispenseCount"; "maxDispenses"; "signatureValid"; "signatureStatus";
    "fraudAlert"; "queueMessage"; "lastEventHashPerTopic"; "prevEventHash";
    "verification" ].

Definition scope : list string := handler_locals ++ module_scope ++ globals.

(** Reading identifier [x]: its value under [env] when a scope binds it, a
    ReferenceError otherwise. *)
Definition identifier (env : string -> jsval) (x : string) : M jsval :=
  if existsb (String.eqb x) scope then mret (env x)
  else throw ("ReferenceError: " +:+ x +:+ " is not defined").

Section Handler.
Context `{External}.

Definition not_found : Response :=
  status_json 400
    [ ("success", JBool false); ("valid", JBool false);
      ("message", JStr "Prescription not found. Please scan the QR code or look up the prescription first.") ].

Definition fully_dispensed (code : Z) (count maxd : jsval) : Response :=
  status_json code
    [ ("success", JBool false); ("valid", JBool false);
      ("message", JStr ("Prescription fully dispensed (" +:+ to_string count
                        +:+ "/" +:+ to_string maxd +:+ ")")) ].

Definition unsupported_version : Response :=
  status_json 400
    [ ("success", JBool false); ("valid", JBool false);
      ("message", JStr "Unsupported QR version") ].

Definition expired (validUntil : Z) : Response :=
  status_json 400
    [ ("success", JBool false); ("valid", JBool false);
      ("message", JStr "Prescription expired");
      ("expiredAt", JStr (toISOString validUntil)) ].

Definition duplicate_nonce : Response :=
  status_json 409
    [ ("success", JBool false); ("valid", JBool false);
      ("message", JStr "Duplicate prescription nonce") ].

(** The payload the request is about: the one it carries, else the stored
    payload of [topicID], else a minimal one rebuilt from the prescription
    index. *)
Definition find_payload (w : World) (req : request) (st : Store) : jsval :=
  let normalizedTopicID := normalized (topicID req) in
  let normalizedDoctorId := normalized (doctorNationalId req) in
  if negb (truthy (payload req)) && truthy normalizedTopicID then
    let entry := get_val_at (inMemoryStore st) normalizedTopicID in
    let stored := or (opt_get entry "payload") JNull in
    if negb (truthy stored) then
      let prescription := get_val_at (prescriptionIndex st) normalizedTopicID in
      if truthy prescription then
        JObj (literal
          [ ("eventType", JStr "issued");
            ("topicID", normalizedTopicID);
            ("prescriptionId", or (opt_get prescription "prescriptionId")
                                  (opt_get prescription "id"));
            ("doctorNationalId", or (opt_get prescription "doctorNationalId")
                                    normalizedDoctorId);
            ("timestamp", or (opt_get prescription "date") (JStr (now_iso w)));
            ("maxDispenses", or (opt_get prescription "maxDispenses") (JNum 1)) ])
      else stored
    else stored
  else payload req.

(** [if (payload?.e && !payload?.eventType) payload = decompressPayload(payload, hashLookup)] *)
Definition expanded (raw : jsval) (dict : list string) : jsval :=
  if Compressor.is_compressed raw then
    match raw with
    | JObj o => JObj (Compressor.decompressPayload o dict)
    | _ => raw
    end
  else raw.

(** The checks between finding the payload and looking at its signature,
    in the handler's order; [Some r] is the reply of the first that
    rejects. *)
Definition screen (w : World) (st : Store) (payload : jsval) : option Response :=
  let t := get_str_at (lastEventTypePerTopic st) (opt_get payload "topicID") in
  let prescriptionData := get_val_at (inMemoryStore st) (opt_get payload "topicID") in
  let prescriptionRecord := get_val_at (prescriptionIndex st) (opt_get payload "topicID") in
  let currentDispenseCount :=
    or (or (opt_get (opt_get prescriptionData "payload") "dispenseCount")
           (opt_get prescriptionRecord "dispenseCount")) (JNum 0) in
  let storedMax :=
    or (or (or (or (opt_get (opt_get prescriptionData "payload") "maxDispenses")
                   (opt_get prescriptionRecord "maxDispenses"))
               (opt_get payload "md"))
           (opt_get payload "maxDispenses")) (JNum 1) in
  if (is_str t "dispensed" || is_str t "paid") && ge currentDispenseCount storedMax
  then Some (fully_dispensed 409 currentDispenseCount storedMax)
  else if truthy (opt_get payload "v") && negb (is_str (opt_get payload "v") "1.0")
  then Some unsupported_version
  else
    let late :=
      if truthy (opt_get payload "u") then
        match parseDate (opt_get payload "u") with
        | Some validUntil =>
            if (validUntil <? now_ms w)%Z then Some validUntil else None
        | None => None
        end
      else None in
    match late with
    | Some validUntil => Some (expired validUntil)
    | None =>
        let dispenseCount :=
          coalesce (opt_get payload "dispenseCount") (opt_get payload "dc") in
        let maxDispenses :=
          coalesce (opt_get payload "maxDispenses") (opt_get payload "md") in
        if negb (is_undef dispenseCount) && negb (is_undef maxDispenses)
           && ge dispenseCount maxDispenses
        then Some (fully_dispensed 400 dispenseCount maxDispenses)
        else None
    end.

(** The structure the doctor signed, rebuilt from either field naming. *)
Definition signedPayload (payload : jsval) : props :=
  let f := opt_get payload in
  literal
    [ ("v", or (or (f "v") (f "version")) (JStr "1.0"));
      ("t", or (f "t") (f "topicID"));
      ("h", or (f "h") (f "hashedPatientId"));
      ("d", or (or (f "d") (f "drugId")) (opt_first (f "drugIds")));
      ("q", or (f "q") (f "quantity"));
      ("i", or (or (f "i") (f "instructions")) (opt_first (f "instructionsList")));
      ("u", or (f "u") (f "validUntil"));
      ("n", or (f "n") (f "nonce"));
      ("g", or (f "g") (f "geoTag"));
      ("p", or (f "p") (f "doctorIdHash"));
      ("dc", coalesce (coalesce (f "dc") (f "dispenseCount")) (JNum 0));
      ("md", coalesce (coalesce (f "md") (f "maxDispenses")) (JNum 1)) ].

(** [signatureValid] after the optional doctor-signature check. *)
Definition signatureValid (req : request) (payload : jsval) : bool :=
  match normalized (doctorNationalId req) with
  | JStr normalizedDoctorId =>
      let signature := or (opt_get payload "signature") (opt_get payload "s") in
      if truthy signature
      then verifySignature (signedPayload payload) signature normalizedDoctorId
      else false
  | _ => true
  end.

(** [signatureStatus.signatureValid] *)
Definition reported_signature (req : request) (payload : jsval) : jsval :=
  if truthy (normalized (doctorNationalId req))
  then JBool (signatureValid req payload)
  else JNull.

(** The nonce guard; [true] when the nonce was already consumed. *)
Definition nonce_guard (payload : jsval) : M bool :=
  let nonce := opt_get payload "nonce" in
  if truthy nonce then
    used ← read usedNonces;
    if existsb (same_value_zero nonce) used then mret true
    else
      update (with_usedNonces (fun l => l ++ [nonce]));;
      mret false
  else mret false.

(** [m.set(k, v)] for a key that is any value; only string keys are kept. *)
Definition set_at (k : jsval) (v : string) (m : gmap string string)
    : gmap string string :=
  match k with JStr k => <[k := v]> m | _ => m end.

(** The block that builds, queues and submits the 'verified' event.  The
    handler's environment binds no [ok]; [env] gives the values of the
    identifiers it does bind. *)
Definition verified_block (w : World) (req : request) (payload fraudAlert : jsval)
    (env : string -> jsval) : M unit :=
  let topic := opt_get payload "topicID" in
  prevEventHash ← read (fun s =>
    or (get_str_at (lastEventHashPerTopic s) topic)
       (JStr ("sha256:" +:+ sha256hex (default "" (stringify_opt payload)))));
  ok ← identifier env "ok";
  let validUntil := opt_get payload "validUntil" in
  let verification :=
    literal
      [ ("signatureOk", JBool (truthy ok));
        ("validUntilOk",
         JBool (negb (truthy validUntil)
                || match parseDate validUntil with
                   | Some t => (now_ms w <=? t)%Z
                   | None => false
                   end)) ] in
  let msgBase :=
    literal
      [ ("version", JStr "1");
        ("alg", JStr "secp256k1+SHA-256");
        ("eventType", JStr "verified");
        ("topicID", topic);
        ("timestamp", JStr (now_iso w));
        ("signerRole", JStr "pharmacist");
        ("actorIdHash",
         if truthy (pharmacistNationalId req)
         then JStr (actor_hash (to_string (pharmacistNationalId req)))
         else JNull);
        ("drugIds", or (opt_get payload "drugIds") (JArr [opt_get payload "d"]));
        ("verification", JObj verification);
        ("prevEventHash", prevEventHash);
        ("dispenseCount", or (opt_get payload "dc") (JNum 0));
        ("maxDispenses", or (opt_get payload "md") (JNum 1));
        ("fraudAlert", or fraudAlert JUndef) ] in
  msg ← (if truthy (pharmacistNationalId req)
         then sign_event w msgBase (to_string (pharmacistNationalId req))
         else mret (spread [] msgBase));
  compressedMsg ← compress w msg;
  queueMessage w topic "verified" compressedMsg;;
  attempt (submitPrescriptionMessage w [JObj compressedMsg] msg);;
  attempt (update (with_lastEventHash (set_at topic (hash_of msg)));;
           update (with_lastEventType (set_at topic "verified"))).

(** The values of the handler's locals, as far as the model names them. *)
Definition locals (req : request) (payload fraudAlert : jsval) (x : string) : jsval :=
  if String.eqb x "payload" then payload
  else if String.eqb x "payloadIn" then Verify.payload req
  else if String.eqb x "topicID" then topicID req
  else if String.eqb x "doctorNationalId" then doctorNationalId req
  else if String.eqb x "pharmacistNationalId" then pharmacistNationalId req
  else if String.eqb x "pharmacyId" then pharmacyId req
  else if String.eqb x "normalizedTopicID" then normalized (topicID req)
  else if String.eqb x "normalizedDoctorId" then normalized (doctorNationalId req)
  else if String.eqb x "normalizedPharmacistId" then normalized (pharmacistNationalId req)
  else if String.eqb x "signatureValid" then JBool (signatureValid req payload)
  else if String.eqb x "fraudAlert" then fraudAlert
  else JObj [].

Definition accepted (req : request) (payload fraudAlert : jsval) : Response :=
  json [ ("success", JBool true);
         ("valid", JBool true);
         ("signatureValid", reported_signature req payload);
         ("fraudAlert", or fraudAlert JUndef) ].

(** From the fraud check to the reply. *)
Definition conclude (w : World) (req : request) (payload : jsval) : M Response :=
  let fraudAlert := fraudCheck payload (geo req) in
  attempt (verified_block w req payload fraudAlert
             (locals req payload fraudAlert));;
  let normalizedPharmacistId := normalized (pharmacistNationalId req) in
  actorIdHash ← (if truthy normalizedPharmacistId then
                   calling w CHashIdentifier "hashIdentifier failed";;
                   mret (JStr (hashIdentifier (to_string normalizedPharmacistId)
                                 salt (opt_get payload "topicID")))
                 else mret JNull);
  logHCSEvent w
    [ ("topicID", opt_get payload "topicID");
      ("eventType", JStr "verified");
      ("timestamp", JStr (now_iso w));
      ("signerRole", JStr "pharmacist");
      ("actorIdHash", actorIdHash);
      ("dispenseCount", or (opt_get payload "dispenseCount") (JNum 0));
      ("maxDispenses", or (or (opt_get payload "maxDispenses")
                              (opt_get payload "md")) (JNum 1));
      ("fraudAlert", or fraudAlert JNull);
      ("drugIds", or (opt_get payload "drugIds") (JArr []));
      ("prescriptionId", or (opt_get payload "prescriptionId")
                            (opt_get payload "topicID")) ];;
  mret (accepted req payload fraudAlert).

(** From the nonce guard on. *)
Definition guarded (w : World) (req : request) (payload : jsval) : M Response :=
  replayed ← nonce_guard payload;
  if (replayed : bool) then mret duplicate_nonce
  else conclude w req payload.

(** The body of the handler's [try]. *)
Definition try_body (w : World) (req : request) : M Response :=
  raw ← read (find_payload w req);
  if negb (truthy raw) then mret not_found
  else
    dict ← read hashLookup;
    let payload := expanded raw dict in
    rejected ← read (fun s => screen w s payload);
    match rejected return M Response with
    | Some reply => mret reply
    | None => guarded w req payload
    end.

Definition handler (w : World) (req : request) : M Response :=
  try_catch (try_body w req)
    (fun e => mret (status_json 500 [("success", JBool false); ("error", JStr e)])).

(** The payload the checks run on, and what it means for a request to get as
    far as the nonce guard. *)
Definition effective_payload (w : World) (req : request) (st : Store) : jsval :=
  expanded (find_payload w req st) (hashLookup st).

Definition reaches_nonce_guard (w : World) (req : request) (st : Store) : Prop :=
  truthy (find_payload w req st) = true /\
  screen w st (effective_payload w req st) = None.

(** What a verify request may change: the consumed nonces and the admin
    log, nothing else. *)
Definition verify_frame (st st' : Store) : Prop :=
  inMemoryStore st' = inMemoryStore st /\
  lastEventHashPerTopic st' = lastEventHashPerTopic st /\
  lastEventTypePerTopic st' = lastEventTypePerTopic st /\
  prescriptionIndex st' = prescriptionIndex st /\
  hashLookup st' = hashLookup st /\
  messageQueue st' = messageQueue st /\
  hcsSubmitted st' = hcsSubmitted st /\
  dispenseLocks st' = dispenseLocks st.

End Handler.
End Verify.

(** ** POST /api/payments: the deferred completion

    The timer callback that emits the 'paid' event and answers the request.
    The route has no schema: every field of the body is any JSON value. *)

Module Payments.

Record request := {
  prescriptionId : jsval;
  pharmacistNationalId : jsval;
  amountMAD : jsval;
  method : jsval
}.

Section Handler.
Context `{External}.

Definition base (w : World) (req : request) (topicID prevEventHash : jsval) : props :=
  literal
    [ ("version", JStr "1");
      ("alg", JStr "secp256k1+SHA-256");
      ("eventType", JStr "paid");
      ("topicID", topicID);
      ("timestamp", JStr (now_iso w));
      ("signerRole", JStr "pharmacist");
      ("actorIdHash", JStr (actor_hash (to_string (pharmacistNationalId req))));
      ("amountMAD", or (amountMAD req) JUndef);
      ("method", or (method req) JUndef);
      ("prevEventHash", prevEventHash) ].

Definition record_paid (w : World) (req : request) (topicID : string)
    (base msg : props) : M unit :=
  update (with_lastEventHash <[topicID := hash_of msg]>);;
  update (with_lastEventType <[topicID := "paid"]>);;
  setTopicStatus w topicID "paid";;
  prescriptionData ← read (fun s => get_val (inMemoryStore s) topicID);
  logHCSEvent w
    [ ("topicID", JStr topicID);
      ("eventType", JStr "paid");
      ("timestamp", lookup_prop "timestamp" base);
      ("signerRole", JStr "pharmacist");
      ("actorIdHash", lookup_prop "actorIdHash" base);
      ("dispenseCount", or (opt_get (opt_get prescriptionData "payload") "dispenseCount") (JNum 0));
      ("maxDispenses", or (opt_get (opt_get prescriptionData "payload") "maxDispenses") (JNum 1));
      ("fraudAlert", JNull);
      ("drugIds", or (opt_get (opt_get prescriptionData "payload") "drugIds") (JArr []));
      ("prescriptionId", prescriptionId req);
      ("amountMAD", amountMAD req);
      ("method", method req) ].

Definition emit_paid (w : World) (req : request) : M unit :=
  topic ← read (fun s => get_str_at (prescriptionToTopic s) (prescriptionId req));
  match topic with
  | JStr topicID =>
      if truthy topic && truthy (pharmacistNationalId req) then
        prevEventHash ← read (fun s => or (get_str (lastEventHashPerTopic s) topicID) JUndef);
        let base := base w req topic prevEventHash in
        msg ← sign_event w base (to_string (pharmacistNationalId req));
        compressedMsg ← compress w msg;
        submitPrescriptionMessage w [topic; JObj compressedMsg] msg;;
        attempt (record_paid w req topicID base msg)
      else mret ()
  | _ => mret ()
  end.

Definition completed (w : World) (req : request) : Response :=
  json [ ("success", JBool true);
         ("transactionId", JStr ("tx-" +:+ show_Z (now_ms w)));
         ("amountMAD", or (amountMAD req) JUndef);
         ("method", or (method req) JUndef);
         ("status", JStr "completed") ].

Definition complete (w : World) (req : request) : M Response :=
  (if truthy (prescriptionId req) then attempt (emit_paid w req) else mret ());;
  mret (completed w req).

End Handler.
End Payments.

(** ** POST /api/issue-prescription: the issued event and its indexing

    From the channel id onwards: the event is built, hashed, signed when the
    doctor's national id is given, indexed and submitted.  Prescription
    storage, the QR code, the one-time code and the notifications are other
    components' work and leave the stores below untouched. *)

Module Issue.

Record request := {
  (** [prescriptionId] and [nft], from the orchestrator *)
  prescriptionId : string;
  nft : jsval;
  (** the channel id, from the ledger or the fallback *)
  topicID : string;
  formData : jsval;
  geo : jsval;
  nationalId : jsval;
  (** [req.user?.fullName], [req.user?.specialty] *)
  fullName : jsval;
  specialty : jsval
}.

Section Handler.
Context `{External}.

Definition sixty_days : Z := 60 * 24 * 60 * 60 * 1000.

Definition items_of (v : jsval) : list jsval :=
  match v with JArr l => l | _ => [] end.

Definition precise_geo (geo : jsval) : jsval :=
  if truthy geo
  then JStr (to_string (opt_get geo "lat") +:+ "," +:+ to_string (opt_get geo "lng"))
  else JNull.

Definition fullPayload (w : World) (req : request) : props :=
  let meds := items_of (opt_get (formData req) "medications") in
  let hashedPatientId :=
    hashIdentifier
      (to_string (or (or (opt_get (formData req) "patientId")
                         (opt_get (formData req) "patientEmail")) (JStr "patient")))
      salt (JStr (prescriptionId req)) in
  literal
    [ ("version", JStr "1");
      ("alg", JStr "secp256k1+SHA-256");
      ("eventType", JStr "issued");
      ("topicID", JStr (topicID req));
      ("timestamp", JStr (now_iso w));
      ("validFrom", JStr (now_iso w));
      ("validUntil", JStr (toISOString (now_ms w + sixty_days)));
      ("geoTag", precise_geo (geo req));
      ("hashedPatientId", JStr hashedPatientId);
      ("nftSerial", JStr (to_string (or (opt_get (nft req) "serial") (JNum 1))));
      ("drugIds", JArr (map (fun m => or (opt_get m "code") (JStr "unknown")) meds));
      ("instructionsList", JArr (map (fun m => or (opt_get m "instructions") (JStr "")) meds));
      ("signerRole", JStr "doctor");
      ("maxDispenses", or (opt_get (formData req) "maxDispenses") (JNum 1));
      ("dispenseCount", JNum 0) ].

(** [const toHash = { ...fullPayload, nonce }] *)
Definition toHash (w : World) (req : request) : props :=
  spread (fullPayload w req) [("nonce", JStr (randomHex (entropy w)))].

(** [const completePayload = { ...toHash, contentHash }], then, for a given
    national id, [completePayload.keyId = keyId] and
    [completePayload.signature = `hex:${signPayload(completePayload, nationalId)}`]. *)
Definition unsigned (w : World) (req : request) : props :=
  spread (toHash w req) [("contentHash", JStr (hash_of (toHash w req)))].

Definition with_key (w : World) (req : request) : props :=
  set_prop "keyId" (JStr (key_id (to_string (nationalId req)))) (unsigned w req).

Definition completePayload (w : World) (req : request) : props :=
  if truthy (nationalId req) then
    set_prop "signature"
      (JStr ("hex:" +:+ signPayload (with_key w req) (to_string (nationalId req))))
      (with_key w req)
  else unsigned w req.

Definition full (w : World) (req : request) : props :=
  spread (match formData req with JObj o => o | _ => [] end)
    [ ("id", JStr (prescriptionId req));
      ("nft", nft req);
      ("doctor", or (fullName req) (JStr "Mohamed Rami"));
      ("doctorSpecialty", or (specialty req) (JStr "Specialist in Internal Medicine"));
      ("doctorNationalId", or (nationalId req) (JStr "009811233"));
      ("date", JStr (now_iso w));
      ("dispenseCount", JNum 0);
      ("maxDispenses", or (opt_get (formData req) "maxDispenses") (JNum 1)) ].

(** The indexing block, inside its [try { } catch (_) { }].  [putPayload],
    [topicIndex] and [markDirty] write caches that none of the handlers here
    reads. *)
Definition index_issued (w : World) (req : request) (complete : props) : M unit :=
  let topic := lookup_prop "topicID" complete in
  let topicID := topicID req in
  update (with_prescriptionIndex <[prescriptionId req := JObj (full w req)]>);;
  update (with_prescriptionToTopic <[prescriptionId req := topicID]>);;
  update (with_inMemoryStore
            <[topicID := JObj (literal [ ("prescription", JObj (full w req));
                                         ("payload", JObj complete) ])]>);;
  logHCSEvent w
    [ ("topicID", topic);
      ("eventType", JStr "issued");
      ("timestamp", lookup_prop "timestamp" complete);
      ("signerRole", JStr "doctor");
      ("actorIdHash", lookup_prop "actorIdHash" complete);
      ("dispenseCount", JNum 0);
      ("maxDispenses", or (opt_get (formData req) "maxDispenses") (JNum 1));
      ("fraudAlert", JNull);
      ("drugIds", or (lookup_prop "drugIds" complete) (JArr []));
      ("prescriptionId", JStr (prescriptionId req)) ];;
  calling w CPutSensitiveData "putSensitiveData failed";;
  update (with_sensitiveData
            <[topicID := literal
                [ ("drugIds", lookup_prop "drugIds" complete);
                  ("instructionsList", lookup_prop "instructionsList" complete);
                  ("nftSerial", lookup_prop "nftSerial" complete);
                  ("preciseGeoTag", precise_geo (geo req));
                  ("medications", opt_get (formData req) "medications") ]]>);;
  compressedPayload ← compress w complete;
  queueMessage w topic "issued" compressedPayload;;
  attempt (submitPrescriptionMessage w [topic; JObj compressedPayload] complete);;
  attempt (update (with_lastEventHash <[topicID := hash_of complete]>);;
           update (with_lastEventType <[topicID := "issued"]>)).

(** [n.toFixed(2)] on the integral numbers; [None] is the TypeError of
    calling it on a value that is not a number. *)
Definition toFixed2 (v : jsval) : option string :=
  match v with
  | JNum z => Some (show_Z z +:+ ".00")
  | JNaN => Some "NaN"
  | _ => None
  end.

(** [geo ? `MA-${geo.lat.toFixed(2)},${geo.lng.toFixed(2)}` : 'MA-CAS'];
    [None] is the TypeError of a position that lacks a coordinate. *)
Definition geotag (geo : jsval) : option jsval :=
  if truthy geo then
    lat ← toFixed2 (opt_get geo "lat");
    lng ← toFixed2 (opt_get geo "lng");
    Some (JStr ("MA-" +:+ lat +:+ "," +:+ lng))
  else Some (JStr "MA-CAS").

(** The events are signed and the prescription is indexed
    (index.js:730-891). *)
Definition sign_and_index (w : World) (req : request) : M props :=
  (if truthy (nationalId req) then
     calling w CEnsureKeyPair "ensureKeyPair failed";;
     calling w CSignPayload "signPayload failed"
   else mret ());;
  let complete := completePayload w req in
  attempt (index_issued w req complete);;
  mret complete.

(** The route from the QR payload on (index.js:703-891), the results of the
    orchestrator and of the channel creation being fields of the request.
    The geotag of the QR payload is computed first: its TypeError ends the
    request before anything is signed or stored, and the route's [catch]
    answers 500. *)
Definition issue (w : World) (req : request) : M props :=
  lift (geotag (geo req));;
  sign_and_index w req.

End Handler.
End Issue.

(** ** Sample data

    Transparent stand-ins for the collaborators, on which the handlers can be
    run: the digest of a message is its length, a token is a [#] followed by
    its index in tally marks. *)

Module Sample.

Fixpoint ticks (n : nat) : string :=
  match n with O => EmptyString | S n' => String "i" (ticks n') end.

Fixpoint count_ticks (s : string) : option nat :=
  match s with
  | EmptyString => Some O
  | String c s' => if Ascii.eqb c "i" then S <$> count_ticks s' else None
  end.

Definition tick_token (n : nat) : string := String "#" (ticks n).

Definition tick_index (s : string) : option nat :=
  match s with
  | String c s' => if Ascii.eqb c "#" then count_ticks s' else None
  | EmptyString => None
  end.

Fixpoint count_ticks_ticks (n : nat) : count_ticks (ticks n) = Some n :=
  match n with
  | O => eq_refl
  | S n' => f_equal (fmap S) (count_ticks_ticks n')
  end.

#[export] Instance collaborators : External := {|
  sha256hex := fun s => show_Z (Z.of_nat (String.length s));
  bufferFromHex := fun s => s;
  randomHex := show_Z;
  ensureKeyPair := fun id => "04" +:+ id;
  signPayload := fun _ id => "signed-by-" +:+ id;
  verifySignature := fun _ _ _ => false;
  hashIdentifier := fun id _ _ => "h:" +:+ id;
  CNDP_SALT := JUndef;
  parseDate := fun _ => None;
  toISOString := fun ms => "T" +:+ show_Z ms;
  fraudCheck := fun _ _ => JNull;
  LOCK_TIMEOUT_MS := 30000;
  is_long := fun s => (16 <=? String.length s)%nat;
  token_of := tick_token;
  token_index := tick_index;
  token_index_of := count_ticks_ticks;
  token_nonempty := fun n (E : tick_token n = "") =>
    match E in _ = s return match s with String _ _ => True | _ => False end with
    | eq_refl => I
    end
|}.

(** A world at time [now] in which nothing fails. *)
Definition quiet (now : Z) : World :=
  {| now_ms := now; entropy := now; fails := fun _ => false |}.

Definition empty_store : Store :=
  {| inMemoryStore := ∅; lastEventHashPerTopic := ∅; lastEventTypePerTopic := ∅;
     prescriptionIndex := ∅; prescriptionToTopic := ∅; topicStatus := ∅;
     sensitiveData := ∅; usedNonces := []; hashLookup := [];
     dispenseLocks := ∅; messageQueue := []; hcsSubmitted := [];
     hcsEventLog := [] |}.

(** A channel as [/api/issue-prescription] leaves it in [inMemoryStore]. *)
Definition channel (maxDispenses : Z) : jsval :=
  JObj [ ("prescription", JObj [("id", JStr "RX-1")]);
         ("payload", JObj [ ("eventType", JStr "issued");
                            ("topicID", JStr "0.0.1001");
                            ("maxDispenses", JNum maxDispenses);
                            ("dispenseCount", JNum 0);
                            ("nonce", JStr "a1b2c3d4e5f60718") ]) ].

Definition store_with (maxDispenses : Z) : Store :=
  with_inMemoryStore <["0.0.1001" := channel maxDispenses]> empty_store.

Definition dispense_request : Dispense.request :=
  {| Dispense.topicID := "0.0.1001";
     Dispense.pharmacistNationalId := "PH1";
     Dispense.items := JUndef; Dispense.totals := JUndef;
     Dispense.paymentMethod := JUndef; Dispense.prevEventHash := JUndef |}.

(** The same request from a caller that names its own previous hash. *)
Definition stale_request : Dispense.request :=
  {| Dispense.topicID := "0.0.1001";
     Dispense.pharmacistNationalId := "PH1";
     Dispense.items := JUndef; Dispense.totals := JUndef;
     Dispense.paymentMethod := JUndef;
     Dispense.prevEventHash := JStr "sha256:stale" |}.

(** The channel with a head, and with its lock held by another pharmacist
    since time 0. *)
Definition headed_store : Store :=
  with_lastEventHash <["0.0.1001" := "sha256:head"]> (store_with 2).

Definition locked_store : Store :=
  with_dispenseLocks
    <["0.0.1001" := {| Lock.owner := "PH2"; Lock.acquiredAt := 0 |}]>
    (store_with 2).

(** Two verify requests for different channels whose payloads carry the
    same nonce. *)
Definition verify_request (topic : string) : Verify.request :=
  {| Verify.payload :=
       JObj [ ("eventType", JStr "issued"); ("topicID", JStr topic);
              ("nonce", JStr "a1b2c3d4e5f60718") ];
     Verify.topicID := JUndef;
     Verify.doctorNationalId := JUndef;
     Verify.pharmacistNationalId := JUndef;
     Verify.pharmacyId := JUndef;
     Verify.geo := JUndef |}.

(** A verify request that names the doctor and carries a signature. *)
Definition signed_request : Verify.request :=
  {| Verify.payload :=
       JObj [ ("eventType", JStr "issued"); ("topicID", JStr "0.0.1001");
              ("signature", JStr "hex:00") ];
     Verify.topicID := JUndef;
     Verify.doctorNationalId := JStr "DOC1";
     Verify.pharmacistNationalId := JUndef;
     Verify.pharmacyId := JUndef;
     Verify.geo := JUndef |}.

Definition issue_request : Issue.request :=
  {| Issue.prescriptionId := "RX-1";
     Issue.nft := JUndef;
     Issue.topicID := "0.0.1001";
     Issue.formData :=
       JObj [ ("patientName", JStr "A. Patient");
              ("diagnosis", JStr "flu");
              ("maxDispenses", JNum 2);
              ("medications",
               JArr [JObj [ ("name", JStr "Paracetamol"); ("code", JStr "N02BE01");
                            ("dosage", JNum 500); ("unit", JStr "mg");
                            ("frequency", JStr "3"); ("duration", JNum 5);
                            ("durationUnit", JStr "days") ]]) ];
     Issue.geo := JObj [("lat", JNum 34); ("lng", JNum (-7))];
     Issue.nationalId := JStr "DOC1";
     Issue.fullName := JUndef;
     Issue.specialty := JUndef |}.

Definition three_calls : list (World * Dispense.request) :=
  [ (quiet 1, dispense_request); (quiet 2, dispense_request);
    (quiet 3, dispense_request) ].

Definition dispensed_sample : props :=
  [ ("version", JStr "1");
    ("eventType", JStr "dispensed");
    ("topicID", JStr "0.0.1001");
    ("actorIdHash", JStr "sha256:0123456789abcdef");
    ("items", JUndef);
    ("drugIds", JArr [JStr "N02BE01-PARACETAMOL-500"; JStr "R05"; JStr "#i"]);
    ("paymentMethod", JStr "#");
    ("dispenseCount", JNum 1);
    ("maxDispenses", JNum 2) ].

End Sample.

(** ** Vocabulary of the statements *)

Section Vocabulary.
Context `{External}.

(** [prescriptionData?.payload?.dispenseCount] and
    [prescriptionData?.payload?.maxDispenses] of a channel. *)
Definition dispenseCount_of (st : Store) (t : string) : jsval :=
  opt_get (opt_get (get_val (inMemoryStore st) t) "payload") "dispenseCount".

Definition maxDispenses_of (st : Store) (t : string) : jsval :=
  opt_get (opt_get (get_val (inMemoryStore st) t) "payload") "maxDispenses".

(** The channel head, as the handlers read it. *)
Definition head_of (st : Store) (t : string) : jsval :=
  or (get_str (lastEventHashPerTopic st) t) JUndef.

(** Signing, the sensitive-data table, the compressor and the message queue
    answer; the ledger itself may still refuse. *)
Definition undisturbed (w : World) : Prop :=
  fails w CEnsureKeyPair = false /\ fails w CSignPayload = false /\
  fails w CPutSensitiveData = false /\ fails w CCompressPayload = false /\
  fails w CQueueMessage = false.

(** The lock of channel [t] is free for [ownerId] at the world's time. *)
Definition lock_free (w : World) (st : Store) (t ownerId : string) : Prop :=
  Lock.held_by_other LOCK_TIMEOUT_MS (now_ms w) ownerId (dispenseLocks st !! t) = false.

(** Dispense requests served one after the other. *)
Fixpoint serve (calls : list (World * Dispense.request)) (st : Store)
    : list (outcome Response) * Store :=
  match calls with
  | [] => ([], st)
  | (w, req) :: calls' =>
      let '(r, st1) := Dispense.handler w req st in
      let '(rs, st2) := serve calls' st1 in
      (r :: rs, st2)
  end.

Definition dispensed_ok : Response := json [("success", JBool true)].

(** A payment or a dispense request, with the world it runs in. *)
Inductive call : Type :=
| CallPayment (w : World) (req : Payments.request)
| CallDispense (w : World) (req : Dispense.request).

Definition perform (c : call) (st : Store) : Store :=
  match c with
  | CallPayment w req => (Payments.complete w req st).2
  | CallDispense w req => (Dispense.handler w req st).2
  end.

(** The submissions a call adds to the ledger log. *)
Definition emitted (c : call) (st : Store) : list submission :=
  drop (length (hcsSubmitted st)) (hcsSubmitted (perform c st)).

(** The [prevEventHash] the caller itself supplies; the payment route takes
    none. *)
Definition supplied_prev (c : call) : jsval :=
  match c with
  | CallDispense _ req => Dispense.prevEventHash req
  | CallPayment _ _ => JUndef
  end.

Definition world_of (c : call) : World :=
  match c with
  | CallPayment w _ | CallDispense w _ => w
  end.

(** The submissions of a sequence of calls served one at a time, each
    handler running to completion before the next begins, oldest first. *)
Fixpoint trail (calls : list call) (st : Store) : list submission :=
  match calls with
  | [] => []
  | c :: calls' => emitted c st ++ trail calls' (perform c st)
  end.

Definition on_channel (t : string) (sub : submission) : bool :=
  is_str (lookup_prop "topicID" (sub_event sub)) t.

(** What a call may do to the ledger log and the channel heads: nothing;
    one event, which becomes the head of channel [t]; or one event that the
    ledger refuses, the heads staying as they are. *)
Definition emits_nothing (st st' : Store) : Prop :=
  hcsSubmitted st' = hcsSubmitted st /\
  lastEventHashPerTopic st' = lastEventHashPerTopic st.

Definition emits_one (t : string) (e : props) (accepted : bool) (st st' : Store) : Prop :=
  exists args,
    hcsSubmitted st' = hcsSubmitted st ++
      [{| sub_args := args; sub_event := e; sub_accepted := accepted |}] /\
    lastEventHashPerTopic st' = <[t := hash_of e]> (lastEventHashPerTopic st).

Definition emits_refused (e : props) (st st' : Store) : Prop :=
  exists args,
    hcsSubmitted st' = hcsSubmitted st ++
      [{| sub_args := args; sub_event := e; sub_accepted := false |}] /\
    lastEventHashPerTopic st' = lastEventHashPerTopic st.

(** Each event names the hash of the one before it, the first one names
    [head]. *)
Fixpoint linked (head : jsval) (events : list props) : Prop :=
  match events with
  | [] => True
  | e :: events' =>
      lookup_prop "prevEventHash" e = head /\ linked (JStr (hash_of e)) events'
  end.

End Vocabulary.

Definition two_calls : list call :=
  [ CallDispense (Sample.quiet 1) Sample.dispense_request;
    CallDispense (Sample.quiet 2) Sample.dispense_request ].

(** ** Reasoning about handler programs *)

(** [wp m s Q]: running [m] from [s] ends in an outcome and a store that
    satisfy [Q]. *)
Definition wp {A} (m : M A) (s : Store) (Q : outcome A -> Store -> Prop) : Prop :=
  Q (m s).1 (m s).2.

Definition after_bind {A B} (f : A -> M B) (Q : outcome B -> Store -> Prop)
    (o : outcome A) (s : Store) : Prop :=
  match o with
  | Ok a => wp (f a) s Q
  | Throw e => Q (Throw e) s
  end.

Definition after_try {A} (h : string -> M A) (Q : outcome A -> Store -> Prop)
    (o : outcome A) (s : Store) : Prop :=
  match o with
  | Ok a => Q (Ok a) s
  | Throw e => wp (h e) s Q
  end.

From Stdlib Require Import DecimalPos DecimalZ.

(** ** The other routes of [backend/index.js]

    What the routes below find outside the process: the status the mirror
    node reports for a channel, the legacy prescription storage and the
    audit topic.  A failing call is the exception it throws. *)

Record Remote := {
  (** [await getTopicStatusFromHedera(topicID)] *)
  getTopicStatusFromHedera : string -> outcome jsval;
  (** [await getPrescription(id)] *)
  getPrescription : string -> outcome jsval;
  (** [await submitAuditMessage(message)]: the error it throws, if any *)
  submitAuditMessage : props -> option string
}.

(** [await p] for a call that has answered or thrown. *)
Definition await {A} (o : outcome A) : M A := fun s => (o, s).

(** The reply of a route's outer [catch]. *)
Definition server_error (e : string) : Response :=
  status_json 500 [("success", JBool false); ("error", JStr e)].

(** ** Identifier generators *)

Module Ids.

(** The local-time readings of [new Date()]; [getMonth()] counts from 0.
    The generators read the year, the month, the day and the
    milliseconds. *)
Record LocalDate := {
  getFullYear : Z;
  getMonth : Z;
  getDate : Z;
  getHours : Z;
  getMinutes : Z;
  getSeconds : Z;
  getMilliseconds : Z
}.

Fixpoint zeros (n : nat) : string :=
  match n with O => EmptyString | S n' => String "0" (zeros n') end.

(** [s.padStart(n, '0')] *)
Definition padStart (n : nat) (s : string) : string :=
  zeros (n - String.length s) +:+ s.

(** [`${year}${month}${day}`] *)
Definition dateStr (now : LocalDate) : string :=
  show_Z (getFullYear now)
  +:+ padStart 2 (show_Z (getMonth now + 1))
  +:+ padStart 2 (show_Z (getDate now)).

Definition sequence (now : LocalDate) : string :=
  padStart 3 (show_Z (getMilliseconds now)).

Definition generatePrescriptionId (now : LocalDate) : string :=
  "RX-" +:+ dateStr now +:+ "-" +:+ sequence now.

Definition generateInvoiceId (now : LocalDate) : string :=
  "INV-" +:+ dateStr now +:+ "-" +:+ sequence now.

(** The padded numeral of [n] has [width] characters and reads back as
    [n]. *)
Definition decodes (width : nat) (n : Z) : bool :=
  (String.length (padStart width (show_Z n)) =? width)%nat
  && bool_decide (Z.of_int <$> NilZero.int_of_string (padStart width (show_Z n)) = Some n).

(** A reading a clock can give. *)
Definition in_range (now : LocalDate) : Prop :=
  (0 <= getMonth now <= 11)%Z /\ (1 <= getDate now <= 31)%Z /\
  (0 <= getMilliseconds now <= 999)%Z.

End Ids.

(** ** The CNOPS catalogue loader

    [normalizeKey], [pickField], [deriveCatalogRow] and the map-and-filter
    of [loadCnopsCatalog].  A string is read as a sequence of Latin-1
    characters, one code unit (U+0000 to U+00FF) each. *)

Module Catalog.

Definition between (lo hi : nat) (c : ascii) : bool :=
  (lo <=? nat_of_ascii c)%nat && (nat_of_ascii c <=? hi)%nat.

Definition is_code (n : nat) (c : ascii) : bool := (nat_of_ascii c =? n)%nat.

(** [normalize('NFD')] followed by [replace(/[\u0300-\u036f]/g, '')], on one
    character: an accented Latin-1 letter decomposes into its base letter
    and combining marks, which the replacement removes; no other Latin-1
    character has a canonical decomposition. *)
Definition unaccent (c : ascii) : ascii :=
  if between 192 197 c then "A"
  else if is_code 199 c then "C"
  else if between 200 203 c then "E"
  else if between 204 207 c then "I"
  else if is_code 209 c then "N"
  else if between 210 214 c then "O"
  else if between 217 220 c then "U"
  else if is_code 221 c then "Y"
  else if between 224 229 c then "a"
  else if is_code 231 c then "c"
  else if between 232 235 c then "e"
  else if between 236 239 c then "i"
  else if is_code 241 c then "n"
  else if between 242 246 c then "o"
  else if between 249 252 c then "u"
  else if is_code 253 c || is_code 255 c then "y"
  else c.

(** [toLowerCase()] on one Latin-1 character. *)
Definition toLowerCase (c : ascii) : ascii :=
  if between 65 90 c || (between 192 222 c && negb (is_code 215 c))
  then ascii_of_nat (nat_of_ascii c + 32)
  else c.

(** [[a-z0-9]] *)
Definition is_alnum (c : ascii) : bool := between 97 122 c || between 48 57 c.

(** The white space of [trim()] within Latin-1. *)
Definition is_white (c : ascii) : bool :=
  is_code 32 c || between 9 13 c || is_code 160 c.

Fixpoint map_chars (f : ascii -> ascii) (s : string) : string :=
  match s with
  | EmptyString => EmptyString
  | String c s' => String (f c) (map_chars f s')
  end.

(** [replace(/[^a-z0-9]+/g, ' ')]: every maximal run of other characters
    becomes one space; [in_run] says that the run has begun. *)
Fixpoint squeeze (in_run : bool) (s : string) : string :=
  match s with
  | EmptyString => EmptyString
  | String c s' =>
      if is_alnum c then String c (squeeze false s')
      else if in_run then squeeze true s'
      else String " " (squeeze true s')
  end.

Fixpoint trimStart (s : string) : string :=
  match s with
  | String c s' => if is_white c then trimStart s' else s
  | EmptyString => EmptyString
  end.

Fixpoint trimEnd (s : string) : string :=
  match s with
  | EmptyString => EmptyString
  | String c s' =>
      match trimEnd s' with
      | EmptyString => if is_white c then EmptyString else String c EmptyString
      | t => String c t
      end
  end.

Definition trim (s : string) : string := trimEnd (trimStart s).

Definition normalizeKey (key : string) : string :=
  if String.eqb key "" then ""
  else trim (squeeze false (map_chars toLowerCase (map_chars unaccent key))).

(** [v !== undefined && v !== null && String(v).trim() !== ''] *)
Definition filled (v : jsval) : bool :=
  negb (nullish v) && negb (String.eqb (trim (to_string v)) "").

(** The inner loop of [pickField], over [Object.keys(row)]. *)
Fixpoint firstFilled (row : props) (nCand : string) (keys : list string)
    : option string :=
  match keys with
  | [] => None
  | k :: keys' =>
      if String.eqb (normalizeKey k) nCand && filled (lookup_prop k row)
      then Some (trim (to_string (lookup_prop k row)))
      else firstFilled row nCand keys'
  end.

Fixpoint pickField (row : props) (candidates : list string) : jsval :=
  match candidates with
  | [] => JUndef
  | cand :: candidates' =>
      match firstFilled row (normalizeKey cand) (map fst row) with
      | Some v => JStr v
      | None => pickField row candidates'
      end
  end.

Definition e_acute : ascii := "233"%char.

Definition nameColumns : list string :=
  [ "Nom"; "D" +:+ String e_acute "signation"; "Designation";
    "Libell" +:+ String e_acute ""; "Libelle"; "Produit";
    "M" +:+ String e_acute "dicament"; "Medicament"; "Medication";
    "Nom commercial" ].

Definition deriveCatalogRow (row : props) : props :=
  let name := or (pickField row nameColumns) (pickField row ["Name"]) in
  let code := pickField row ["Code"; "CIP"; "CIP7"; "Code CIP"; "Code produit";
                             "Code barre"] in
  let rate := pickField row ["Taux de remboursement"; "Taux"; "Remboursement";
                             "Rate"; "Reimbursement rate"] in
  let price := pickField row ["Prix"; "Prix public"; "Prix public de vente";
                              "PPP"; "PPA"; "Tarif"; "Price"] in
  literal
    [ ("name", or name JUndef);
      ("code", or code JUndef);
      ("reimbursementRate", or rate JUndef);
      ("price", or price JUndef);
      ("raw", JObj row) ].

(** [rows.map(deriveCatalogRow).filter(r => !!r.name)] *)
Definition cnopsCatalog (rows : list props) : list props :=
  List.filter (fun r => truthy (lookup_prop "name" r)) (map deriveCatalogRow rows).

(** The shape of a normalized key: words of [[a-z0-9]] with one space
    between them. *)
Fixpoint spaced (after_space : bool) (s : string) : bool :=
  match s with
  | EmptyString => negb after_space
  | String c s' =>
      if is_alnum c then spaced false s'
      else Ascii.eqb c " " && negb after_space && spaced true s'
  end.

Definition normal (s : string) : bool :=
  match s with
  | EmptyString => true
  | String c s' => is_alnum c && spaced false s'
  end.

End Catalog.

(** ** POST /api/issue-prescription: the QR payload *)

Module Qr.
Section Payload.
Context `{External}.

(** The geotag of the QR payload, as the route computes it before
    anything else. *)
Definition geotag (geo : jsval) : option jsval := Issue.geotag geo.

(** [meds[0] || {}] *)
Definition firstMed (req : Issue.request) : jsval :=
  or (default JUndef (head (Issue.items_of (opt_get (Issue.formData req) "medications"))))
     (JObj []).

Definition hashedPatientId (req : Issue.request) : string :=
  hashIdentifier
    (to_string (or (or (opt_get (Issue.formData req) "patientId")
                       (opt_get (Issue.formData req) "patientEmail")) (JStr "patient")))
    salt (JStr (Issue.prescriptionId req)).

(** [nationalId ? hashIdentifier(nationalId, salt, prescriptionId) : null] *)
Definition doctorIdHash (req : Issue.request) : jsval :=
  if truthy (Issue.nationalId req)
  then JStr (hashIdentifier (to_string (Issue.nationalId req)) salt
               (JStr (Issue.prescriptionId req)))
  else JNull.

Definition validUntil (w : World) : string :=
  toISOString (now_ms w + Issue.sixty_days).

(** The twelve fields of the QR payload, before the signature. *)
Definition unsigned (w : World) (req : Issue.request) (geotag : jsval) : props :=
  let firstMed := firstMed req in
  literal
    [ ("v", JStr "1.0");
      ("t", JStr (Issue.topicID req));
      ("h", JStr (hashedPatientId req));
      ("d", or (opt_get firstMed "code") (JStr "UNKNOWN"));
      ("q", JStr (to_string (or (opt_get firstMed "dosage") (JStr "1"))
                  +:+ to_string (or (opt_get firstMed "unit") (JStr "mg"))));
      ("i", or (opt_get firstMed "instructions")
               (JStr (to_string (or (opt_get firstMed "frequency") (JStr "1"))
                      +:+ "x/day, "
                      +:+ to_string (or (opt_get firstMed "duration") (JStr "7"))
                      +:+ " "
                      +:+ to_string (or (opt_get firstMed "durationUnit") (JStr "days")))));
      ("u", JStr (validUntil w));
      ("n", JStr (randomHex (entropy w)));
      ("g", geotag);
      ("p", doctorIdHash req);
      ("dc", JNum 0);
      ("md", or (opt_get (Issue.formData req) "maxDispenses") (JNum 1)) ].

(** [if (nationalId) qrPayload.s = `hex:${signPayload(qrPayload, nationalId)}`];
    [None] is the TypeError of the geotag. *)
Definition qrPayload (w : World) (req : Issue.request) : option props :=
  g ← geotag (Issue.geo req);
  let qr := unsigned w req g in
  Some (if truthy (Issue.nationalId req)
        then set_prop "s"
               (JStr ("hex:" +:+ signPayload qr (to_string (Issue.nationalId req)))) qr
        else qr).

(** A field that is a string or absent, as the route's schema has the
    medication's [unit]. *)
Definition textual (v : jsval) : bool :=
  match v with JUndef | JStr _ => true | _ => false end.

End Payload.
End Qr.

(** ** POST /api/payments: the eligibility check and the whole route *)

Module PaymentRoute.
Section Handler.
Context `{External}.
Variable remote : Remote.

Definition fully_dispensed (currentStatus dispenseCount maxDispenses : jsval) : Response :=
  status_json 409
    [ ("success", JBool false);
      ("error", JStr ("Prescription fully dispensed (" +:+ to_string dispenseCount
                      +:+ "/" +:+ to_string maxDispenses +:+ ")"));
      ("status", currentStatus);
      ("dispenseCount", dispenseCount);
      ("maxDispenses", maxDispenses) ].

Definition invalid_status (currentStatus : jsval) : Response :=
  status_json 409
    [ ("success", JBool false);
      ("error", JStr ("Prescription status: " +:+ to_string currentStatus));
      ("status", currentStatus) ].

(** The check before the timer is set; [Some r] is the reply that ends the
    request there. *)
Definition eligibility (req : Payments.request) : M (option Response) :=
  if truthy (Payments.prescriptionId req) then
    topic ← read (fun s => get_str_at (prescriptionToTopic s) (Payments.prescriptionId req));
    match topic with
    | JStr topicID =>
        if truthy topic then
          currentStatus ← await (getTopicStatusFromHedera remote topicID);
          prescriptionData ← read (fun s => get_val (inMemoryStore s) topicID);
          let dispenseCount :=
            or (opt_get (opt_get prescriptionData "payload") "dispenseCount") (JNum 0) in
          let maxDispenses :=
            or (opt_get (opt_get prescriptionData "payload") "maxDispenses") (JNum 1) in
          if ge dispenseCount maxDispenses
          then mret (Some (fully_dispensed currentStatus dispenseCount maxDispenses))
          else if negb (is_str currentStatus "issued")
                  && negb (is_str currentStatus "dispensed")
                  && negb (is_str currentStatus "paid")
          then mret (Some (invalid_status currentStatus))
          else mret None
        else mret None
    | _ => mret None
    end
  else mret None.

(** The route: the check inside the handler's [try], then the timer
    callback that emits the event and answers. *)
Definition handler (w : World) (req : Payments.request) : M Response :=
  verdict ← try_catch (eligibility req) (fun e => mret (Some (server_error e)));
  match verdict return M Response with
  | Some reply => mret reply
  | None => Payments.complete w req
  end.

End Handler.
End PaymentRoute.

(** ** POST /api/payments/batch: the eligibility checks

    The route up to its timer.  The deferred emission calls the signature
    and compressor helpers in forms whose behaviour their callers in this
    file do not show, and is left out. *)

Module Batch.

Record request := {
  prescriptionIds : jsval;
  method : jsval;
  totalAmountMAD : jsval;
  pharmacistNationalId : jsval
}.

Section Handler.
Context `{External}.
Variable remote : Remote.

Definition required : Response :=
  status_json 400
    [ ("success", JBool false); ("error", JStr "prescriptionIds array is required") ].

Definition eligible (prescriptionId : jsval) : props :=
  literal [ ("prescriptionId", prescriptionId); ("eligible", JBool true) ].

Definition not_eligible (prescriptionId : jsval) (reason : string) : props :=
  literal [ ("prescriptionId", prescriptionId); ("eligible", JBool false);
            ("reason", JStr reason) ].

(** One round of the validation loop. *)
Definition check (prescriptionId : jsval) : M props :=
  topic ← read (fun s => get_str_at (prescriptionToTopic s) prescriptionId);
  match topic with
  | JStr topicID =>
      if truthy topic then
        currentStatus ← await (getTopicStatusFromHedera remote topicID);
        prescriptionData ← read (fun s => get_val (inMemoryStore s) topicID);
        let dispenseCount :=
          or (opt_get (opt_get prescriptionData "payload") "dispenseCount") (JNum 0) in
        let maxDispenses :=
          or (opt_get (opt_get prescriptionData "payload") "maxDispenses") (JNum 1) in
        if ge dispenseCount maxDispenses
        then mret (not_eligible prescriptionId "Fully dispensed")
        else if negb (is_str currentStatus "issued")
                && negb (is_str currentStatus "dispensed")
        then mret (not_eligible prescriptionId
                     ("Invalid status: " +:+ to_string currentStatus))
        else mret (eligible prescriptionId)
      else mret (not_eligible prescriptionId "Not found")
  | _ => mret (not_eligible prescriptionId "Not found")
  end.

Fixpoint eligibilityChecks (ids : list jsval) : M (list props) :=
  match ids with
  | [] => mret []
  | prescriptionId :: ids' =>
      c ← check prescriptionId;
      cs ← eligibilityChecks ids';
      mret (c :: cs)
  end.

(** [eligibilityChecks.filter(check => !check.eligible)] *)
Definition ineligible (checks : list props) : list props :=
  List.filter (fun c => negb (truthy (lookup_prop "eligible" c))) checks.

Definition refused (ineligible : list props) : Response :=
  status_json 409
    [ ("success", JBool false);
      ("error", JStr (show_Z (Z.of_nat (length ineligible))
                      +:+ " prescription(s) are not eligible for payment"));
      ("ineligible", JArr (map JObj ineligible)) ].

(** The part of the handler's [try] before the timer; [None]: the timer is
    set. *)
Definition validation (req : request) : M (option Response) :=
  match prescriptionIds req with
  | JArr (prescriptionId :: ids') =>
      checks ← eligibilityChecks (prescriptionId :: ids');
      match ineligible checks with
      | [] => mret None
      | bad => mret (Some (refused bad))
      end
  | _ => mret (Some required)
  end.

Definition screen (req : request) : M (option Response) :=
  try_catch (validation req) (fun e => mret (Some (server_error e))).

End Handler.
End Batch.

(** ** POST /api/cancel and POST /api/amend

    The handlers behind the doctor's authentication.  The schema makes
    [prescriptionId] (and [contentHash]) a string; [reason] may be absent. *)

Module Cancel.

Record request := { prescriptionId : string; reason : jsval }.

Section Handler.
Context `{External}.
Variable remote : Remote.

Definition on_channel (w : World) (req : request) (topicID : jsval) : props :=
  literal
    [ ("type", JStr "cancelled");
      ("topicID", topicID);
      ("prescriptionId", JStr (prescriptionId req));
      ("timestamp", JNum (now_ms w));
      ("refs", JObj (literal [("reason", reason req)])) ].

Definition on_audit (w : World) (req : request) : props :=
  literal
    [ ("type", JStr "cancelled");
      ("prescriptionId", JStr (prescriptionId req));
      ("timestamp", JNum (now_ms w));
      ("refs", JObj (literal [("reason", reason req)])) ].

Definition audit (message : props) : M unit :=
  match submitAuditMessage remote message with
  | Some e => throw e
  | None => mret ()
  end.

Definition handler (w : World) (req : request) : M Response :=
  try_catch
    (topicID ← read (fun s => get_str (prescriptionToTopic s) (prescriptionId req));
     (if truthy topicID
      then submitPrescriptionMessage w [JObj (on_channel w req topicID)]
             (on_channel w req topicID)
      else audit (on_audit w req));;
     mret (json [("success", JBool true)]))
    (fun e => mret (server_error e)).

End Handler.
End Cancel.

Module Amend.

Record request := { prescriptionId : string; contentHash : string; reason : jsval }.

Section Handler.
Context `{External}.
Variable remote : Remote.

Definition on_channel (w : World) (req : request) (topicID : jsval) : props :=
  literal
    [ ("type", JStr "amended");
      ("topicID", topicID);
      ("prescriptionId", JStr (prescriptionId req));
      ("timestamp", JNum (now_ms w));
      ("hashes", JObj (literal [("contentHash", JStr (contentHash req))]));
      ("refs", JObj (literal [("reason", reason req)])) ].

Definition on_audit (w : World) (req : request) : props :=
  literal
    [ ("type", JStr "amended");
      ("prescriptionId", JStr (prescriptionId req));
      ("timestamp", JNum (now_ms w));
      ("hashes", JObj (literal [("contentHash", JStr (contentHash req))]));
      ("refs", JObj (literal [("reason", reason req)])) ].

Definition handler (w : World) (req : request) : M Response :=
  try_catch
    (topicID ← read (fun s => get_str (prescriptionToTopic s) (prescriptionId req));
     (if truthy topicID
      then submitPrescriptionMessage w [JObj (on_channel w req topicID)]
             (on_channel w req topicID)
      else Cancel.audit remote (on_audit w req));;
     mret (json [("success", JBool true)]))
    (fun e => mret (server_error e)).

End Handler.
End Amend.

(** ** GET /api/prescriptions/:id *)

Module Lookup.
Section Handler.
Variable remote : Remote.

Definition not_found : Response :=
  status_json 404
    [ ("success", JBool false); ("message", JStr "Prescription not found") ].

Definition found (prescription : jsval) : Response :=
  json [ ("success", JBool true); ("prescription", prescription) ].

(** The index first, the legacy storage when the index has nothing; an
    exception of the storage counts as nothing found. *)
Definition handler (id : string) : M Response :=
  try_catch
    (indexed ← read (fun s => get_val (prescriptionIndex s) id);
     let prescription :=
       if truthy indexed then indexed
       else match getPrescription remote id with
            | Ok p => p
            | Throw _ => JNull
            end in
     if truthy prescription then mret (found prescription) else mret not_found)
    (fun e => mret (server_error e)).

End Handler.
End Lookup.

(** ** POST /api/payments: two requests that overlap

    The deferred part of a payment gives up control once, at
    [await submitPrescriptionMessage(topicID, compressedMsg)]
    (index.js:480): what comes before runs without interruption, and so
    does what comes after.  Another request can run in between. *)

Module Overlap.
Section Payments.
Context `{External}.

(** What a payment has in hand when it reaches the [await]. *)
Record pending := { on_topic : string; built : props; signed : props }.

(** [Payments.emit_paid] up to the [await]: the head is read, the event is
    built, signed and compressed, and the submission is started.  [None]:
    there is nothing to emit. *)
Definition before_await (w : World) (req : Payments.request) : M (option pending) :=
  topic ← read (fun s => get_str_at (prescriptionToTopic s) (Payments.prescriptionId req));
  match topic with
  | JStr topicID =>
      if truthy topic && truthy (Payments.pharmacistNationalId req) then
        prevEventHash ← read (fun s => or (get_str (lastEventHashPerTopic s) topicID) JUndef);
        let base := Payments.base w req topic prevEventHash in
        msg ← sign_event w base (to_string (Payments.pharmacistNationalId req));
        compressedMsg ← compress w msg;
        update (with_hcsSubmitted
                  (fun l => l ++ [{| sub_args := [topic; JObj compressedMsg];
                                     sub_event := msg;
                                     sub_accepted := negb (fails w CSubmitMessage) |}]));;
        mret (Some {| on_topic := topicID; built := base; signed := msg |})
      else mret None
  | _ => mret None
  end.

(** ... and from the moment the submission settles: a refusal is an
    exception; otherwise the head, the last type, the status and the admin
    log are written. *)
Definition after_await (w : World) (req : Payments.request) (p : option pending)
    : M unit :=
  match p with
  | Some p =>
      calling w CSubmitMessage "HCS submission failed";;
      attempt (Payments.record_paid w req (on_topic p) (built p) (signed p))
  | None => mret ()
  end.

(** The two parts inside the [try { } catch (_) { }] that surrounds them:
    an exception before the [await] leaves nothing to do after it. *)
Definition begin (w : World) (req : Payments.request) : M (option pending) :=
  try_catch (before_await w req) (fun _ => mret None).

Definition finish (w : World) (req : Payments.request) (p : option pending) : M unit :=
  attempt (after_await w req p).

(** Two payments, the second of which starts while the first waits for the
    ledger; the first settles first. *)
Definition overlapped (w1 : World) (req1 : Payments.request)
    (w2 : World) (req2 : Payments.request) : M unit :=
  p1 ← begin w1 req1;
  p2 ← begin w2 req2;
  finish w1 req1 p1;;
  finish w2 req2 p2.

(** The same two payments, one after the other. *)
Definition in_turn (w1 : World) (req1 : Payments.request)
    (w2 : World) (req2 : Payments.request) : M unit :=
  attempt (Payments.emit_paid w1 req1);;
  attempt (Payments.emit_paid w2 req2).

End Payments.
End Overlap.

(** ** Further vocabulary *)

(** Signing answers whenever the issue route asks for it. *)
Definition signing_answers (w : World) (req : Issue.request) : Prop :=
  truthy (Issue.nationalId req) = true ->
  fails w CEnsureKeyPair = false /\ fails w CSignPayload = false.

(** ** Further sample data *)

Module Cases.
Import Sample.

(** A mirror node that reports every channel as [status], an empty legacy
    storage, an audit topic that takes every message. *)
Definition mirror (status : string) : Remote :=
  {| getTopicStatusFromHedera := fun _ => Ok (JStr status);
     getPrescription := fun _ => Ok JNull;
     submitAuditMessage := fun _ => None |}.

(** The store after [issue_request] was issued at time 1. *)
Definition issued_store : Store := (Issue.issue (quiet 1) issue_request empty_store).2.

(** ... and after its two dispenses. *)
Definition exhausted_store : Store :=
  (serve [ (quiet 2, dispense_request); (quiet 3, dispense_request) ] issued_store).2.

Definition qr_sample : props :=
  default [] (Qr.qrPayload (quiet 1) issue_request).

(** A verify request that carries [payload] and names the doctor. *)
Definition scan (payload : props) : Verify.request :=
  {| Verify.payload := JObj payload;
     Verify.topicID := JUndef;
     Verify.doctorNationalId := JStr "DOC1";
     Verify.pharmacistNationalId := JUndef;
     Verify.pharmacyId := JUndef;
     Verify.geo := JUndef |}.

(** A verify request that names only [topicID]. *)
Definition by_topic (topicID : string) : Verify.request :=
  {| Verify.payload := JUndef;
     Verify.topicID := JStr topicID;
     Verify.doctorNationalId := JUndef;
     Verify.pharmacistNationalId := JUndef;
     Verify.pharmacyId := JUndef;
     Verify.geo := JUndef |}.

Definition payment_request (prescriptionId : string) : Payments.request :=
  {| Payments.prescriptionId := JStr prescriptionId;
     Payments.pharmacistNationalId := JStr "PH1";
     Payments.amountMAD := JNum 120;
     Payments.method := JStr "card" |}.

Definition batch_request (ids : list string) : Batch.request :=
  {| Batch.prescriptionIds := JArr (map JStr ids);
     Batch.method := JStr "card";
     Batch.totalAmountMAD := JNum 120;
     Batch.pharmacistNationalId := JStr "PH1" |}.

Definition cancel_request : Cancel.request :=
  {| Cancel.prescriptionId := "RX-1"; Cancel.reason := JStr "entered twice" |}.

Definition amend_request : Amend.request :=
  {| Amend.prescriptionId := "RX-1"; Amend.contentHash := "sha256:0a1b";
     Amend.reason := JUndef |}.

(** A copy of the issued event as it stood before any dispense. *)
Definition early_copy : props :=
  [ ("eventType", JStr "issued"); ("topicID", JStr "0.0.1001");
    ("dispenseCount", JNum 0); ("maxDispenses", JNum 2) ].

(** A world in which only the collaborators of [failing] fail. *)
Definition troubled (now : Z) (failing : collaborator -> bool) : World :=
  {| now_ms := now; entropy := now; fails := failing |}.

Definition ledger_down (c : collaborator) : bool :=
  match c with CSubmitMessage => true | _ => false end.

Definition signer_down (c : collaborator) : bool :=
  match c with CSignPayload => true | _ => false end.

(** Two instants of one day, half an hour apart, with the same
    milliseconds. *)
Definition morning : Ids.LocalDate :=
  {| Ids.getFullYear := 2025; Ids.getMonth := 9; Ids.getDate := 27;
     Ids.getHours := 9; Ids.getMinutes := 15; Ids.getSeconds := 30;
     Ids.getMilliseconds := 7 |}.

Definition later : Ids.LocalDate :=
  {| Ids.getFullYear := 2025; Ids.getMonth := 9; Ids.getDate := 27;
     Ids.getHours := 9; Ids.getMinutes := 45; Ids.getSeconds := 12;
     Ids.getMilliseconds := 7 |}.

(** The sample collaborators with a clock that reads back the instants it
    writes. *)
Definition read_stamp (v : jsval) : option Z :=
  match v with
  | JStr (String "T" s) => Z.of_int <$> NilZero.int_of_string s
  | _ => None
  end.

Definition clock : External :=
  {| sha256hex := sha256hex; bufferFromHex := bufferFromHex;
     randomHex := randomHex; ensureKeyPair := ensureKeyPair;
     signPayload := signPayload; verifySignature := verifySignature;
     hashIdentifier := hashIdentifier; CNDP_SALT := CNDP_SALT;
     parseDate := read_stamp; toISOString := toISOString;
     fraudCheck := fraudCheck; LOCK_TIMEOUT_MS := LOCK_TIMEOUT_MS;
     is_long := is_long; token_of := token_of; token_index := token_index;
     token_index_of := token_index_of; token_nonempty := token_nonempty |}.

(** The QR payload of [issue_request] and the store after its two
    dispenses, under that clock. *)
Definition qr_dated : props :=
  default [] (@Qr.qrPayload clock (quiet 1) issue_request).

Definition exhausted_dated : Store :=
  (@serve clock [ (quiet 2, dispense_request); (quiet 3, dispense_request) ]
     (@Issue.issue clock (quiet 1) issue_request empty_store).2).2.

(** A sheet of two rows: the first names its product under an accented,
    upper-case heading, the second has only blanks in its name column. *)
Definition sheet : list props :=
  [ [ ("D" +:+ String (ascii_of_nat 201) "SIGNATION ", JStr "  Doliprane 500 ");
      ("Code CIP", JNum 1234) ];
    [ ("Nom", JStr "   "); ("Code", JStr "77") ] ].

Definition named_row : props :=
  Catalog.deriveCatalogRow
    [ ("D" +:+ String (ascii_of_nat 201) "SIGNATION ", JStr "  Doliprane 500 ");
      ("Code CIP", JNum 1234) ].

End Cases.
(** ** Lemmas on handler programs *)

Lemma wp_ret {A} (a : A) s Q : Q (Ok a) s -> wp (mret a) s Q.
Proof. done. Qed.

Lemma wp_bind {A B} (m : M A) (f : A -> M B) s Q :
  wp m s (after_bind f Q) -> wp (m ≫= f) s Q.
Proof.
  unfold wp, after_bind, mbind, M_bind.
  destruct (m s) as [[a|e] s']; done.
Qed.

Lemma wp_read {A} (f : Store -> A) s Q : Q (Ok (f s)) s -> wp (read f) s Q.
Proof. done. Qed.

Lemma wp_update f s Q : Q (Ok ()) (f s) -> wp (update f) s Q.
Proof. done. Qed.

Lemma wp_throw {A} e s (Q : outcome A -> Store -> Prop) :
  Q (Throw e) s -> wp (throw e) s Q.
Proof. done. Qed.

Lemma wp_try_catch {A} (m : M A) h s Q :
  wp m s (after_try h Q) -> wp (try_catch m h) s Q.
Proof.
  unfold wp, after_try, try_catch.
  destruct (m s) as [[a|e] s']; done.
Qed.

Lemma wp_calling w c what s Q :
  (fails w c = false -> Q (Ok ()) s) ->
  (fails w c = true -> Q (Throw what) s) ->
  wp (calling w c what) s Q.
Proof.
  unfold wp, calling. intros H1 H2.
  destruct (fails w c); [by apply H2 | by apply H1].
Qed.

Lemma wp_lift {A} (o : option A) s Q :
  (forall a, o = Some a -> Q (Ok a) s) ->
  (o = None -> Q (Throw "TypeError") s) ->
  wp (lift o) s Q.
Proof.
  unfold wp, lift. intros H1 H2.
  destruct o as [a|]; [by apply (H1 a) | by apply H2].
Qed.

Ltac wp_simpl := cbv beta iota delta [after_bind after_try].

Ltac absurd_fault :=
  match goal with
  | E1 : fails ?w ?c = true, E2 : fails ?w ?c = false |- _ =>
      rewrite E1 in E2; discriminate E2
  end.

Ltac wp_step :=
  wp_simpl;
  lazymatch goal with
  | |- wp (mret _) _ _ => apply wp_ret
  | |- wp (_ ≫= _) _ _ => apply wp_bind
  | |- wp (read _) _ _ => apply wp_read
  | |- wp (update _) _ _ => apply wp_update
  | |- wp (throw _) _ _ => apply wp_throw
  | |- wp type_error _ _ => apply wp_throw
  | |- wp (try_catch _ _) _ _ => apply wp_try_catch
  | |- wp (attempt _) _ _ => apply wp_try_catch
  | |- wp (calling _ _ _) _ _ =>
      apply wp_calling; intros ?; [ | try absurd_fault ]
  | |- wp (lift _) _ _ => apply wp_lift; [intros ? ? | intros ?]
  | |- wp (let '(_, _) := ?p in _) _ _ => destruct p
  | |- wp (if ?b then _ else _) _ _ => destruct b eqn:?
  | |- wp (sign_event _ _ _) _ _ => unfold sign_event
  | |- wp (compress _ _) _ _ => unfold compress
  | |- wp (queueMessage _ _ _ _) _ _ => unfold queueMessage
  | |- wp (submitPrescriptionMessage _ _ _) _ _ => unfold submitPrescriptionMessage
  | |- wp (setTopicStatus _ _ _) _ _ => unfold setTopicStatus
  | |- wp (logHCSEvent _ _) _ _ => unfold logHCSEvent
  | |- wp (releaseDispenseLock _) _ _ => unfold releaseDispenseLock
  end.

(** Projections of a store after a chain of updates. *)
Ltac store_simpl :=
  cbn [inMemoryStore lastEventHashPerTopic lastEventTypePerTopic
       prescriptionIndex prescriptionToTopic topicStatus sensitiveData
       usedNonces hashLookup dispenseLocks messageQueue hcsSubmitted
       hcsEventLog
       with_inMemoryStore with_lastEventHash with_lastEventType
       with_prescriptionIndex with_prescriptionToTopic with_topicStatus
       with_sensitiveData with_usedNonces with_hashLookup with_dispenseLocks
       with_messageQueue with_hcsSubmitted with_hcsEventLog] in *.

(** ** Property lists *)

Lemma lookup_set_prop_eq k v o : lookup_prop k (set_prop k v o) = v.
Proof.
  induction o as [|[k' v'] o IH]; simpl.
  - by rewrite String.eqb_refl.
  - destruct (String.eqb k k') eqn:E; simpl; rewrite ?String.eqb_refl, ?E; done.
Qed.

Lemma lookup_set_prop_ne k k' v o :
  k <> k' -> lookup_prop k (set_prop k' v o) = lookup_prop k o.
Proof.
  intros Hne. induction o as [|[k0 v0] o IH]; simpl.
  - destruct (String.eqb_spec k k'); done.
  - destruct (String.eqb_spec k' k0) as [->|]; simpl.
    + destruct (String.eqb_spec k k0); done.
    + destruct (String.eqb_spec k k0); done.
Qed.

Ltac props_simpl :=
  repeat first [ rewrite lookup_set_prop_eq
               | rewrite lookup_set_prop_ne by discriminate ].

(** ** The dispense lock *)

Lemma with_dispenseLocks_same (st : Store) :
  with_dispenseLocks (fun _ => dispenseLocks st) st = st.
Proof. by destruct st. Qed.

Section DispenseFacts.
Context `{External}.
Import Dispense.

(** A stored count that is a number sits in an object under an object. *)
Lemma stored_count_shape st t k n :
  opt_get (opt_get (get_val (inMemoryStore st) t) "payload") k = JNum n ->
  exists o p, get_val (inMemoryStore st) t = JObj o /\
              lookup_prop "payload" o = JObj p /\ lookup_prop k p = JNum n.
Proof.
  intros Hk.
  destruct (get_val (inMemoryStore st) t) as [| | | | | |?|o] eqn:Ho; try discriminate.
  simpl in Hk.
  destruct (lookup_prop "payload" o) as [| | | | | |?|p] eqn:Hp; try discriminate.
  by exists o, p.
Qed.

(** Two integers compare as integers. *)
Lemma ge_num x y : ge (JNum x) (JNum y) = (y <=? x)%Z.
Proof.
  unfold ge, to_number, number_le. cbn [stringlike andb].
  change (Z.min 0 0) with 0%Z. change (2 ^ (0 - 0))%Z with 1%Z.
  by rewrite !Z.mul_1_r.
Qed.

Lemma ge_num_false c N : (c < N)%Z -> (0 <= c)%Z ->
  ge (or (JNum c) (JNum 0)) (or (JNum N) (JNum 1)) = false.
Proof.
  intros. unfold or; cbn [truthy].
  destruct (c =? 0)%Z eqn:E1, (N =? 0)%Z eqn:E2; cbn [negb]; rewrite ge_num; lia.
Qed.

Lemma ge_num_true N : (1 <= N)%Z ->
  ge (or (JNum N) (JNum 0)) (or (JNum N) (JNum 1)) = true.
Proof.
  intros. unfold or; cbn [truthy].
  destruct (N =? 0)%Z eqn:E1; cbn [negb]; rewrite ge_num; lia.
Qed.

Lemma or_num_pos N d : (1 <= N)%Z -> or (JNum N) d = JNum N.
Proof. intros. unfold or; cbn. destruct (N =? 0)%Z eqn:E; [lia | done]. Qed.

Lemma or_count c : (0 <= c)%Z -> or (JNum c) (JNum 0) = JNum c.
Proof.
  intros. unfold or; cbn. destruct (c =? 0)%Z eqn:E; [|done].
  f_equal. lia.
Qed.

Lemma add_one c : add (JNum c) (JNum 1) = JNum (c + 1).
Proof. done. Qed.

(** A granted dispense: the count goes up by one, the event is submitted,
    the lock is given back. *)
Lemma handler_grants w req st c N :
  dispenseCount_of st (topicID req) = JNum c ->
  maxDispenses_of st (topicID req) = JNum N ->
  (0 <= c < N)%Z ->
  undisturbed w ->
  lock_free w st (topicID req) (pharmacistNationalId req) ->
  wp (handler w req) st (fun o st' =>
    o = Ok dispensed_ok /\
    dispenseCount_of st' (topicID req) = JNum (c + 1) /\
    maxDispenses_of st' (topicID req) = JNum N /\
    dispenseLocks st' !! topicID req = None).
Proof.
  intros Hc HN Hlt (F1 & F2 & F3 & F4 & F5) Hlock.
  destruct (stored_count_shape _ _ _ _ Hc) as (o & p & Ho & Hp & Hpc).
  destruct (stored_count_shape _ _ _ _ HN) as (o' & p' & Ho' & Hp' & HpN).
  rewrite Ho in Ho'. injection Ho' as <-. rewrite Hp in Hp'. injection Hp' as <-.
  unfold handler. wp_step.
  unfold wp at 1, acquireDispenseLock, Lock.acquire. rewrite Hlock.
  cbn [fst snd]. wp_simpl. cbn [negb].
  wp_step. unfold locked_body. wp_step. wp_step. wp_simpl.
  store_simpl. rewrite Ho. cbn [opt_get]. rewrite Hp. cbn [opt_get].
  rewrite Hpc, HpN, ge_num_false by lia.
  rewrite (or_count c), (or_num_pos N), add_one by lia.
  repeat wp_step.
  all: unfold record_dispense; cbn [truthy get assign opt_get]; rewrite Hp;
    cbn [assign lift]; repeat wp_step.
  all: wp_simpl; store_simpl.
  all: repeat match goal with
       | E : assign (JObj _) _ _ = _ |- _ => cbn [assign] in E; simplify_eq
       | E : assign ?v _ _ = None, T : truthy ?v = true |- _ =>
           destruct v; discriminate
       end.
  all: unfold dispenseCount_of, maxDispenses_of, get_val, Lock.release; store_simpl.
  all: rewrite ?lookup_insert_eq, ?lookup_delete_eq; cbn [default from_option id opt_get].
  all: props_simpl; cbn [opt_get]; props_simpl.
  all: by rewrite ?HpN.
Qed.


(** A refused dispense: nothing changes but the lock, taken and given back. *)
Lemma handler_refuses w req st N :
  dispenseCount_of st (topicID req) = JNum N ->
  maxDispenses_of st (topicID req) = JNum N ->
  (1 <= N)%Z ->
  lock_free w st (topicID req) (pharmacistNationalId req) ->
  wp (handler w req) st (fun o st' =>
    o = Ok (fully_dispensed (JNum N) (JNum N)) /\
    inMemoryStore st' = inMemoryStore st /\
    hcsSubmitted st' = hcsSubmitted st /\
    dispenseLocks st' !! topicID req = None).
Proof.
  intros Hc HN Hpos Hlock.
  unfold handler. wp_step.
  unfold wp at 1, acquireDispenseLock, Lock.acquire. rewrite Hlock.
  cbn [fst snd]. wp_simpl. cbn [negb].
  wp_step. unfold locked_body. wp_step. wp_step. wp_simpl.
  unfold dispenseCount_of, maxDispenses_of in Hc, HN.
  store_simpl. rewrite Hc, HN, ge_num_true by lia.
  rewrite !(or_num_pos N) by lia.
  repeat wp_step. wp_simpl. store_simpl.
  unfold Lock.release. by rewrite lookup_delete_eq.
Qed.

End DispenseFacts.


Section DispenseClaims.
Context `{External}.
Import Dispense.

Lemma lock_free_unlocked w st t ownerId :
  dispenseLocks st !! t = None -> lock_free w st t ownerId.
Proof. unfold lock_free. by intros ->. Qed.

(** Serving requests for one channel from count [c]: request number [i] is
    granted while [c + i < N] and refused afterwards; the count stops at
    [N]. *)
Lemma serve_from (N : Z) (T : string) calls : forall st c,
  (1 <= N)%Z -> (0 <= c <= N)%Z ->
  dispenseCount_of st T = JNum c ->
  maxDispenses_of st T = JNum N ->
  dispenseLocks st !! T = None ->
  Forall (fun call => topicID call.2 = T /\ undisturbed call.1) calls ->
  dispenseCount_of (serve calls st).2 T = JNum (Z.min (c + Z.of_nat (length calls)) N) /\
  maxDispenses_of (serve calls st).2 T = JNum N /\
  dispenseLocks (serve calls st).2 !! T = None /\
  length (serve calls st).1 = length calls /\
  forall i r, (serve calls st).1 !! i = Some r ->
    r = Ok (if (c + Z.of_nat i <? N)%Z then dispensed_ok
            else fully_dispensed (JNum N) (JNum N)).
Proof.
  induction calls as [|[w req] calls IH]; intros st c HN Hc Hcount Hmax Hlock Hall.
  - simpl. rewrite Z.add_0_r, Z.min_l by lia. repeat split; try done.
  - apply Forall_cons in Hall as [[HT Hw] Hall]. simpl in HT, Hw. subst T.
    simpl. destruct (handler w req st) as [r st1] eqn:E.
    destruct (Z.eq_dec c N) as [->|Hne].
    + pose proof (handler_refuses w req st N Hcount Hmax HN
                    (lock_free_unlocked _ _ _ _ Hlock)) as Hr.
      unfold wp in Hr. rewrite E in Hr. simpl in Hr.
      destruct Hr as (-> & Hmem & _ & Hl1).
      assert (Hc1 : dispenseCount_of st1 (topicID req) = JNum N)
        by (unfold dispenseCount_of; by rewrite Hmem).
      assert (Hm1 : maxDispenses_of st1 (topicID req) = JNum N)
        by (unfold maxDispenses_of; by rewrite Hmem).
      destruct (IH st1 N HN ltac:(lia) Hc1 Hm1 Hl1 Hall) as (IH1 & IH2 & IH3 & IH4 & IH5).
      destruct (serve calls st1) as [rs st2]. simpl in *.
      rewrite IH1. repeat split; try done.
      * f_equal. lia.
      * by rewrite IH4.
      * intros [|i] r' Hi; simpl in Hi.
        -- injection Hi as <-. rewrite Z.add_0_r, Z.ltb_irrefl. done.
        -- rewrite (IH5 i r' Hi).
           by rewrite !(proj2 (Z.ltb_ge _ _)) by lia.
    + pose proof (handler_grants w req st c N Hcount Hmax ltac:(lia) Hw
                    (lock_free_unlocked _ _ _ _ Hlock)) as Hr.
      unfold wp in Hr. rewrite E in Hr. simpl in Hr.
      destruct Hr as (-> & Hc1 & Hm1 & Hl1).
      destruct (IH st1 (c + 1)%Z HN ltac:(lia) Hc1 Hm1 Hl1 Hall) as (IH1 & IH2 & IH3 & IH4 & IH5).
      destruct (serve calls st1) as [rs st2]. simpl in *.
      rewrite IH1. repeat split; try done.
      * f_equal. lia.
      * by rewrite IH4.
      * intros [|i] r' Hi; simpl in Hi.
        -- injection Hi as <-. rewrite Z.add_0_r.
           by rewrite (proj2 (Z.ltb_lt _ _)) by lia.
        -- rewrite (IH5 i r' Hi).
           replace (c + 1 + Z.of_nat i)%Z with (c + Z.of_nat (S i))%Z by lia. done.
Qed.

(** C1.  A channel is stored with [maxDispenses = N] and [dispenseCount = 0]
    and its lock is free.  Dispense requests for it are served one after the
    other, none of them cut short by a failing collaborator.  After the
    first [k] of them the stored count is [min k N]: every granted request
    adds exactly one and the count never passes [N].  Request number [i]
    (from 0) is answered [{ success: true }] when [i < N] and is refused
    with "Prescription fully dispensed (N/N)" from the (N+1)th on. *)
Theorem dispense_exactly_max (N : Z) (T : string) calls st :
  (1 <= N)%Z ->
  dispenseCount_of st T = JNum 0 ->
  maxDispenses_of st T = JNum N ->
  dispenseLocks st !! T = None ->
  Forall (fun call => topicID call.2 = T /\ undisturbed call.1) calls ->
  forall k,
    dispenseCount_of (serve (take k calls) st).2 T
      = JNum (Z.min (Z.of_nat (length (take k calls))) N) /\
    (forall i r, (serve (take k calls) st).1 !! i = Some r ->
       r = Ok (if (Z.of_nat i <? N)%Z then dispensed_ok
               else fully_dispensed (JNum N) (JNum N))) /\
    lookup_prop "message" (body (fully_dispensed (JNum N) (JNum N)))
      = JStr ("Prescription fully dispensed (" +:+ show_Z N +:+ "/" +:+ show_Z N +:+ ")").
Proof.
  intros HN Hc Hm Hl Hall k.
  assert (Hk : Forall (fun call => topicID call.2 = T /\ undisturbed call.1) (take k calls))
    by (by apply Forall_take).
  destruct (serve_from N T (take k calls) st 0 HN ltac:(lia) Hc Hm Hl Hk)
    as (H1 & _ & _ & _ & H5).
  repeat split; try done.
Qed.

(** C2.  The channel's lock is held, unexpired, by another owner: the
    handler answers 409 with error CONCURRENT_DISPENSE_ATTEMPT at once and
    leaves every store as it found it, so the stored count, the channel
    head, the last event type and the status are unchanged and nothing is
    queued or submitted. *)
Theorem dispense_conflict_when_locked w req st l :
  dispenseLocks st !! topicID req = Some l ->
  Lock.owner l <> pharmacistNationalId req ->
  Lock.expired LOCK_TIMEOUT_MS (now_ms w) l = false ->
  handler w req st = (Ok conflict, st) /\
  status conflict = 409%Z /\
  lookup_prop "error" (body conflict) = JStr "CONCURRENT_DISPENSE_ATTEMPT" /\
  lookup_prop "success" (body conflict) = JBool false.
Proof.
  intros Hl Hne Hexp. split; [|done].
  unfold handler, acquireDispenseLock, Lock.acquire, Lock.held_by_other.
  unfold mbind, M_bind. rewrite Hl, Hexp.
  destruct (String.eqb_spec (Lock.owner l) (pharmacistNationalId req)) as [|_]; [done|].
  simpl. by rewrite with_dispenseLocks_same.
Qed.

(** C10.  The handler has acquired the lock.  Whatever the stored channel
    looks like and whichever collaborators fail, it ends with a reply (200,
    400 or 500); the last thing it does to the stores on that path is
    [releaseDispenseLock(topicID)], and the channel's lock is free again. *)
Theorem dispense_lock_released w req st :
  lock_free w st (topicID req) (pharmacistNationalId req) ->
  (exists s, (handler w req st).2 = with_dispenseLocks (Lock.release (topicID req)) s) /\
  dispenseLocks (handler w req st).2 !! topicID req = None /\
  exists reply, (handler w req st).1 = Ok reply /\
    (status reply = 200 \/ status reply = 400 \/ status reply = 500)%Z.
Proof.
  intros Hlock.
  enough (wp (handler w req) st (fun o st' =>
            (exists s, st' = with_dispenseLocks (Lock.release (topicID req)) s) /\
            exists reply, o = Ok reply /\
              (status reply = 200 \/ status reply = 400 \/ status reply = 500)%Z))
    as [[s Hs] Hr].
  { split; [by exists s|]. split; [|done].
    rewrite Hs. cbn [dispenseLocks with_dispenseLocks]. apply lookup_delete_eq. }
  unfold handler. wp_step.
  unfold wp at 1, acquireDispenseLock, Lock.acquire. rewrite Hlock.
  cbn [fst snd]. wp_simpl. cbn [negb].
  wp_step. unfold locked_body.
  repeat wp_step.
  all: try (unfold record_dispense; repeat wp_step).
  all: wp_simpl; split; [eexists; reflexivity|].
  all: eexists; split; [reflexivity|]; cbn; auto.
Qed.

(** What [signPayload] was given is the event without its signature. *)
Lemma dispensed_event_fields w req chainPrev count maxd :
  let event := signed_event w (base w req chainPrev count maxd)
                 (pharmacistNationalId req) in
  lookup_prop "eventType" event = JStr "dispensed" /\
  lookup_prop "topicID" event = JStr (topicID req) /\
  lookup_prop "prevEventHash" event = chainPrev /\
  lookup_prop "dispenseCount" event = count /\
  lookup_prop "maxDispenses" event = maxd /\
  lookup_prop "signature" event
    = JStr ("hex:" +:+ signPayload (del_prop "signature" event)
                         (pharmacistNationalId req)).
Proof. cbv zeta. repeat split; reflexivity. Qed.

(** C9.  No record is stored for [topicID]; signing, the compressor and the
    queue answer and the lock is free.  The request is not refused as
    unknown: with the count defaulting to 0 and the maximum to 1 the handler
    answers [{ success: true }] and hands the ledger one signed 'dispensed'
    event for that [topicID], numbered 1 of 1.  The store still has no record
    for the channel. *)
Theorem dispense_unknown_channel w req st :
  inMemoryStore st !! topicID req = None ->
  undisturbed w ->
  lock_free w st (topicID req) (pharmacistNationalId req) ->
  let event :=
    signed_event w (base w req (chainPrev req st) (JNum 1) (JNum 1))
      (pharmacistNationalId req) in
  (handler w req st).1 = Ok dispensed_ok /\
  (exists wire,
     hcsSubmitted (handler w req st).2
     = hcsSubmitted st ++
       [{| sub_args := [JStr (topicID req); JObj wire]; sub_event := event;
           sub_accepted := negb (fails w CSubmitMessage) |}]) /\
  lookup_prop "eventType" event = JStr "dispensed" /\
  lookup_prop "topicID" event = JStr (topicID req) /\
  lookup_prop "dispenseCount" event = JNum 1 /\
  lookup_prop "maxDispenses" event = JNum 1 /\
  lookup_prop "signature" event
    = JStr ("hex:" +:+ signPayload (del_prop "signature" event)
                         (pharmacistNationalId req)) /\
  inMemoryStore (handler w req st).2 = inMemoryStore st.
Proof.
  intros Hnone (F1 & F2 & F3 & F4 & F5) Hlock event.
  destruct (dispensed_event_fields w req (chainPrev req st) (JNum 1) (JNum 1))
    as (E1 & E2 & _ & E4 & E5 & E6).
  fold event in E1, E2, E4, E5, E6.
  enough (wp (handler w req) st (fun o st' =>
            o = Ok dispensed_ok /\
            (exists wire,
               hcsSubmitted st'
               = hcsSubmitted st ++
                 [{| sub_args := [JStr (topicID req); JObj wire]; sub_event := event;
                     sub_accepted := negb (fails w CSubmitMessage) |}]) /\
            inMemoryStore st' = inMemoryStore st)) as (R1 & R2 & R3)
    by (repeat split; assumption).
  unfold handler. wp_step.
  unfold wp at 1, acquireDispenseLock, Lock.acquire. rewrite Hlock.
  cbn [fst snd]. wp_simpl. cbn [negb].
  wp_step. unfold locked_body. wp_step. wp_step. wp_simpl.
  assert (Hentry : get_val (inMemoryStore st) (topicID req) = JUndef)
    by (unfold get_val; by rewrite Hnone).
  store_simpl. rewrite !Hentry.
  cbn [opt_get].
  change (or JUndef (JNum 0)) with (JNum 0).
  change (or JUndef (JNum 1)) with (JNum 1).
  change (ge (JNum 0) (JNum 1)) with false.
  change (add (JNum 0) (JNum 1)) with (JNum 1).
  cbv iota.
  repeat wp_step.
  all: unfold record_dispense; cbn [truthy]; repeat wp_step.
  all: wp_simpl; store_simpl.
  all: unfold chainPrev in event; store_simpl.
  all: repeat match goal with
       | E : assign ?v _ _ = None, T : truthy ?v = true |- _ =>
           destruct v; discriminate
       end.
  all: split; [reflexivity|split; [|reflexivity]].
  all: match goal with
       | E : fails _ CSubmitMessage = _ |- _ => rewrite E
       end.
  all: by eexists.
Qed.



End DispenseClaims.

Section IssueFacts.
Context `{External}.

Lemma issued_counts w req :
  lookup_prop "dispenseCount" (Issue.completePayload w req) = JNum 0 /\
  lookup_prop "maxDispenses" (Issue.completePayload w req)
  = or (opt_get (Issue.formData req) "maxDispenses") (JNum 1).
Proof.
  unfold Issue.completePayload. destruct (truthy (Issue.nationalId req)); by split.
Qed.

(** What [/api/issue-prescription] stores for the new channel: a count of 0
    and the form's [maxDispenses], 1 when the form has none.  The stored
    maximum is never 0. *)
Lemma signed_stores_counts w req st :
  (truthy (Issue.nationalId req) = true ->
   fails w CEnsureKeyPair = false /\ fails w CSignPayload = false) ->
  dispenseCount_of (Issue.sign_and_index w req st).2 (Issue.topicID req) = JNum 0 /\
  maxDispenses_of (Issue.sign_and_index w req st).2 (Issue.topicID req)
  = or (opt_get (Issue.formData req) "maxDispenses") (JNum 1) /\
  truthy (maxDispenses_of (Issue.sign_and_index w req st).2 (Issue.topicID req)) = true.
Proof.
  intros Hsign.
  destruct (issued_counts w req) as [Ec Em].
  enough (wp (Issue.sign_and_index w req) st (fun _ st' =>
            get_val (inMemoryStore st') (Issue.topicID req)
            = JObj (literal [ ("prescription", JObj (Issue.full w req));
                              ("payload", JObj (Issue.completePayload w req)) ])))
    as Hst.
  { unfold wp in Hst. unfold dispenseCount_of, maxDispenses_of. rewrite Hst.
    cbn [literal spread fold_left set_prop opt_get lookup_prop String.eqb Ascii.eqb
         Bool.eqb fst snd].
    rewrite Ec, Em. repeat split. unfold or.
    destruct (truthy (opt_get (Issue.formData req) "maxDispenses")) eqn:E; [by rewrite E|done]. }
  unfold Issue.sign_and_index. wp_step. wp_step.
  - destruct (Hsign eq_refl) as [F1 F2].
    repeat wp_step.
    all: try (unfold Issue.index_issued; repeat wp_step).
    all: wp_simpl; store_simpl; unfold get_val; by rewrite lookup_insert_eq.
  - repeat wp_step.
    all: try (unfold Issue.index_issued; repeat wp_step).
    all: wp_simpl; store_simpl; unfold get_val; by rewrite lookup_insert_eq.
Qed.

(** With a position that has both coordinates, or none, the route gets past
    the geotag. *)
Lemma issue_located w req st g :
  Issue.geotag (Issue.geo req) = Some g ->
  Issue.issue w req st = Issue.sign_and_index w req st.
Proof. unfold Issue.issue. intros ->. reflexivity. Qed.

(** Otherwise it ends there, and nothing is stored. *)
Lemma issue_unlocated w req st :
  Issue.geotag (Issue.geo req) = None ->
  Issue.issue w req st = (Throw "TypeError", st).
Proof. unfold Issue.issue. intros ->. reflexivity. Qed.

Lemma issue_stores_counts w req st g :
  Issue.geotag (Issue.geo req) = Some g ->
  (truthy (Issue.nationalId req) = true ->
   fails w CEnsureKeyPair = false /\ fails w CSignPayload = false) ->
  dispenseCount_of (Issue.issue w req st).2 (Issue.topicID req) = JNum 0 /\
  maxDispenses_of (Issue.issue w req st).2 (Issue.topicID req)
  = or (opt_get (Issue.formData req) "maxDispenses") (JNum 1) /\
  truthy (maxDispenses_of (Issue.issue w req st).2 (Issue.topicID req)) = true.
Proof.
  intros Hgeo Hsign. rewrite (issue_located w req st g Hgeo).
  by apply signed_stores_counts.
Qed.

End IssueFacts.

Section VerifyFacts.
Context `{External}.
Import Verify.

Lemma ok_is_unbound : existsb (String.eqb "ok") scope = false.
Proof. vm_compute. reflexivity. Qed.

(** The verified block stops at the read of [ok], before anything is
    written. *)
Lemma verified_block_throws w req payload fraudAlert env st :
  verified_block w req payload fraudAlert env st
  = (Throw "ReferenceError: ok is not defined", st).
Proof.
  unfold verified_block, identifier. rewrite ok_is_unbound.
  reflexivity.
Qed.

Lemma verified_block_skipped w req payload fraudAlert env st :
  attempt (verified_block w req payload fraudAlert env) st = (Ok (), st).
Proof.
  unfold attempt, try_catch. by rewrite verified_block_throws.
Qed.

Lemma wp_verified_block w req payload fraudAlert env st Q :
  Q (Ok ()) st -> wp (attempt (verified_block w req payload fraudAlert env)) st Q.
Proof. unfold wp. by rewrite verified_block_skipped. Qed.

Lemma wp_eq {A} (m : M A) s (a : outcome A) s' :
  wp m s (fun o t => o = a /\ t = s') -> m s = (a, s').
Proof. unfold wp. destruct (m s). simpl. by intros [-> ->]. Qed.

Lemma wp_conclude w req payload st Q :
  (forall o st', st' = st \/ (exists e, st' = with_hcsEventLog (fun l => l ++ [e]) st) ->
     (o = Ok (accepted req payload (fraudCheck payload (geo req))) \/ exists e, o = Throw e) ->
     (fails w CHashIdentifier = false -> fails w CLogHCSEvent = false ->
        o = Ok (accepted req payload (fraudCheck payload (geo req)))) ->
     Q o st') ->
  wp (conclude w req payload) st Q.
Proof.
  intros HQ. unfold conclude. wp_step. apply wp_verified_block. wp_simpl.
  repeat wp_step.
  all: wp_simpl; apply HQ; eauto; intros; try absurd_fault; done.
Qed.

Lemma wp_guarded w req payload st Q :
  (truthy (opt_get payload "nonce") = true ->
   existsb (same_value_zero (opt_get payload "nonce")) (usedNonces st) = true ->
   Q (Ok duplicate_nonce) st) ->
  (truthy (opt_get payload "nonce") = true ->
   existsb (same_value_zero (opt_get payload "nonce")) (usedNonces st) = false ->
   wp (conclude w req payload)
      (with_usedNonces (fun l => l ++ [opt_get payload "nonce"]) st) Q) ->
  (truthy (opt_get payload "nonce") = false -> wp (conclude w req payload) st Q) ->
  wp (guarded w req payload) st Q.
Proof.
  intros Hdup Hnew Hnone. unfold guarded, nonce_guard. wp_step.
  destruct (truthy (opt_get payload "nonce")) eqn:Et.
  - wp_step. wp_step. wp_simpl.
    destruct (existsb _ (usedNonces st)) eqn:Eu.
    + wp_step. wp_simpl. wp_step. by apply Hdup.
    + wp_step. wp_step. wp_step. wp_simpl. by apply Hnew.
  - wp_step. wp_simpl. by apply Hnone.
Qed.

Lemma wp_handler w req st Q :
  (truthy (find_payload w req st) = false -> Q (Ok not_found) st) ->
  (forall reply, truthy (find_payload w req st) = true ->
     screen w st (effective_payload w req st) = Some reply -> Q (Ok reply) st) ->
  (reaches_nonce_guard w req st ->
     wp (guarded w req (effective_payload w req st)) st
        (after_try (fun e => mret (status_json 500 [("success", JBool false); ("error", JStr e)])) Q)) ->
  wp (handler w req) st Q.
Proof.
  intros Hnf Hrej Hgo. unfold handler, try_body. wp_step. wp_step. wp_step.
  destruct (truthy (find_payload w req st)) eqn:Ef; cbn [negb].
  - wp_step. wp_step. wp_step. wp_step. wp_simpl.
    fold (effective_payload w req st).
    destruct (screen w st _) as [reply|] eqn:Es.
    + wp_step. wp_simpl. by apply Hrej.
    + by apply Hgo.
  - wp_step. wp_simpl. by apply Hnf.
Qed.

Lemma handler_frame w req st : verify_frame st (handler w req st).2.
Proof.
  change (wp (handler w req) st (fun _ st' => verify_frame st st')).
  apply wp_handler; [done..|]. intros _.
  apply wp_guarded; intros; wp_simpl; try done.
  all: apply wp_conclude; intros o st' [->|[e ->]] _ _.
  all: destruct o; wp_simpl; try wp_step; by store_simpl.
Qed.

(** A payload that has a nonce was found. *)
Lemma nonce_found w req st :
  truthy (opt_get (effective_payload w req st) "nonce") = true ->
  truthy (find_payload w req st) = true.
Proof.
  unfold effective_payload, expanded. intros Hn.
  destruct (find_payload w req st) as [| | |b|z|s|l|o]; try done.
  all: by destruct (Compressor.is_compressed _).
Qed.

(** The set of consumed nonces only grows. *)
Lemma handler_keeps_nonces w req st x :
  existsb (same_value_zero x) (usedNonces st) = true ->
  existsb (same_value_zero x) (usedNonces (handler w req st).2) = true.
Proof.
  intros Hx.
  change (wp (handler w req) st (fun _ st' =>
            existsb (same_value_zero x) (usedNonces st') = true)).
  apply wp_handler; [done..|]. intros _.
  apply wp_guarded; intros; wp_simpl; try done.
  all: apply wp_conclude; intros o st' [->|[e ->]] _ _.
  all: destruct o; wp_simpl; try wp_step; store_simpl.
  all: rewrite ?existsb_app, ?Hx; done.
Qed.

End VerifyFacts.

Section VerifyClaims.
Context `{External}.
Import Verify.

(** C5.  [signatureOk] is computed from [ok], an identifier that no scope
    of the handler binds.  Whatever the request, the payload and the store,
    the block that builds the 'verified' event ends at that read with a
    ReferenceError, its [catch] swallows it, and the stores are as before:
    over a whole verify request no event is queued or submitted and no
    channel's last event hash or type is written. *)
Theorem verified_event_never_submitted w req st :
  existsb (String.eqb "ok") scope = false /\
  (forall payload fraudAlert env,
     verified_block w req payload fraudAlert env st
     = (Throw "ReferenceError: ok is not defined", st) /\
     attempt (verified_block w req payload fraudAlert env) st = (Ok (), st)) /\
  hcsSubmitted (handler w req st).2 = hcsSubmitted st /\
  messageQueue (handler w req st).2 = messageQueue st /\
  lastEventHashPerTopic (handler w req st).2 = lastEventHashPerTopic st /\
  lastEventTypePerTopic (handler w req st).2 = lastEventTypePerTopic st.
Proof.
  destruct (handler_frame w req st) as (_ & Hh & Ht & _ & _ & Hq & Hs & _).
  split; [apply ok_is_unbound|].
  split; [|done].
  intros payload fraudAlert env.
  by rewrite verified_block_throws, verified_block_skipped.
Qed.

(** A reply of the early checks is a rejection. *)
Lemma screen_rejects w st payload reply :
  screen w st payload = Some reply ->
  lookup_prop "success" (body reply) = JBool false.
Proof.
  unfold screen. repeat case_match; intros [= <-]; reflexivity.
Qed.



End VerifyClaims.

Section ChainFacts.
Context `{External}.

Ltac emit_leaf :=
  wp_simpl; store_simpl;
  first [ left; split; reflexivity
        | right; eexists _, _, _; split; reflexivity ].

Lemma dispense_emits w req st :
  let st' := (Dispense.handler w req st).2 in
  emits_nothing st st' \/
  exists count maxd,
    emits_one (Dispense.topicID req)
      (signed_event w (Dispense.base w req (Dispense.chainPrev req st) count maxd)
         (Dispense.pharmacistNationalId req))
      (negb (fails w CSubmitMessage)) st st'.
Proof.
  cbv zeta.
  change (wp (Dispense.handler w req) st (fun _ st' =>
    emits_nothing st st' \/
    exists count maxd,
      emits_one (Dispense.topicID req)
        (signed_event w (Dispense.base w req (Dispense.chainPrev req st) count maxd)
           (Dispense.pharmacistNationalId req))
        (negb (fails w CSubmitMessage)) st st')).
  unfold emits_nothing, emits_one.
  unfold Dispense.handler. wp_step.
  unfold wp at 1, acquireDispenseLock.
  destruct (Lock.acquire _ _ _ _ _) as [[|] locks]; cbn [fst snd]; wp_simpl; cbn [negb].
  2:{ wp_step. emit_leaf. }
  wp_step. unfold Dispense.locked_body.
  repeat wp_step.
  all: try (unfold Dispense.record_dispense; repeat wp_step).
  all: unfold Dispense.chainPrev in *; store_simpl.
  all: match goal with
       | E : fails _ CSubmitMessage = _ |- _ => rewrite ?E
       | _ => idtac
       end.
  all: emit_leaf.
Qed.

Lemma payment_emits w req st :
  let st' := (Payments.complete w req st).2 in
  emits_nothing st st' \/
  exists t,
    let e := signed_event w
               (Payments.base w req (JStr t) (head_of st t))
               (to_string (Payments.pharmacistNationalId req)) in
    (fails w CSubmitMessage = false /\ emits_one t e true st st') \/
    (fails w CSubmitMessage = true /\ emits_refused e st st').
Proof.
  cbv zeta.
  change (wp (Payments.complete w req) st (fun _ st' =>
    emits_nothing st st' \/
    exists t,
      (fails w CSubmitMessage = false /\
       emits_one t (signed_event w (Payments.base w req (JStr t) (head_of st t))
                      (to_string (Payments.pharmacistNationalId req))) true st st') \/
      (fails w CSubmitMessage = true /\
       emits_refused (signed_event w (Payments.base w req (JStr t) (head_of st t))
                        (to_string (Payments.pharmacistNationalId req))) st st'))).
  unfold emits_nothing, emits_one, emits_refused, head_of.
  unfold Payments.complete. wp_step.
  destruct (truthy (Payments.prescriptionId req)).
  2:{ wp_step. wp_step. by left. }
  wp_step. unfold Payments.emit_paid. wp_step. wp_step. wp_simpl.
  destruct (get_str_at (prescriptionToTopic st) (Payments.prescriptionId req))
    as [| | | | |t| |] eqn:Et;
    try (wp_step; wp_simpl; wp_step; by left).
  repeat wp_step.
  all: try (unfold Payments.record_paid; repeat wp_step).
  all: wp_simpl; store_simpl.
  all: try (left; split; reflexivity).
  all: right; exists t.
  all: match goal with
       | E : fails _ CSubmitMessage = _ |- _ => rewrite E
       end.
  all: first [ left; split; [reflexivity|]; eexists; split; reflexivity
             | right; split; [reflexivity|]; eexists; split; reflexivity ].
Qed.

End ChainFacts.

Section ChainClaims.
Context `{External}.

Lemma paid_event_fields w req topic prev id :
  let e := signed_event w (Payments.base w req topic prev) id in
  lookup_prop "topicID" e = topic /\ lookup_prop "prevEventHash" e = prev.
Proof. cbv zeta. split; reflexivity. Qed.

Lemma chainPrev_cases req st :
  Dispense.chainPrev req st
  = if truthy (Dispense.prevEventHash req) then Dispense.prevEventHash req
    else head_of st (Dispense.topicID req).
Proof.
  unfold Dispense.chainPrev, head_of, or.
  destruct (truthy (Dispense.prevEventHash req)) eqn:E; [by rewrite E|done].
Qed.

(** What one call puts on the ledger log and what it does to the heads. *)
Lemma call_summary c st :
  (emitted c st = [] /\
   lastEventHashPerTopic (perform c st) = lastEventHashPerTopic st) \/
  exists t e args,
    emitted c st = [{| sub_args := args; sub_event := e;
                       sub_accepted := negb (fails (world_of c) CSubmitMessage) |}] /\
    lookup_prop "topicID" e = JStr t /\
    lookup_prop "prevEventHash" e
      = (if truthy (supplied_prev c) then supplied_prev c else head_of st t) /\
    (lastEventHashPerTopic (perform c st) = <[t := hash_of e]> (lastEventHashPerTopic st) \/
     fails (world_of c) CSubmitMessage = true /\
     lastEventHashPerTopic (perform c st) = lastEventHashPerTopic st).
Proof.
  unfold emitted. destruct c as [w req|w req]; cbn [perform world_of supplied_prev].
  - destruct (payment_emits w req st) as [[Hs Hh]|(t & [[Hf (args & Hs & Hh)]|[Hf (args & Hs & Hh)]])].
    + left. rewrite Hs, drop_all. done.
    + right. eexists t, _, args. rewrite Hs, drop_app_length, Hf.
      split; [reflexivity|]. cbn [truthy].
      destruct (paid_event_fields w req (JStr t) (head_of st t)
                  (to_string (Payments.pharmacistNationalId req))) as [E1 E2].
      repeat split; try done. by left.
    + right. eexists t, _, args. rewrite Hs, drop_app_length, Hf.
      split; [reflexivity|]. cbn [truthy].
      destruct (paid_event_fields w req (JStr t) (head_of st t)
                  (to_string (Payments.pharmacistNationalId req))) as [E1 E2].
      repeat split; try done. by right.
  - destruct (dispense_emits w req st) as [[Hs Hh]|(count & maxd & args & Hs & Hh)].
    + left. rewrite Hs, drop_all. done.
    + right. eexists (Dispense.topicID req), _, args. rewrite Hs, drop_app_length.
      split; [reflexivity|].
      destruct (dispensed_event_fields w req (Dispense.chainPrev req st) count maxd)
        as (_ & E2 & E3 & _).
      repeat split; try done.
      * by rewrite E3, chainPrev_cases.
      * by left.
Qed.

Lemma head_of_insert_eq st st' t h :
  lastEventHashPerTopic st' = <[t := hash_of h]> (lastEventHashPerTopic st) ->
  head_of st' t = JStr (hash_of h).
Proof.
  intros E. unfold head_of, get_str. rewrite E, lookup_insert_eq. reflexivity.
Qed.

Lemma head_of_insert_ne st st' t t' h :
  t' <> t ->
  lastEventHashPerTopic st' = <[t' := h]> (lastEventHashPerTopic st) ->
  head_of st' t = head_of st t.
Proof.
  intros Hne E. unfold head_of, get_str. by rewrite E, lookup_insert_ne.
Qed.

Lemma head_of_same st st' t :
  lastEventHashPerTopic st' = lastEventHashPerTopic st ->
  head_of st' t = head_of st t.
Proof. intros E. unfold head_of. by rewrite E. Qed.

Lemma linked_chain t calls : forall st,
  Forall (fun c => truthy (supplied_prev c) = false /\
                   fails (world_of c) CSubmitMessage = false) calls ->
  linked (head_of st t)
    (map sub_event (List.filter (on_channel t) (trail calls st))).
Proof.
  induction calls as [|c calls IH]; intros st Hall; [done|].
  apply Forall_cons in Hall as [[Hno Hacc] Hall].
  cbn [trail]. rewrite List.filter_app, map_app.
  destruct (call_summary c st) as [[-> Hh]|(t' & e & args & -> & Et & Ep & Hh)].
  - simpl. rewrite <- (head_of_same st (perform c st) t Hh). by apply IH.
  - destruct Hh as [Hh|[Hf _]]; [|congruence].
    cbn [List.filter]. unfold on_channel at 1. cbn [sub_event]. rewrite Et. cbn [is_str].
    destruct (String.eqb_spec t' t) as [->|Hne]; cbn [map app sub_event linked].
    + split.
      * by rewrite Ep, Hno.
      * rewrite <- (head_of_insert_eq st (perform c st) t e Hh). by apply IH.
    + rewrite <- (head_of_insert_ne st (perform c st) t t' _ Hne Hh). by apply IH.
Qed.

(** C3, as the code has it, for requests served one at a time (each
    handler runs to completion before the next begins; two payments that
    overlap at the [await] of the submission are outside it).  An event that
    a payment or a dispense puts on the ledger log names, as
    [prevEventHash], the channel's
    [lastEventHashPerTopic] entry read while the event is built (no field
    when the channel has no head yet) -- unless the dispense request itself
    supplies a [prevEventHash], which is then used instead.  So, over any run
    of payments and dispenses in which no caller supplies its own
    [prevEventHash] and no submission is refused, the events of a channel
    are linked in the order of submission: each names the hash of the one
    before it, the first the head the run started from. *)
Theorem prev_hash_is_head_unless_supplied :
  (forall c st sub, In sub (emitted c st) ->
     exists t,
       lookup_prop "topicID" (sub_event sub) = JStr t /\
       lookup_prop "prevEventHash" (sub_event sub)
         = (if truthy (supplied_prev c) then supplied_prev c else head_of st t)) /\
  (forall calls st t,
     Forall (fun c => truthy (supplied_prev c) = false /\
                      fails (world_of c) CSubmitMessage = false) calls ->
     linked (head_of st t)
       (map sub_event (List.filter (on_channel t) (trail calls st)))).
Proof.
  split.
  - intros c st sub Hin.
    destruct (call_summary c st) as [[E _]|(t & e & args & E & Et & Ep & _)];
      rewrite E in Hin; [done|].
    destruct Hin as [<-|[]]. by exists t.
  - intros calls st t. apply linked_chain.
Qed.

End ChainClaims.

Section HashClaims.
Context `{External}.

Lemma length_app_string (a b : string) :
  String.length (a +:+ b) = (String.length a + String.length b)%nat.
Proof. induction a as [|c a IH]; simpl; [done | by rewrite IH]. Qed.

Lemma join_snoc_length sep l x :
  (String.length (join sep l) + String.length x
   <= String.length (join sep (l ++ [x])))%nat.
Proof.
  destruct l as [|y l]; [simpl; lia|].
  cbn [app join]. rewrite fold_left_app. cbn [fold_left].
  rewrite !length_app_string. lia.
Qed.

(** One more property makes the serialization longer. *)
Lemma stringify_snoc_longer (o : props) k v :
  (String.length (stringify o) < String.length (stringify (o ++ [(k, JStr v)])))%nat.
Proof.
  unfold stringify. cbn [stringify_opt default from_option id].
  rewrite omap_app.
  match goal with
  | |- context [omap ?f [(k, JStr v)]] =>
      change (omap f [(k, JStr v)]) with [quote k +:+ ":" +:+ quote v]
  end.
  set (parts := omap _ o). set (x := quote k +:+ ":" +:+ quote v).
  assert (Hx : (2 <= String.length x)%nat).
  { subst x. unfold quote. rewrite !length_app_string. simpl. lia. }
  pose proof (join_snoc_length "," parts x) as Hj.
  rewrite !length_app_string. simpl String.length. lia.
Qed.

Lemma issued_without_signature w req :
  truthy (Issue.nationalId req) = true ->
  del_prop "signature" (del_prop "contentHash" (Issue.completePayload w req))
  = Issue.toHash w req
    ++ [("keyId", JStr (key_id (to_string (Issue.nationalId req))))].
Proof.
  intros Ht. unfold Issue.completePayload. rewrite Ht. reflexivity.
Qed.

Lemma issued_content_hash w req :
  lookup_prop "contentHash" (Issue.completePayload w req)
  = JStr ("sha256:" +:+ sha256hex (stringify (Issue.toHash w req))).
Proof.
  unfold Issue.completePayload. destruct (truthy (Issue.nationalId req)); reflexivity.
Qed.

(** C7 on the issue path.  The issued event of a doctor who gives a
    national id carries ["sha256:" + sha256(JSON.stringify(toHash))] as
    [contentHash], where [toHash] is the event before [contentHash], [keyId]
    and [signature] are attached.  The event without its [signature] and
    [contentHash] is [toHash] plus [keyId], and serializes to a different
    string: the digest does not cover the event minus those two fields. *)
Theorem issued_content_hash_omits_keyId w req :
  truthy (Issue.nationalId req) = true ->
  let event := Issue.completePayload w req in
  let covered := del_prop "signature" (del_prop "contentHash" event) in
  lookup_prop "contentHash" event
    = JStr ("sha256:" +:+ sha256hex (stringify (Issue.toHash w req))) /\
  covered = Issue.toHash w req
            ++ [("keyId", JStr (key_id (to_string (Issue.nationalId req))))] /\
  stringify covered <> stringify (Issue.toHash w req).
Proof.
  intros Ht event covered. subst covered event.
  rewrite issued_without_signature by done.
  split; [apply issued_content_hash|]. split; [done|].
  intros E. pose proof (stringify_snoc_longer (Issue.toHash w req) "keyId"
                          (key_id (to_string (Issue.nationalId req)))) as Hlt.
  rewrite E in Hlt. lia.
Qed.

(** On the pharmacist side the digest covers the event minus [signature]
    and [contentHash], [keyId] included. *)
Lemma dispensed_content_hash w req chainPrev count maxd :
  let event := signed_event w (Dispense.base w req chainPrev count maxd)
                 (Dispense.pharmacistNationalId req) in
  lookup_prop "contentHash" event
  = JStr ("sha256:" +:+ sha256hex
            (stringify (del_prop "signature" (del_prop "contentHash" event)))).
Proof. reflexivity. Qed.

Lemma paid_content_hash w req topic prev id :
  let event := signed_event w (Payments.base w req topic prev) id in
  lookup_prop "contentHash" event
  = JStr ("sha256:" +:+ sha256hex
            (stringify (del_prop "signature" (del_prop "contentHash" event)))).
Proof. reflexivity. Qed.

End HashClaims.

Section CompressorClaims.
Context `{External}.
Import Compressor.

(** *** Field names *)

Lemma long_of_short_of k : is_code k = false -> long_of (short_of k) = k.
Proof.
  unfold is_code, long_of, short_of, fieldCodes. cbn [existsb short_in snd].
  intros Hk.
  repeat (apply orb_false_iff in Hk as [? Hk]).
  repeat match goal with
         | |- context [String.eqb k ?s] =>
             destruct (String.eqb_spec k s) as [->|?]; [reflexivity|]
         end.
  cbn [long_in].
  repeat match goal with
         | E : String.eqb k ?s = false |- context [String.eqb k ?s] => rewrite E
         end.
  reflexivity.
Qed.

Lemma short_of_is_e k : is_code k = false -> short_of k = "e" -> k = "eventType".
Proof.
  intros Hk Hs. rewrite <- (long_of_short_of k Hk), Hs. reflexivity.
Qed.

Lemma short_of_not_eventType k : is_code k = false -> short_of k <> "eventType".
Proof.
  intros Hk Hs. pose proof (long_of_short_of k Hk) as E. rewrite Hs in E.
  change (long_of "eventType") with "eventType" in E. subst k.
  discriminate Hs.
Qed.

(** *** The value dictionary *)

Lemma index_of_lookup s dict n : index_of s dict = Some n -> dict !! n = Some s.
Proof.
  revert n. induction dict as [|x dict IH]; intros n; simpl; [done|].
  destruct (String.eqb_spec s x) as [->|_].
  - by intros [= <-].
  - destruct (index_of s dict) as [m|]; simpl; [|done].
    intros [= <-]. by apply IH.
Qed.

Lemma expand_plain dict s : is_token s = false -> expand dict s = s.
Proof. unfold is_token, expand. by destruct (token_index s). Qed.

Lemma abbreviate_spec s dict :
  dict `prefix_of` (abbreviate s dict).2 /\
  forall dict', (abbreviate s dict).2 `prefix_of` dict' ->
    expand dict' (abbreviate s dict).1 = s.
Proof.
  unfold abbreviate.
  destruct (is_long s || is_token s) eqn:Hs.
  2: { apply orb_false_iff in Hs as [_ Hs].
       split; [done | intros; by apply expand_plain]. }
  destruct (index_of s dict) as [n|] eqn:E; cbn [fst snd].
  - split; [done|]. intros dict' Hp. unfold expand.
    rewrite token_index_of.
    by rewrite (prefix_lookup_Some _ _ _ _ (index_of_lookup _ _ _ E) Hp).
  - split; [by apply prefix_app_r|]. intros dict' Hp. unfold expand.
    rewrite token_index_of.
    assert (Hl : (dict ++ [s]) !! length dict = Some s)
      by (by rewrite lookup_app_r, Nat.sub_diag).
    by rewrite (prefix_lookup_Some _ _ _ _ Hl Hp).
Qed.

Lemma abbreviate_all_spec l : forall dict,
  dict `prefix_of` (abbreviate_all l dict).2 /\
  forall dict', (abbreviate_all l dict).2 `prefix_of` dict' ->
    map (expand_elem dict') (abbreviate_all l dict).1 = l.
Proof.
  induction l as [|x l IH]; intros dict; [done|].
  destruct x as [| | | | |s| |]; cbn [abbreviate_all].
  all: try (destruct (IH dict) as [P1 P2];
            destruct (abbreviate_all l dict) as [l' d2]; cbn [fst snd] in *;
            split; [done|]; intros dict' Hp; cbn [map expand_elem];
            by rewrite (P2 dict' Hp)).
  destruct (abbreviate_spec s dict) as [Q1 Q2].
  destruct (abbreviate s dict) as [s' d1]; cbn [fst snd] in *.
  destruct (IH d1) as [P1 P2].
  destruct (abbreviate_all l d1) as [l' d2]; cbn [fst snd] in *.
  split; [by etrans|]. intros dict' Hp. cbn [map expand_elem].
  rewrite (P2 dict' Hp), (Q2 dict'); [done|by etrans].
Qed.

Lemma compress_value_spec v dict :
  dict `prefix_of` (compress_value v dict).2 /\
  forall dict', (compress_value v dict).2 `prefix_of` dict' ->
    decompress_value dict' (compress_value v dict).1 = v.
Proof.
  destruct v as [| | | | |s|l|]; cbn [compress_value]; try done.
  - destruct (abbreviate_spec s dict) as [Q1 Q2].
    destruct (abbreviate s dict) as [s' d1]; cbn [fst snd] in *.
    split; [done|]. intros dict' Hp. cbn [decompress_value]. by rewrite Q2.
  - destruct (abbreviate_all_spec l dict) as [Q1 Q2].
    destruct (abbreviate_all l dict) as [l' d1]; cbn [fst snd] in *.
    split; [done|]. intros dict' Hp. cbn [decompress_value]. by rewrite Q2.
Qed.

Lemma compressPayload_spec x : forall dict,
  forallb (fun kv => negb (is_code kv.1)) x = true ->
  dict `prefix_of` (compressPayload x dict).2 /\
  forall dict', (compressPayload x dict).2 `prefix_of` dict' ->
    decompressPayload (compressPayload x dict).1 dict' = x.
Proof.
  induction x as [|[k v] x IH]; intros dict Hx; [done|].
  simpl in Hx. apply andb_true_iff in Hx as [Hk Hx].
  apply negb_true_iff in Hk.
  cbn [compressPayload].
  destruct (compress_value_spec v dict) as [Q1 Q2].
  destruct (compress_value v dict) as [v' d1]; cbn [fst snd] in *.
  destruct (IH d1 Hx) as [P1 P2].
  destruct (compressPayload x d1) as [rest d2]; cbn [fst snd] in *.
  split; [by etrans|]. intros dict' Hp.
  unfold decompressPayload in *. cbn [map fst snd].
  rewrite (P2 dict' Hp), long_of_short_of, Q2; [done| by etrans | done].
Qed.

(** *** Telling the two forms apart *)

Lemma lookup_code_absent c x :
  is_code c = true ->
  forallb (fun kv => negb (is_code kv.1)) x = true ->
  lookup_prop c x = JUndef.
Proof.
  intros Hc. induction x as [|[k v] x IH]; [done|].
  simpl. intros Hx. apply andb_true_iff in Hx as [Hk Hx].
  apply negb_true_iff in Hk.
  destruct (String.eqb_spec c k) as [->|_]; [congruence|]. by apply IH.
Qed.

Lemma compressed_has_no_eventType x : forall dict,
  forallb (fun kv => negb (is_code kv.1)) x = true ->
  lookup_prop "eventType" (compressPayload x dict).1 = JUndef.
Proof.
  induction x as [|[k v] x IH]; intros dict Hx; [done|].
  simpl in Hx. apply andb_true_iff in Hx as [Hk Hx].
  apply negb_true_iff in Hk.
  cbn [compressPayload].
  destruct (compress_value v dict) as [v' d1].
  specialize (IH d1 Hx).
  destruct (compressPayload x d1) as [rest d2]; cbn [fst snd] in *.
  cbn [lookup_prop].
  destruct (String.eqb_spec "eventType" (short_of k)) as [E|_]; [|done].
  by destruct (short_of_not_eventType k Hk).
Qed.

Lemma abbreviate_nonempty s dict : s <> "" -> (abbreviate s dict).1 <> "".
Proof.
  intros Hs. unfold abbreviate.
  destruct (is_long s || is_token s); [|done].
  destruct (index_of s dict); apply token_nonempty.
Qed.

Lemma compressed_has_e x : forall dict,
  forallb (fun kv => negb (is_code kv.1)) x = true ->
  is_event_type (lookup_prop "eventType" x) = true ->
  truthy (lookup_prop "e" (compressPayload x dict).1) = true.
Proof.
  induction x as [|[k v] x IH]; intros dict Hx Ht; [done|].
  simpl in Hx. apply andb_true_iff in Hx as [Hk Hx].
  apply negb_true_iff in Hk.
  cbn [compressPayload lookup_prop] in *.
  destruct (compress_value v dict) as [v' d1] eqn:Ev.
  specialize (IH d1 Hx).
  destruct (compressPayload x d1) as [rest d2]; cbn [fst snd] in *.
  cbn [lookup_prop].
  destruct (String.eqb_spec "eventType" k) as [<-|Hne].
  - change (String.eqb "e" (short_of "eventType")) with true. cbv iota.
    destruct v as [| | | | |s| |]; try discriminate.
    cbn [compress_value] in Ev.
    pose proof (abbreviate_nonempty s dict) as Hne.
    destruct (abbreviate s dict) as [s' d']. injection Ev as <- <-.
    cbn [truthy fst] in *.
    destruct (String.eqb_spec s' ""); [|done].
    destruct Hne; [|done]. intros ->. discriminate.
  - destruct (String.eqb_spec "e" (short_of k)) as [E|_]; [|by apply IH].
    destruct Hne. symmetry. by apply short_of_is_e.
Qed.

(** C4.  For an event of one of the four types, under long field names and
    with any values: decompressing what the compressor returns, against the
    dictionary it leaves, gives back the event, property for property and in
    order -- a field the event does not have is not there afterwards, a
    number is the same number, a string is the same string also when it is
    spelled like a token.  The test of [/api/verify], a truthy [e] and no
    truthy [eventType], holds of the compressed form and fails of the
    event. *)
Theorem decompress_compress (x : props) (dict : list string) :
  event_shape x = true ->
  decompressPayload (compressPayload x dict).1 (compressPayload x dict).2 = x /\
  (forall k, has_prop k (decompressPayload (compressPayload x dict).1
                           (compressPayload x dict).2) = has_prop k x) /\
  is_compressed (JObj (compressPayload x dict).1) = true /\
  is_compressed (JObj x) = false.
Proof.
  unfold event_shape. intros Hx. apply andb_true_iff in Hx as [Ht Hx].
  destruct (compressPayload_spec x dict Hx) as [_ Hrt].
  specialize (Hrt _ (reflexivity _)).
  split; [done|]. split; [by rewrite Hrt|].
  unfold is_compressed. cbn [opt_get]. split.
  - by rewrite (compressed_has_e x dict Hx Ht), (compressed_has_no_eventType x dict Hx).
  - by rewrite (lookup_code_absent "e" x eq_refl Hx).
Qed.

(** The events the handlers build have long field names only. *)
Lemma dispensed_event_keys w req chainPrev count maxd :
  forallb (fun kv => negb (is_code kv.1))
    (signed_event w (Dispense.base w req chainPrev count maxd)
       (Dispense.pharmacistNationalId req)) = true.
Proof. reflexivity. Qed.

Lemma paid_event_keys w req topic prev id :
  forallb (fun kv => negb (is_code kv.1))
    (signed_event w (Payments.base w req topic prev) id) = true.
Proof. reflexivity. Qed.

Lemma issued_event_keys w req :
  forallb (fun kv => negb (is_code kv.1)) (Issue.completePayload w req) = true.
Proof. unfold Issue.completePayload. by destruct (truthy _). Qed.

End CompressorClaims.
(** ** Lemmas for the other routes *)

Lemma wp_await {A} (o : outcome A) s Q : Q o s -> wp (await o) s Q.
Proof. done. Qed.

Ltac wp_go :=
  first
    [ wp_step
    | wp_simpl;
      lazymatch goal with
      | |- wp (await ?o) _ _ =>
          apply wp_await;
          lazymatch o with
          | Ok _ => idtac
          | Throw _ => idtac
          | _ => destruct o eqn:?
          end
      end ].

Section DispenseMore.
Context `{External}.
Import Dispense.

(** All that a granted dispense does to the stores. *)
Lemma dispense_granted w req st c N :
  dispenseCount_of st (topicID req) = JNum c ->
  maxDispenses_of st (topicID req) = JNum N ->
  (0 <= c < N)%Z ->
  undisturbed w ->
  lock_free w st (topicID req) (pharmacistNationalId req) ->
  let event :=
    signed_event w (base w req (chainPrev req st) (JNum (c + 1)) (JNum N))
      (pharmacistNationalId req) in
  wp (handler w req) st (fun o st' =>
    o = Ok dispensed_ok /\
    (exists wire,
       hcsSubmitted st' = hcsSubmitted st ++
         [{| sub_args := [JStr (topicID req); JObj wire]; sub_event := event;
             sub_accepted := negb (fails w CSubmitMessage) |}]) /\
    lastEventHashPerTopic st' = <[topicID req := hash_of event]> (lastEventHashPerTopic st) /\
    lastEventTypePerTopic st' = <[topicID req := "dispensed"]> (lastEventTypePerTopic st) /\
    dispenseCount_of st' (topicID req) = JNum (c + 1) /\
    maxDispenses_of st' (topicID req) = JNum N /\
    dispenseLocks st' !! topicID req = None /\
    prescriptionToTopic st' = prescriptionToTopic st /\
    usedNonces st' = usedNonces st /\
    (prescriptionIndex st !! topicID req = None ->
       prescriptionIndex st' = prescriptionIndex st) /\
    (forall t, t <> topicID req -> inMemoryStore st' !! t = inMemoryStore st !! t)).
Proof.
  intros Hc HN Hlt (F1 & F2 & F3 & F4 & F5) Hlock event.
  destruct (stored_count_shape _ _ _ _ Hc) as (o & p & Ho & Hp & Hpc).
  destruct (stored_count_shape _ _ _ _ HN) as (o' & p' & Ho' & Hp' & HpN).
  rewrite Ho in Ho'. injection Ho' as <-. rewrite Hp in Hp'. injection Hp' as <-.
  unfold handler. wp_step.
  unfold wp at 1, acquireDispenseLock, Lock.acquire. rewrite Hlock.
  cbn [fst snd]. wp_simpl. cbn [negb].
  wp_step. unfold locked_body. wp_step. wp_step. wp_simpl.
  store_simpl. rewrite Ho. cbn [opt_get]. rewrite Hp. cbn [opt_get].
  rewrite Hpc, HpN, ge_num_false by lia.
  rewrite (or_count c), (or_num_pos N), add_one by lia.
  repeat wp_step.
  all: unfold record_dispense; cbn [truthy get assign opt_get]; rewrite Hp;
    cbn [assign lift]; repeat wp_step.
  all: wp_simpl; store_simpl.
  all: repeat match goal with
       | E : assign (JObj _) _ _ = _ |- _ => cbn [assign] in E; simplify_eq
       | E : assign ?v _ _ = None, T : truthy ?v = true |- _ =>
           destruct v; discriminate
       end.
  all: unfold chainPrev in event; store_simpl.
  all: split; [reflexivity|].
  all: split; [match goal with E : fails _ CSubmitMessage = _ |- _ => rewrite E end;
               by eexists|].
  all: split; [reflexivity|]. all: split; [reflexivity|].
  all: unfold dispenseCount_of, maxDispenses_of, get_val, Lock.release; store_simpl.
  all: rewrite ?lookup_insert_eq, ?lookup_delete_eq; cbn [default from_option id opt_get].
  all: props_simpl; cbn [opt_get]; props_simpl.
  all: rewrite ?HpN.
  all: repeat split; try reflexivity.
  all: try (intros Hnone; unfold get_val in *;
            match goal with
            | T : truthy (default JUndef (prescriptionIndex _ !! _)) = true |- _ =>
                rewrite Hnone in T; discriminate T
            end).
  all: try (intros t Ht; by rewrite lookup_insert_ne).
  all: try done.
Qed.

End DispenseMore.
Section DispenseExtras.
Context `{External}.
Import Dispense.

(** X3.  The ledger refuses the dispensed event.  The handler still answers
    [{ success: true }]; the stored count goes up by one and the channel
    head becomes the hash of the event the ledger did not take. *)
Theorem dispense_counted_though_refused w req st c N :
  dispenseCount_of st (topicID req) = JNum c ->
  maxDispenses_of st (topicID req) = JNum N ->
  (0 <= c < N)%Z ->
  undisturbed w ->
  lock_free w st (topicID req) (pharmacistNationalId req) ->
  fails w CSubmitMessage = true ->
  let st' := (handler w req st).2 in
  (handler w req st).1 = Ok dispensed_ok /\
  (exists sub,
     last (hcsSubmitted st') = Some sub /\
     sub_accepted sub = false /\
     lookup_prop "eventType" (sub_event sub) = JStr "dispensed" /\
     lookup_prop "dispenseCount" (sub_event sub) = JNum (c + 1) /\
     head_of st' (topicID req) = JStr (hash_of (sub_event sub))) /\
  dispenseCount_of st' (topicID req) = JNum (c + 1).
Proof.
  intros Hc HN Hlt Hw Hlock Hf st'.
  pose proof (dispense_granted w req st c N Hc HN Hlt Hw Hlock) as Hg.
  cbv zeta in Hg. unfold wp in Hg. fold st' in Hg.
  destruct Hg as (Ho & (wire & Hs) & Hh & _ & Hc' & _).
  split; [done|]. split; [|done].
  eexists. rewrite Hs, last_snoc. split; [reflexivity|]. cbn [sub_accepted sub_event].
  rewrite Hf. split; [reflexivity|].
  destruct (dispensed_event_fields w req (chainPrev req st) (JNum (c + 1)) (JNum N))
    as (E1 & _ & _ & E4 & _).
  split; [exact E1|]. split; [exact E4|].
  unfold head_of, get_str. rewrite Hh, lookup_insert_eq. reflexivity.
Qed.

End DispenseExtras.

Section DispenseErrors.
Context `{External}.
Import Dispense.

(** X4.  The key pair or the signature cannot be had.  The request ends
    with a refusal -- 400 when the prescription is fully dispensed, 500
    otherwise -- and, the lock apart, which is free again, every store is
    as it was: no count, head, queue entry or ledger entry is written. *)
Theorem dispense_unsigned_changes_nothing w req st :
  lock_free w st (topicID req) (pharmacistNationalId req) ->
  fails w CEnsureKeyPair = true \/ fails w CSignPayload = true ->
  exists reply locks,
    handler w req st = (Ok reply, with_dispenseLocks (fun _ => locks) st) /\
    locks !! topicID req = None /\
    (status reply = 400 \/ status reply = 500)%Z /\
    lookup_prop "success" (body reply) = JBool false.
Proof.
  intros Hlock Hfail.
  enough (wp (handler w req) st (fun o st' =>
            exists reply locks,
              (o = Ok reply /\ st' = with_dispenseLocks (fun _ => locks) st) /\
              locks !! topicID req = None /\
              (status reply = 400 \/ status reply = 500)%Z /\
              lookup_prop "success" (body reply) = JBool false))
    as (reply & locks & [Ho Hs] & Hrest).
  { exists reply, locks. split; [|done].
    destruct (handler w req st) as [o s]. simpl in *. by subst. }
  unfold handler. wp_step.
  unfold wp at 1, acquireDispenseLock, Lock.acquire. rewrite Hlock.
  cbn [fst snd]. wp_simpl. cbn [negb].
  wp_step. unfold locked_body. wp_step. wp_step. wp_simpl.
  repeat wp_step.
  all: try (unfold record_dispense; repeat wp_step).
  all: try (destruct Hfail; absurd_fault).
  all: wp_simpl; store_simpl.
  all: eexists _, _; (split; [split; reflexivity|]).
  all: (split; [apply lookup_delete_eq|]).
  all: split; [auto | reflexivity].
Qed.

End DispenseErrors.

Section PaymentExtras.
Context `{External}.
Import Payments.

(** X8.  The deferred completion of a payment answers 200
    [{ success: true, ..., status: 'completed' }] whatever the body holds
    and whatever fails while the 'paid' event is built and submitted.  When
    the ledger refuses the event, no channel's head, last event type or
    status is written and the admin log gets no entry. *)
Theorem payment_always_completes w req st :
  (complete w req st).1 = Ok (completed w req) /\
  status (completed w req) = 200%Z /\
  lookup_prop "success" (body (completed w req)) = JBool true /\
  lookup_prop "status" (body (completed w req)) = JStr "completed" /\
  (fails w CSubmitMessage = true ->
   lastEventHashPerTopic (complete w req st).2 = lastEventHashPerTopic st /\
   lastEventTypePerTopic (complete w req st).2 = lastEventTypePerTopic st /\
   topicStatus (complete w req st).2 = topicStatus st /\
   hcsEventLog (complete w req st).2 = hcsEventLog st).
Proof.
  enough (wp (complete w req) st (fun o st' =>
            o = Ok (completed w req) /\
            (fails w CSubmitMessage = true ->
             lastEventHashPerTopic st' = lastEventHashPerTopic st /\
             lastEventTypePerTopic st' = lastEventTypePerTopic st /\
             topicStatus st' = topicStatus st /\
             hcsEventLog st' = hcsEventLog st))) as [Ho Hf]
    by (repeat split; try done; by apply Hf).
  unfold complete. wp_step.
  destruct (truthy (prescriptionId req)).
  2:{ wp_step. wp_step. done. }
  wp_step. unfold emit_paid. wp_step. wp_step. wp_simpl.
  destruct (get_str_at (prescriptionToTopic st) (prescriptionId req))
    as [| | | | |t| |] eqn:Et;
    try (wp_step; wp_simpl; wp_step; done).
  repeat wp_step.
  all: try (unfold record_paid; repeat wp_step).
  all: wp_simpl; store_simpl.
  all: split; [reflexivity|]; intros Hf; try absurd_fault; done.
Qed.

End PaymentExtras.
Section PaymentRouteExtras.
Context `{External}.
Variable remote : Remote.
Import PaymentRoute.

Lemma stored_counts_ge st t c N :
  dispenseCount_of st t = JNum c ->
  maxDispenses_of st t = JNum N ->
  (1 <= N <= c)%Z ->
  ge (or (opt_get (opt_get (get_val (inMemoryStore st) t) "payload") "dispenseCount") (JNum 0))
     (or (opt_get (opt_get (get_val (inMemoryStore st) t) "payload") "maxDispenses") (JNum 1))
  = true /\
  or (opt_get (opt_get (get_val (inMemoryStore st) t) "payload") "dispenseCount") (JNum 0)
  = JNum c /\
  or (opt_get (opt_get (get_val (inMemoryStore st) t) "payload") "maxDispenses") (JNum 1)
  = JNum N.
Proof.
  unfold dispenseCount_of, maxDispenses_of. intros -> -> Hle.
  rewrite (or_num_pos c), (or_num_pos N) by lia.
  repeat split. rewrite ge_num. lia.
Qed.

Lemma stored_counts_lt st t c N :
  dispenseCount_of st t = JNum c ->
  maxDispenses_of st t = JNum N ->
  (0 <= c < N)%Z ->
  ge (or (opt_get (opt_get (get_val (inMemoryStore st) t) "payload") "dispenseCount") (JNum 0))
     (or (opt_get (opt_get (get_val (inMemoryStore st) t) "payload") "maxDispenses") (JNum 1))
  = false.
Proof.
  unfold dispenseCount_of, maxDispenses_of. intros -> -> Hle.
  apply ge_num_false; lia.
Qed.

Lemma truthy_str s : s <> "" -> truthy (JStr s) = true.
Proof. intros Hs. simpl. by destruct (String.eqb_spec s ""). Qed.

(** X9.  A payment for a prescription whose stored count has reached its
    maximum is refused with 409 and "Prescription fully dispensed (c/N)",
    whatever status the mirror node reports; no event is built and no store
    changes. *)
Theorem payment_refused_when_exhausted w req st pid t reported c N :
  Payments.prescriptionId req = JStr pid -> pid <> "" ->
  prescriptionToTopic st !! pid = Some t -> t <> "" ->
  getTopicStatusFromHedera remote t = Ok reported ->
  dispenseCount_of st t = JNum c ->
  maxDispenses_of st t = JNum N ->
  (1 <= N <= c)%Z ->
  handler remote w req st = (Ok (fully_dispensed reported (JNum c) (JNum N)), st) /\
  status (fully_dispensed reported (JNum c) (JNum N)) = 409%Z /\
  lookup_prop "error" (body (fully_dispensed reported (JNum c) (JNum N)))
  = JStr ("Prescription fully dispensed (" +:+ show_Z c +:+ "/" +:+ show_Z N +:+ ")").
Proof.
  intros Hpid Hne Ht Htne Hs Hc HN Hle.
  split; [|split; reflexivity].
  destruct (stored_counts_ge st t c N Hc HN Hle) as (Hge & Hoc & HoN).
  apply wp_eq. unfold handler, eligibility.
  rewrite Hpid, (truthy_str pid Hne).
  wp_go. wp_go. wp_go. wp_go. wp_simpl.
  cbn [get_str_at]. unfold get_str. rewrite Ht. cbn [from_option].
  rewrite (truthy_str t Htne).
  wp_go. rewrite Hs. wp_go. wp_go. wp_go. wp_simpl.
  rewrite Hge, Hoc, HoN. wp_go. wp_simpl. wp_go. done.
Qed.

(** X11.  A payment for a prescription id that has no channel -- unknown,
    absent, or not a string -- is not refused: it completes with 200
    [status: 'completed'], and neither an event nor any store entry is
    written. *)
Theorem payment_for_unknown_prescription w req st :
  get_str_at (prescriptionToTopic st) (Payments.prescriptionId req) = JUndef ->
  handler remote w req st = (Ok (Payments.completed w req), st) /\
  lookup_prop "success" (body (Payments.completed w req)) = JBool true.
Proof.
  intros Hnone. split; [|reflexivity].
  apply wp_eq. unfold handler, eligibility.
  wp_go. wp_go.
  destruct (truthy (Payments.prescriptionId req)) eqn:Et.
  - wp_go. wp_go. wp_simpl. rewrite Hnone. wp_go. wp_simpl.
    unfold Payments.complete. rewrite Et. wp_go. wp_go. unfold Payments.emit_paid.
    wp_go. wp_go. wp_simpl. rewrite Hnone. wp_go. wp_simpl. wp_go. done.
  - wp_go. wp_simpl. unfold Payments.complete. rewrite Et. wp_go. wp_go. wp_simpl.
    wp_go. done.
Qed.

(** X10.  The mirror node reports a status other than 'issued', 'dispensed'
    and 'paid' for a prescription that still has dispenses left: the payment
    is refused with 409 and "Prescription status: <status>", and no store
    changes. *)
Theorem payment_refused_on_status w req st pid t reported c N :
  Payments.prescriptionId req = JStr pid -> pid <> "" ->
  prescriptionToTopic st !! pid = Some t -> t <> "" ->
  getTopicStatusFromHedera remote t = Ok reported ->
  is_str reported "issued" = false ->
  is_str reported "dispensed" = false ->
  is_str reported "paid" = false ->
  dispenseCount_of st t = JNum c ->
  maxDispenses_of st t = JNum N ->
  (0 <= c < N)%Z ->
  handler remote w req st = (Ok (invalid_status reported), st) /\
  status (invalid_status reported) = 409%Z /\
  lookup_prop "error" (body (invalid_status reported))
  = JStr ("Prescription status: " +:+ to_string reported).
Proof.
  intros Hpid Hne Ht Htne Hs H1 H2 H3 Hc HN Hlt.
  split; [|split; reflexivity].
  pose proof (stored_counts_lt st t c N Hc HN Hlt) as Hge.
  apply wp_eq. unfold handler, eligibility.
  rewrite Hpid, (truthy_str pid Hne).
  wp_go. wp_go. wp_go. wp_go. wp_simpl.
  cbn [get_str_at]. unfold get_str. rewrite Ht. cbn [from_option].
  rewrite (truthy_str t Htne).
  wp_go. rewrite Hs. wp_go. wp_go. wp_go. wp_simpl.
  rewrite Hge, H1, H2, H3. cbn [negb andb]. wp_go. wp_simpl. wp_go. done.
Qed.

End PaymentRouteExtras.
Section BatchExtras.
Context `{External}.
Variable remote : Remote.
Import Batch.

Lemma check_reads_only prescriptionId st :
  (check remote prescriptionId st).2 = st.
Proof.
  change (wp (check remote prescriptionId) st (fun _ st' => st' = st)).
  unfold check. wp_go. wp_go. wp_simpl.
  destruct (get_str_at _ _); repeat wp_go; by wp_simpl.
Qed.

Lemma check_unknown prescriptionId st :
  get_str_at (prescriptionToTopic st) prescriptionId = JUndef ->
  check remote prescriptionId st = (Ok (not_eligible prescriptionId "Not found"), st).
Proof.
  intros Hnone. apply wp_eq. unfold check. wp_go. wp_go. wp_simpl.
  rewrite Hnone. wp_go. done.
Qed.

Lemma checks_read_only ids : forall st, (eligibilityChecks remote ids st).2 = st.
Proof.
  induction ids as [|x ids IH]; intros st; [done|].
  cbn [eligibilityChecks]. unfold mbind, M_bind.
  pose proof (check_reads_only x st) as Hx.
  destruct (check remote x st) as [[c|e] s1]; simpl in Hx; subst s1; [|done].
  specialize (IH st).
  destruct (eligibilityChecks remote ids st) as [[cs|e] s2]; simpl in IH; by subst s2.
Qed.

Lemma checks_list_unknown ids bad : forall st checks,
  In bad ids ->
  get_str_at (prescriptionToTopic st) bad = JUndef ->
  (eligibilityChecks remote ids st).1 = Ok checks ->
  In (not_eligible bad "Not found") checks.
Proof.
  induction ids as [|x ids IH]; intros st checks Hin Hbad; [done|].
  cbn [eligibilityChecks]. unfold mbind, M_bind.
  pose proof (check_reads_only x st) as Hx.
  destruct (check remote x st) as [[c|e] s1] eqn:Ec; simpl in Hx; subst s1; [|done].
  pose proof (checks_read_only ids st) as Hids.
  destruct (eligibilityChecks remote ids st) as [[cs|e] s2] eqn:Ecs;
    simpl in Hids; subst s2; [|done].
  cbn. intros [= <-].
  destruct Hin as [->|Hin].
  - left. rewrite check_unknown in Ec by done. by injection Ec as <-.
  - right. apply (IH st cs Hin Hbad). by rewrite Ecs.
Qed.

(** X13.  A batch is paid as a whole or not at all.  When one of its
    prescription ids has no channel, the request ends before the timer is
    set, with 409 (or 500 when the mirror node fails for another id):
    nothing is emitted for the eligible prescriptions of the batch either,
    and no store changes.  When the mirror node answers, the reply lists the
    id with the reason 'Not found' and counts the ineligible entries in its
    message. *)
Theorem batch_refused_as_a_whole req st ids bad :
  prescriptionIds req = JArr ids ->
  In bad ids ->
  get_str_at (prescriptionToTopic st) bad = JUndef ->
  exists reply,
    screen remote req st = (Ok (Some reply), st) /\
    lookup_prop "success" (body reply) = JBool false /\
    (status reply = 409 \/ status reply = 500)%Z /\
    (status reply = 409%Z ->
     exists listed,
       reply = refused listed /\
       In (not_eligible bad "Not found") listed /\
       lookup_prop "error" (body reply)
       = JStr (show_Z (Z.of_nat (length listed))
               +:+ " prescription(s) are not eligible for payment")).
Proof.
  intros Hids Hin Hbad.
  unfold screen, validation, try_catch. rewrite Hids.
  destruct ids as [|x ids]; [done|].
  unfold mbind, M_bind.
  pose proof (checks_read_only (x :: ids) st) as Hst.
  pose proof (checks_list_unknown (x :: ids) bad st) as Hl.
  destruct (eligibilityChecks remote (x :: ids) st) as [[checks|e] s1];
    simpl in Hst; subst s1.
  - specialize (Hl checks Hin Hbad eq_refl).
    assert (Hb : In (not_eligible bad "Not found") (ineligible checks)).
    { unfold ineligible. apply filter_In. split; [done|]. reflexivity. }
    destruct (ineligible checks) as [|b bs] eqn:Eb; [done|].
    exists (refused (b :: bs)). split; [reflexivity|]. split; [reflexivity|].
    split; [by left|]. intros _. exists (b :: bs). done.
  - exists (server_error e). split; [reflexivity|]. split; [reflexivity|].
    split; [by right|]. discriminate.
Qed.

(** X14.  The two payment routes disagree on a prescription the mirror node
    reports as 'paid' and that has dispenses left: [/api/payments] lets it
    through to the timer (a refill may be paid again), while
    [/api/payments/batch] holds the whole batch back with the reason
    'Invalid status: paid'. *)
Theorem paid_status_alone_and_in_batch w pay batch st pid t c N :
  Payments.prescriptionId pay = JStr pid -> pid <> "" ->
  prescriptionIds batch = JArr [JStr pid] ->
  prescriptionToTopic st !! pid = Some t -> t <> "" ->
  getTopicStatusFromHedera remote t = Ok (JStr "paid") ->
  dispenseCount_of st t = JNum c ->
  maxDispenses_of st t = JNum N ->
  (0 <= c < N)%Z ->
  PaymentRoute.handler remote w pay st = Payments.complete w pay st /\
  screen remote batch st
  = (Ok (Some (refused [not_eligible (JStr pid) "Invalid status: paid"])), st).
Proof.
  intros Hpid Hne Hids Ht Htne Hs Hc HN Hlt.
  pose proof (stored_counts_lt st t c N Hc HN Hlt) as Hge.
  split.
  - unfold PaymentRoute.handler, PaymentRoute.eligibility, try_catch, mbind, M_bind.
    rewrite Hpid, (truthy_str pid Hne).
    unfold read at 1. cbn [get_str_at]. unfold get_str. rewrite Ht. cbn [from_option].
    rewrite (truthy_str t Htne). unfold await, read. rewrite Hs, Hge. reflexivity.
  - unfold screen, validation, try_catch. rewrite Hids.
    cbn [eligibilityChecks]. unfold check, mbind, M_bind.
    unfold read at 1. cbn [get_str_at]. unfold get_str. rewrite Ht. cbn [from_option].
    rewrite (truthy_str t Htne). unfold await, read. rewrite Hs, Hge. reflexivity.
Qed.

End BatchExtras.
Section CancelExtras.
Context `{External}.
Variable remote : Remote.

(** X5.  Cancelling a prescription does not stop it from being dispensed.
    The cancellation is answered [{ success: true }] and touches no store
    but the ledger log; a dispense request for the prescription's channel
    that comes afterwards is granted as it would have been before, and
    counted. *)
Theorem cancelled_prescription_still_dispensed w c w' req st k N :
  prescriptionToTopic st !! Cancel.prescriptionId c = Some (Dispense.topicID req) ->
  Dispense.topicID req <> "" ->
  fails w CSubmitMessage = false ->
  dispenseCount_of st (Dispense.topicID req) = JNum k ->
  maxDispenses_of st (Dispense.topicID req) = JNum N ->
  (0 <= k < N)%Z ->
  undisturbed w' ->
  lock_free w' st (Dispense.topicID req) (Dispense.pharmacistNationalId req) ->
  let st1 := (Cancel.handler remote w c st).2 in
  (Cancel.handler remote w c st).1 = Ok (json [("success", JBool true)]) /\
  inMemoryStore st1 = inMemoryStore st /\
  topicStatus st1 = topicStatus st /\
  (Dispense.handler w' req st1).1 = Ok dispensed_ok /\
  dispenseCount_of (Dispense.handler w' req st1).2 (Dispense.topicID req) = JNum (k + 1).
Proof.
  intros Ht Hne Hf Hk HN Hlt Hw Hlock st1.
  assert (wp (Cancel.handler remote w c) st (fun o st' =>
            o = Ok (json [("success", JBool true)]) /\
            exists log, st' = with_hcsSubmitted (fun _ => log) st)) as [Ho [log Hs]].
  { unfold Cancel.handler. wp_go. wp_go. wp_go. wp_go. wp_simpl.
    unfold get_str. rewrite Ht. cbn [from_option].
    rewrite (truthy_str _ Hne).
    repeat wp_go. wp_simpl. split; [reflexivity|]. by eexists. }
  fold st1 in Hs. split; [exact Ho|].
  rewrite Hs. split; [reflexivity|]. split; [reflexivity|].
  pose proof (dispense_granted w' req (with_hcsSubmitted (fun _ => log) st) k N
                Hk HN Hlt Hw Hlock) as Hg.
  cbv zeta in Hg. unfold wp in Hg.
  destruct Hg as (Hr & _ & _ & _ & Hc' & _). done.
Qed.

End CancelExtras.

Section LookupExtras.
Context `{External}.
Variable remote : Remote.

(** A dispense leaves the prescription index alone unless the channel id is
    itself a key of the index. *)
Lemma dispense_keeps_index w req st :
  prescriptionIndex st !! Dispense.topicID req = None ->
  prescriptionIndex (Dispense.handler w req st).2 = prescriptionIndex st.
Proof.
  intros Hnone.
  change (wp (Dispense.handler w req) st (fun _ st' =>
            prescriptionIndex st' = prescriptionIndex st)).
  unfold Dispense.handler. wp_step.
  unfold wp at 1, acquireDispenseLock.
  destruct (Lock.acquire _ _ _ _ _) as [[|] locks]; cbn [fst snd]; wp_simpl; cbn [negb].
  2:{ wp_step. done. }
  wp_step. unfold Dispense.locked_body.
  repeat wp_step.
  all: try (unfold Dispense.record_dispense; repeat wp_step).
  all: wp_simpl; store_simpl.
  all: try reflexivity.
  all: unfold get_val in *;
    match goal with
    | T : truthy (default JUndef (prescriptionIndex _ !! _)) = true |- _ =>
        rewrite Hnone in T; discriminate T
    end.
Qed.

Lemma serve_keeps_index t calls : forall st,
  prescriptionIndex st !! t = None ->
  Forall (fun call => Dispense.topicID call.2 = t) calls ->
  prescriptionIndex (serve calls st).2 = prescriptionIndex st.
Proof.
  induction calls as [|[w req] calls IH]; intros st Hnone Hall; [done|].
  apply Forall_cons in Hall as [Ht Hall]. simpl in Ht. subst t.
  pose proof (dispense_keeps_index w req st Hnone) as H1.
  simpl. destruct (Dispense.handler w req st) as [r st1]. simpl in H1.
  specialize (IH st1). rewrite H1 in IH. specialize (IH Hnone Hall).
  destruct (serve calls st1) as [rs st2]. simpl in *. congruence.
Qed.

Lemma issue_indexes w req st g :
  Issue.geotag (Issue.geo req) = Some g ->
  (truthy (Issue.nationalId req) = true ->
   fails w CEnsureKeyPair = false /\ fails w CSignPayload = false) ->
  prescriptionIndex (Issue.issue w req st).2
  = <[Issue.prescriptionId req := JObj (Issue.full w req)]> (prescriptionIndex st).
Proof.
  intros Hgeo Hsign. rewrite (issue_located w req st g Hgeo).
  change (wp (Issue.sign_and_index w req) st (fun _ st' =>
            prescriptionIndex st'
            = <[Issue.prescriptionId req := JObj (Issue.full w req)]> (prescriptionIndex st))).
  unfold Issue.sign_and_index. wp_step. wp_step.
  - destruct (Hsign eq_refl) as [F1 F2].
    repeat wp_step.
    all: try (unfold Issue.index_issued; repeat wp_step).
    all: wp_simpl; store_simpl; reflexivity.
  - repeat wp_step.
    all: try (unfold Issue.index_issued; repeat wp_step).
    all: wp_simpl; store_simpl; reflexivity.
Qed.


End LookupExtras.
Section IssueMore.
Context `{External}.

(** The issued event's fields that the other routes read. *)
Lemma issued_fields w req :
  let e := Issue.completePayload w req in
  lookup_prop "eventType" e = JStr "issued" /\
  lookup_prop "topicID" e = JStr (Issue.topicID req) /\
  lookup_prop "nonce" e = JStr (randomHex (entropy w)) /\
  lookup_prop "dispenseCount" e = JNum 0 /\
  lookup_prop "maxDispenses" e = or (opt_get (Issue.formData req) "maxDispenses") (JNum 1) /\
  lookup_prop "e" e = JUndef /\ lookup_prop "v" e = JUndef /\
  lookup_prop "u" e = JUndef /\ lookup_prop "dc" e = JUndef /\
  lookup_prop "md" e = JUndef.
Proof.
  cbv zeta. unfold Issue.completePayload.
  destruct (truthy (Issue.nationalId req)); repeat split; reflexivity.
Qed.

(** What the issue route leaves in the stores when its indexing block runs
    to the end. *)
Lemma issue_result w req st g :
  Issue.geotag (Issue.geo req) = Some g ->
  signing_answers w req ->
  fails w CLogHCSEvent = false -> fails w CPutSensitiveData = false ->
  fails w CCompressPayload = false -> fails w CQueueMessage = false ->
  let st' := (Issue.issue w req st).2 in
  let e := Issue.completePayload w req in
  inMemoryStore st'
  = <[Issue.topicID req := JObj (literal [ ("prescription", JObj (Issue.full w req));
                                           ("payload", JObj e) ])]> (inMemoryStore st) /\
  lastEventHashPerTopic st' = <[Issue.topicID req := hash_of e]> (lastEventHashPerTopic st) /\
  lastEventTypePerTopic st' = <[Issue.topicID req := "issued"]> (lastEventTypePerTopic st) /\
  prescriptionIndex st'
  = <[Issue.prescriptionId req := JObj (Issue.full w req)]> (prescriptionIndex st) /\
  prescriptionToTopic st'
  = <[Issue.prescriptionId req := Issue.topicID req]> (prescriptionToTopic st) /\
  usedNonces st' = usedNonces st /\
  dispenseLocks st' = dispenseLocks st.
Proof.
  intros Hgeo Hsign F1 F2 F3 F4. rewrite (issue_located w req st g Hgeo).
  change (wp (Issue.sign_and_index w req) st (fun _ st' =>
    inMemoryStore st'
    = <[Issue.topicID req := JObj (literal [ ("prescription", JObj (Issue.full w req));
                                             ("payload", JObj (Issue.completePayload w req)) ])]>
        (inMemoryStore st) /\
    lastEventHashPerTopic st'
    = <[Issue.topicID req := hash_of (Issue.completePayload w req)]> (lastEventHashPerTopic st) /\
    lastEventTypePerTopic st' = <[Issue.topicID req := "issued"]> (lastEventTypePerTopic st) /\
    prescriptionIndex st'
    = <[Issue.prescriptionId req := JObj (Issue.full w req)]> (prescriptionIndex st) /\
    prescriptionToTopic st'
    = <[Issue.prescriptionId req := Issue.topicID req]> (prescriptionToTopic st) /\
    usedNonces st' = usedNonces st /\
    dispenseLocks st' = dispenseLocks st)).
  unfold Issue.sign_and_index. wp_step. wp_step.
  - match goal with E : truthy _ = true |- _ => destruct (Hsign E) as [G1 G2] end.
    repeat wp_step.
    all: try (unfold Issue.index_issued; repeat wp_step).
    all: wp_simpl; store_simpl; repeat split; reflexivity.
  - repeat wp_step.
    all: try (unfold Issue.index_issued; repeat wp_step).
    all: wp_simpl; store_simpl; repeat split; reflexivity.
Qed.

Lemma issue_keeps_locks w req st :
  dispenseLocks (Issue.issue w req st).2 = dispenseLocks st.
Proof.
  change (wp (Issue.issue w req) st (fun _ st' => dispenseLocks st' = dispenseLocks st)).
  unfold Issue.issue, Issue.sign_and_index. wp_step. wp_step.
  all: repeat wp_step.
  all: try (unfold Issue.index_issued; repeat wp_step).
  all: wp_simpl; store_simpl; reflexivity.
Qed.



End IssueMore.
Section VerifyExtras.
Context `{External}.
Import Verify.

Lemma find_payload_given req w st :
  truthy (payload req) = true -> find_payload w req st = payload req.
Proof. unfold find_payload. by intros ->. Qed.

Lemma expanded_plain raw dict :
  Compressor.is_compressed raw = false -> expanded raw dict = raw.
Proof. unfold expanded. by intros ->. Qed.

(** X15.  A verify request with no payload and no usable channel id -- the
    id absent, empty or blank, or known neither to the payload store nor to
    the prescription index -- is answered 400 "Prescription not found ..."
    and changes nothing. *)
Theorem verify_nothing_to_verify w req st :
  truthy (payload req) = false ->
  normalized (topicID req) = JUndef \/
    (exists t, normalized (topicID req) = JStr t /\
               inMemoryStore st !! t = None /\ prescriptionIndex st !! t = None) ->
  handler w req st = (Ok not_found, st) /\
  status not_found = 400%Z /\
  lookup_prop "valid" (body not_found) = JBool false.
Proof.
  intros Hp Ht. split; [|split; reflexivity].
  apply wp_eq. apply wp_handler; [done | |].
  - intros reply Hf. exfalso. revert Hf. unfold find_payload. rewrite Hp. cbn [negb andb].
    destruct Ht as [->|(t & -> & Hm & Hi)]; cbn [truthy]; [congruence|].
    destruct (negb (t =? "")%string); [|congruence].
    cbn [get_val_at]. unfold get_val. rewrite Hm, Hi. cbn. congruence.
  - intros [Hf _]. exfalso. revert Hf. unfold find_payload. rewrite Hp. cbn [negb andb].
    destruct Ht as [->|(t & -> & Hm & Hi)]; cbn [truthy]; [congruence|].
    destruct (negb (t =? "")%string); [|congruence].
    cbn [get_val_at]. unfold get_val. rewrite Hm, Hi. cbn. congruence.
Qed.

(** X16.  What the payload store holds decides, not what the presented
    payload says.  When the channel named by the payload's [topicID] was
    last dispensed or paid and its stored count has reached the stored
    maximum, the request is refused with 409 "Prescription fully dispensed
    (c/N)" -- whatever counts, version, validity or nonce the payload
    carries -- and nothing is written. *)
Theorem verify_refuses_exhausted_channel w req st o t c N :
  payload req = JObj o ->
  Compressor.is_compressed (JObj o) = false ->
  lookup_prop "topicID" o = JStr t ->
  lastEventTypePerTopic st !! t = Some "dispensed" \/
    lastEventTypePerTopic st !! t = Some "paid" ->
  dispenseCount_of st t = JNum c ->
  maxDispenses_of st t = JNum N ->
  (1 <= N <= c)%Z ->
  handler w req st = (Ok (fully_dispensed 409 (JNum c) (JNum N)), st) /\
  lookup_prop "message" (body (fully_dispensed 409 (JNum c) (JNum N)))
  = JStr ("Prescription fully dispensed (" +:+ show_Z c +:+ "/" +:+ show_Z N +:+ ")").
Proof.
  intros Hp Hnc Ht Hlast Hc HN Hle. split; [|reflexivity].
  assert (Hf : find_payload w req st = JObj o)
    by (rewrite find_payload_given; rewrite Hp; done).
  assert (He : effective_payload w req st = JObj o)
    by (unfold effective_payload; rewrite Hf; by apply expanded_plain).
  assert (Hs : screen w st (JObj o) = Some (fully_dispensed 409 (JNum c) (JNum N))).
  { unfold screen. cbn [opt_get]. rewrite Ht. cbn [get_str_at get_val_at].
    unfold dispenseCount_of, maxDispenses_of in Hc, HN. rewrite Hc, HN.
    rewrite !(or_num_pos c), !(or_num_pos N) by lia.
    assert (Hge : ge (JNum c) (JNum N) = true) by (rewrite ge_num; lia).
    rewrite Hge. unfold get_str.
    by destruct Hlast as [-> | ->]. }
  apply wp_eq. apply wp_handler.
  - rewrite Hf. done.
  - intros reply _. rewrite He, Hs. by intros [= <-].
  - intros [_ Hn]. rewrite He, Hs in Hn. done.
Qed.

(** X17.  The nonce guard reads the nonce under the key [nonce] only.  The
    one value a verify request can add to the consumed nonces is that field
    of the payload it checked; a payload that has no such field -- one that
    carries its nonce under the short key [n], as the QR payload does --
    leaves the set as it was and is not guarded against replay. *)
Theorem verify_consumes_long_nonce_only w req st :
  let n := opt_get (effective_payload w req st) "nonce" in
  let st' := (handler w req st).2 in
  (usedNonces st' = usedNonces st \/
   usedNonces st' = usedNonces st ++ [n] /\ truthy n = true) /\
  (truthy n = false -> usedNonces st' = usedNonces st).
Proof.
  cbv zeta.
  change (wp (handler w req) st (fun _ st' =>
    (usedNonces st' = usedNonces st \/
     usedNonces st' = usedNonces st ++ [opt_get (effective_payload w req st) "nonce"] /\
     truthy (opt_get (effective_payload w req st) "nonce") = true) /\
    (truthy (opt_get (effective_payload w req st) "nonce") = false ->
     usedNonces st' = usedNonces st))).
  apply wp_handler; [by auto | by auto |]. intros _.
  apply wp_guarded.
  - intros Ht _. wp_simpl. split; [by left | congruence].
  - intros Ht _. apply wp_conclude. intros o st' [->|[e ->]] _ _.
    all: destruct o; wp_simpl; try wp_step; store_simpl.
    all: split; [by right | congruence].
  - intros Ht. apply wp_conclude. intros o st' [->|[e ->]] _ _.
    all: destruct o; wp_simpl; try wp_step; store_simpl.
    all: split; [by left | done].
Qed.

End VerifyExtras.
Section VerifyAfterIssue.
Context `{External}.
Import Verify.

Lemma or_truthy a b : truthy a = true -> or a b = a.
Proof. unfold or. by intros ->. Qed.

Lemma or_falsy a b : truthy a = false -> or a b = b.
Proof. unfold or. by intros ->. Qed.

Lemma truthy_or_r a b : truthy b = true -> truthy (or a b) = true.
Proof. unfold or. intros Hb. by destruct (truthy a) eqn:E. Qed.

Lemma truthy_not_nullish v : truthy v = true -> nullish v = false.
Proof. by destruct v. Qed.

Lemma coalesce_truthy a b : truthy a = true -> coalesce a b = a.
Proof. intros Ha. unfold coalesce. by rewrite (truthy_not_nullish a Ha). Qed.

(** The stored event of a channel passes the checks that come before the
    nonce guard, at any time. *)
Lemma screen_issued w wi ireq st N :
  lastEventTypePerTopic st !! Issue.topicID ireq = Some "issued" ->
  or (opt_get (Issue.formData ireq) "maxDispenses") (JNum 1) = JNum N ->
  (1 <= N)%Z ->
  screen w st (JObj (Issue.completePayload wi ireq)) = None.
Proof.
  intros Hlast HN Hpos.
  destruct (issued_fields wi ireq) as (_ & Et & _ & Ec & Em & _ & Ev & Eu & Edc & Emd).
  unfold screen. cbn [opt_get]. rewrite Et, Ev, Eu, Ec, Em, Edc, Emd, HN.
  cbn [get_str_at]. unfold get_str. rewrite Hlast.
  cbn [from_option is_str String.eqb Ascii.eqb Bool.eqb orb andb truthy negb coalesce
       nullish is_undef].
  rewrite ge_num. destruct (N <=? 0)%Z eqn:E; [lia|done].
Qed.


(** X19.  A verify request whose [topicID] is a prescription id, not a
    channel id, is checked on a payload rebuilt from the prescription index
    -- which has neither counts nor a nonce nor a validity.  It is accepted
    whatever the stores say about the prescription's channel, and consumes
    no nonce: it can be repeated at will, also after the last dispense. *)
Theorem verify_by_prescription_id_always_accepted w req st x p :
  truthy (payload req) = false ->
  normalized (topicID req) = JStr x ->
  inMemoryStore st !! x = None ->
  lastEventTypePerTopic st !! x = None ->
  prescriptionIndex st !! x = Some p ->
  truthy p = true ->
  fails w CHashIdentifier = false -> fails w CLogHCSEvent = false ->
  exists reply,
    (handler w req st).1 = Ok reply /\
    status reply = 200%Z /\
    lookup_prop "success" (body reply) = JBool true /\
    lookup_prop "valid" (body reply) = JBool true /\
    usedNonces (handler w req st).2 = usedNonces st.
Proof.
  intros Hp Ht Hm Hl Hi Htp G1 G2.
  assert (Htt : truthy (JStr x) = true).
  { unfold normalized in Ht. destruct (topicID req); try discriminate.
    destruct (truthy (JStr s) && _) eqn:E; [|discriminate].
    injection Ht as <-. by apply andb_true_iff in E as [-> _]. }
  set (rebuilt := JObj (literal
          [ ("eventType", JStr "issued");
            ("topicID", JStr x);
            ("prescriptionId", or (opt_get p "prescriptionId") (opt_get p "id"));
            ("doctorNationalId", or (opt_get p "doctorNationalId")
                                    (normalized (doctorNationalId req)));
            ("timestamp", or (opt_get p "date") (JStr (now_iso w)));
            ("maxDispenses", or (opt_get p "maxDispenses") (JNum 1)) ])).
  assert (Hfind : find_payload w req st = rebuilt).
  { unfold find_payload. rewrite Hp, Ht, Htt. cbn [negb andb get_val_at].
    unfold get_val. rewrite Hm, Hi. cbn [default from_option id opt_get or truthy negb].
    by rewrite Htp. }
  assert (Heff : effective_payload w req st = rebuilt).
  { unfold effective_payload. rewrite Hfind. by apply expanded_plain. }
  assert (Hscr : screen w st rebuilt = None).
  { unfold screen, rebuilt. cbn [opt_get literal spread fold_left set_prop lookup_prop
      String.eqb Ascii.eqb Bool.eqb fst snd get_str_at get_val_at].
    unfold get_str, get_val. rewrite Hl, Hm. reflexivity. }
  exists (accepted req rebuilt (fraudCheck rebuilt (geo req))).
  enough (wp (handler w req) st (fun o st' =>
            o = Ok (accepted req rebuilt (fraudCheck rebuilt (geo req))) /\
            usedNonces st' = usedNonces st)) as [Ho Hu]
    by (repeat split; done).
  apply wp_handler.
  - rewrite Hfind. done.
  - intros reply _. rewrite Heff, Hscr. done.
  - intros _. rewrite Heff. apply wp_guarded.
    + intros Hn. discriminate Hn.
    + intros Hn. discriminate Hn.
    + intros _. apply wp_conclude. intros o s Hs _ Hok.
      rewrite (Hok G1 G2). wp_simpl.
      destruct Hs as [->|[e ->]]; store_simpl; done.
Qed.

End VerifyAfterIssue.
Section QrExtras.
Context `{External}.
Import Verify.

Lemma or_str s b : s <> "" -> or (JStr s) b = JStr s.
Proof. intros Hs. apply or_truthy. by apply truthy_str. Qed.

Lemma app_nonempty_l (a b : string) : a <> "" -> a +:+ b <> "".
Proof. destruct a; [done|]. intros _. discriminate. Qed.

Lemma app_nonempty_r (a b : string) : b <> "" -> a +:+ b <> "".
Proof. destruct a; [done|]. intros _. discriminate. Qed.

Lemma geotag_truthy geo g : Qr.geotag geo = Some g -> truthy g = true.
Proof.
  unfold Qr.geotag, Issue.geotag. destruct (truthy geo); [|by intros [= <-]].
  destruct (Issue.toFixed2 (opt_get geo "lat")) as [lat|]; [|done].
  destruct (Issue.toFixed2 (opt_get geo "lng")) as [lng|]; [|done].
  by intros [= <-].
Qed.

Lemma unit_text_nonempty v :
  Qr.textual v = true -> to_string (or v (JStr "mg")) <> "".
Proof.
  destruct v as [| | | | |s| |]; try discriminate; intros _.
  unfold or. cbn [truthy].
  destruct (String.eqb_spec s ""); cbn [negb to_string]; [discriminate|done].
Qed.

(** The verifier's reconstruction of what was signed, on a QR payload as
    issued. *)
Lemma signedPayload_of_qr w req g rest :
  Qr.geotag (Issue.geo req) = Some g ->
  truthy (Issue.nationalId req) = true ->
  Issue.topicID req <> "" ->
  Qr.hashedPatientId req <> "" ->
  hashIdentifier (to_string (Issue.nationalId req)) salt (JStr (Issue.prescriptionId req)) <> "" ->
  Qr.validUntil w <> "" ->
  randomHex (entropy w) <> "" ->
  Qr.textual (opt_get (Qr.firstMed req) "unit") = true ->
  signedPayload (JObj (Qr.unsigned w req g ++ rest)) = Qr.unsigned w req g.
Proof.
  intros Hg Hid Ht Hh Hp Hu Hn Hunit.
  unfold signedPayload, Qr.unsigned, Qr.doctorIdHash. rewrite Hid.
  cbn [opt_get literal spread fold_left set_prop app lookup_prop
       String.eqb Ascii.eqb Bool.eqb fst snd].
  rewrite (or_str (Issue.topicID req)), (or_str (Qr.hashedPatientId req)),
    (or_str (Qr.validUntil w)), (or_str (randomHex (entropy w))) by done.
  rewrite (or_str (hashIdentifier _ _ _)) by done.
  rewrite (or_truthy g) by (by eapply geotag_truthy).
  rewrite (or_truthy (or (opt_get (Qr.firstMed req) "code") (JStr "UNKNOWN")))
    by (by apply truthy_or_r).
  rewrite (or_truthy (or (opt_get (Qr.firstMed req) "code") (JStr "UNKNOWN")))
    by (by apply truthy_or_r).
  rewrite (or_str (_ +:+ to_string (or (opt_get (Qr.firstMed req) "unit") (JStr "mg"))))
    by (by apply app_nonempty_r, unit_text_nonempty).
  set (i := or (opt_get (Qr.firstMed req) "instructions") _).
  assert (Hi : truthy i = true).
  { subst i. apply truthy_or_r. apply truthy_str.
    apply app_nonempty_r. by apply app_nonempty_l. }
  rewrite !(or_truthy i) by done.
  rewrite (coalesce_truthy (or (opt_get (Issue.formData req) "maxDispenses") (JNum 1)))
    by (by apply truthy_or_r).
  rewrite (coalesce_truthy (or (opt_get (Issue.formData req) "maxDispenses") (JNum 1)))
    by (by apply truthy_or_r).
  reflexivity.
Qed.

Lemma signatureValid_with vreq payload id signature :
  normalized (doctorNationalId vreq) = JStr id ->
  or (opt_get payload "signature") (opt_get payload "s") = signature ->
  truthy signature = true ->
  signatureValid vreq payload = verifySignature (signedPayload payload) signature id.
Proof. intros Hd Hs Ht. unfold signatureValid. by rewrite Hd, Hs, Ht. Qed.

(** X20.  What the verifier checks is what the issuer signed.  For a QR
    payload built by the issue route for a doctor who gave a national id,
    the structure that [/api/verify] rebuilds from the payload's fields is,
    field by field and in the same order, the twelve-field structure that
    was passed to [signPayload]; the signature it hands to
    [verifySignature] is the one stored under [s].  So the reported
    [signatureValid] is the verdict of [verifySignature] on the issuer's own
    structure and signature. *)
Theorem qr_signature_checked_as_signed w req qr g id vreq :
  Qr.qrPayload w req = Some qr ->
  Qr.geotag (Issue.geo req) = Some g ->
  Issue.nationalId req = JStr id -> id <> "" ->
  Issue.topicID req <> "" ->
  Qr.hashedPatientId req <> "" ->
  hashIdentifier id salt (JStr (Issue.prescriptionId req)) <> "" ->
  Qr.validUntil w <> "" ->
  randomHex (entropy w) <> "" ->
  Qr.textual (opt_get (Qr.firstMed req) "unit") = true ->
  normalized (doctorNationalId vreq) = JStr id ->
  let signed := Qr.unsigned w req g in
  let signature := JStr ("hex:" +:+ signPayload signed id) in
  signedPayload (JObj qr) = signed /\
  lookup_prop "s" qr = signature /\
  signatureValid vreq (JObj qr) = verifySignature signed signature id.
Proof.
  intros Hqr Hg Hid Hne Ht Hh Hp Hu Hn Hunit Hdoc signed signature.
  assert (Htid : truthy (Issue.nationalId req) = true)
    by (rewrite Hid; by apply truthy_str).
  unfold Qr.qrPayload in Hqr. rewrite Hg, Htid, Hid in Hqr.
  cbn [mbind option_bind to_string] in Hqr. injection Hqr as <-.
  subst signed signature.
  change (set_prop "s" ?v (Qr.unsigned w req g))
    with (Qr.unsigned w req g ++ [("s", v)]).
  set (signed := Qr.unsigned w req g).
  set (signature := JStr ("hex:" +:+ signPayload signed id)).
  assert (Hsp : signedPayload (JObj (signed ++ [("s", signature)])) = signed).
  { apply signedPayload_of_qr; try done. by rewrite Hid. }
  split; [exact Hsp|]. split; [reflexivity|].
  etransitivity;
    [apply (signatureValid_with vreq _ id signature Hdoc); reflexivity|].
  f_equal. exact Hsp.
Qed.

(** The checks before the nonce guard, on a QR payload as issued: only the
    clock can refuse it. *)
Lemma screen_qr w wi req qr st N :
  Qr.qrPayload wi req = Some qr ->
  or (opt_get (Issue.formData req) "maxDispenses") (JNum 1) = JNum N ->
  (1 <= N)%Z ->
  (forall t, parseDate (JStr (Qr.validUntil wi)) = Some t -> (now_ms w <= t)%Z) ->
  screen w st (JObj qr) = None /\
  opt_get (JObj qr) "nonce" = JUndef /\
  Compressor.is_compressed (JObj qr) = false.
Proof.
  intros Hqr HN Hpos Htime.
  unfold Qr.qrPayload in Hqr.
  destruct (Qr.geotag (Issue.geo req)) as [g|]; [|done].
  cbn [mbind option_bind] in Hqr. injection Hqr as <-.
  assert (Hscr : forall rest,
            rest = [] \/ (exists v, rest = [("s", v)]) ->
            screen w st (JObj (Qr.unsigned wi req g ++ rest)) = None).
  { intros rest Hrest. unfold screen, Qr.unsigned.
    destruct Hrest as [->|[v ->]].
    all: cbn [opt_get literal spread fold_left set_prop app lookup_prop
         String.eqb Ascii.eqb Bool.eqb fst snd get_str_at get_val_at
         is_str orb andb truthy negb coalesce nullish is_undef].
    all: rewrite HN.
    all: destruct (negb (Qr.validUntil wi =? "")%string).
    all: try destruct (parseDate (JStr (Qr.validUntil wi))) as [t|] eqn:Ep.
    all: try (specialize (Htime t eq_refl); rewrite (proj2 (Z.ltb_ge _ _)) by lia).
    all: rewrite ge_num; destruct (N <=? 0)%Z eqn:E; [lia|done]. }
  destruct (truthy (Issue.nationalId req)).
  - change (set_prop "s" ?v (Qr.unsigned wi req g))
      with (Qr.unsigned wi req g ++ [("s", v)]).
    split; [apply Hscr; right; by eexists|]. split; reflexivity.
  - rewrite <- (app_nil_r (Qr.unsigned wi req g)).
    split; [apply Hscr; by left|]. split; reflexivity.
Qed.

(** X21.  A QR payload as issued names its channel under [t], its counts
    under [dc] and [md] and its nonce under [n].  The verify handler looks
    the stored count up under [payload.topicID] and guards the nonce under
    [payload.nonce], so on such a payload it consults neither: until the
    validity date the payload is accepted whatever the stores hold -- also
    when the channel is fully dispensed, and as many times as it is
    presented. *)
Theorem issued_qr_accepted_whatever_is_stored wi ireq qr N w req st :
  Qr.qrPayload wi ireq = Some qr ->
  or (opt_get (Issue.formData ireq) "maxDispenses") (JNum 1) = JNum N ->
  (1 <= N)%Z ->
  payload req = JObj qr ->
  (forall t, parseDate (JStr (Qr.validUntil wi)) = Some t -> (now_ms w <= t)%Z) ->
  fails w CHashIdentifier = false -> fails w CLogHCSEvent = false ->
  exists reply,
    (handler w req st).1 = Ok reply /\
    status reply = 200%Z /\
    lookup_prop "success" (body reply) = JBool true /\
    lookup_prop "valid" (body reply) = JBool true /\
    usedNonces (handler w req st).2 = usedNonces st /\
    inMemoryStore (handler w req st).2 = inMemoryStore st.
Proof.
  intros Hqr HN Hpos Hp Htime G1 G2.
  destruct (screen_qr w wi ireq qr st N Hqr HN Hpos Htime) as (Hscr & Hnonce & Hnc).
  assert (Hfind : find_payload w req st = JObj qr)
    by (rewrite find_payload_given; rewrite Hp; done).
  assert (Heff : effective_payload w req st = JObj qr)
    by (unfold effective_payload; rewrite Hfind; by apply expanded_plain).
  exists (accepted req (JObj qr) (fraudCheck (JObj qr) (geo req))).
  enough (wp (handler w req) st (fun o st' =>
            o = Ok (accepted req (JObj qr) (fraudCheck (JObj qr) (geo req))) /\
            usedNonces st' = usedNonces st /\
            inMemoryStore st' = inMemoryStore st)) as (Ho & Hu & Hm)
    by (repeat split; done).
  apply wp_handler.
  - rewrite Hfind. done.
  - intros reply _. rewrite Heff, Hscr. done.
  - intros _. rewrite Heff. apply wp_guarded; rewrite Hnonce.
    + intros Hn. discriminate Hn.
    + intros Hn. discriminate Hn.
    + intros _. apply wp_conclude. intros o s Hs _ Hok.
      rewrite (Hok G1 G2). wp_simpl.
      destruct Hs as [->|[e ->]]; store_simpl; done.
Qed.

End QrExtras.
Section IdsExtras.
Import Ids.

(** *** Decimal numerals *)

Lemma show_Z_parses z : NilZero.int_of_string (show_Z z) = Some (Z.to_int z).
Proof.
  unfold show_Z. apply NilZero.isi; destruct z; simpl; try discriminate.
  all: intros [= E]; by apply Unsigned.to_uint_nonnil in E.
Qed.

Lemma show_Z_inj a b : show_Z a = show_Z b -> a = b.
Proof.
  intros E. apply DecimalZ.to_int_inj.
  pose proof (show_Z_parses a) as Ha. rewrite E, show_Z_parses in Ha. congruence.
Qed.

(** *** Strings of equal length *)

Lemma app_inj_head (a c b d : string) :
  String.length a = String.length c -> a +:+ b = c +:+ d -> a = c /\ b = d.
Proof.
  revert c. induction a as [|x a IH]; intros [|y c] Hl E; try discriminate.
  - done.
  - simpl in *. injection E as -> E. injection Hl as Hl.
    destruct (IH c Hl E) as [-> ->]. done.
Qed.

Lemma app_inj_tail (a c b d : string) :
  String.length b = String.length d -> a +:+ b = c +:+ d -> a = c /\ b = d.
Proof.
  intros Hl E. apply app_inj_head; [|done].
  apply (f_equal String.length) in E. rewrite !length_app_string in E. lia.
Qed.

(** *** Padded fields *)

Lemma two_digits_decode : forallb (decodes 2) (seqZ 0 100) = true.
Proof. vm_compute. reflexivity. Qed.

Lemma three_digits_decode : forallb (decodes 3) (seqZ 0 1000) = true.
Proof. vm_compute. reflexivity. Qed.

Lemma padded_2 n : (0 <= n < 100)%Z ->
  String.length (padStart 2 (show_Z n)) = 2%nat /\
  Z.of_int <$> NilZero.int_of_string (padStart 2 (show_Z n)) = Some n.
Proof.
  intros Hn. pose proof two_digits_decode as Hall.
  rewrite forallb_forall in Hall. specialize (Hall n).
  assert (Hin : In n (seqZ 0 100)) by (apply list_elem_of_In, elem_of_seqZ; lia).
  apply Hall in Hin. unfold decodes in Hin.
  apply andb_true_iff in Hin as [H1 H2].
  split; [by apply Nat.eqb_eq | by apply bool_decide_eq_true in H2].
Qed.

Lemma padded_3 n : (0 <= n < 1000)%Z ->
  String.length (padStart 3 (show_Z n)) = 3%nat /\
  Z.of_int <$> NilZero.int_of_string (padStart 3 (show_Z n)) = Some n.
Proof.
  intros Hn. pose proof three_digits_decode as Hall.
  rewrite forallb_forall in Hall. specialize (Hall n).
  assert (Hin : In n (seqZ 0 1000)) by (apply list_elem_of_In, elem_of_seqZ; lia).
  apply Hall in Hin. unfold decodes in Hin.
  apply andb_true_iff in Hin as [H1 H2].
  split; [by apply Nat.eqb_eq | by apply bool_decide_eq_true in H2].
Qed.

Lemma same_readings a b :
  in_range a -> in_range b ->
  dateStr a +:+ "-" +:+ sequence a = dateStr b +:+ "-" +:+ sequence b ->
  getFullYear a = getFullYear b /\ getMonth a = getMonth b /\
  getDate a = getDate b /\ getMilliseconds a = getMilliseconds b.
Proof.
  intros (Ma & Da & Sa) (Mb & Db & Sb) E.
  destruct (padded_3 (getMilliseconds a)) as [La Pa]; [lia|].
  destruct (padded_3 (getMilliseconds b)) as [Lb Pb]; [lia|].
  destruct (padded_2 (getMonth a + 1)) as [LMa PMa]; [lia|].
  destruct (padded_2 (getMonth b + 1)) as [LMb PMb]; [lia|].
  destruct (padded_2 (getDate a)) as [LDa PDa]; [lia|].
  destruct (padded_2 (getDate b)) as [LDb PDb]; [lia|].
  apply app_inj_tail in E as [Edate Eseq];
    [|unfold sequence; rewrite !length_app_string; by rewrite La, Lb].
  injection Eseq as Eseq. change (sequence a = sequence b) in Eseq.
  unfold sequence in Eseq.
  unfold dateStr in Edate.
  apply app_inj_tail in Edate as [Ey Emd];
    [|rewrite !length_app_string; by rewrite LMa, LMb, LDa, LDb].
  apply app_inj_head in Emd as [Em Ed]; [|by rewrite LMa, LMb].
  rewrite Eseq in Pa. rewrite Em in PMa. rewrite Ed in PDa.
  apply show_Z_inj in Ey.
  repeat split; [done| |congruence..].
  assert (getMonth a + 1 = getMonth b + 1)%Z by congruence. lia.
Qed.

(** X22.  Two prescription ids -- and two invoice ids -- generated at
    instants within the clock's ranges are equal exactly when the year, the
    month, the day and the millisecond reading agree.  The hour, the minute
    and the second play no part: the "sequence" is the millisecond of the
    second, so a day has at most a thousand ids and two instants of one day
    with the same millisecond reading get the same id. *)
Theorem generated_ids_coincide_iff a b :
  in_range a -> in_range b ->
  let same :=
    getFullYear a = getFullYear b /\ getMonth a = getMonth b /\
    getDate a = getDate b /\ getMilliseconds a = getMilliseconds b in
  (generatePrescriptionId a = generatePrescriptionId b <-> same) /\
  (generateInvoiceId a = generateInvoiceId b <-> same).
Proof.
  intros Ha Hb same. subst same. split; split.
  - unfold generatePrescriptionId. intros E. injection E as E. by apply same_readings.
  - intros (Ey & Em & Ed & Es).
    unfold generatePrescriptionId, dateStr, sequence. by rewrite Ey, Em, Ed, Es.
  - unfold generateInvoiceId. intros E. injection E as E. by apply same_readings.
  - intros (Ey & Em & Ed & Es).
    unfold generateInvoiceId, dateStr, sequence. by rewrite Ey, Em, Ed, Es.
Qed.

End IdsExtras.
Section PaymentAfterIssue.
Context `{External}.
Variable remote : Remote.

(** A payment that finds its channel and whose event the ledger takes. *)
Lemma payment_emitted w req st pid t :
  Payments.prescriptionId req = JStr pid -> pid <> "" ->
  prescriptionToTopic st !! pid = Some t -> t <> "" ->
  truthy (Payments.pharmacistNationalId req) = true ->
  undisturbed w -> fails w CSubmitMessage = false ->
  let event := signed_event w (Payments.base w req (JStr t) (head_of st t))
                 (to_string (Payments.pharmacistNationalId req)) in
  wp (Payments.complete w req) st (fun o st' =>
    o = Ok (Payments.completed w req) /\
    (exists args,
       hcsSubmitted st' = hcsSubmitted st ++
         [{| sub_args := args; sub_event := event; sub_accepted := true |}]) /\
    lastEventHashPerTopic st' = <[t := hash_of event]> (lastEventHashPerTopic st) /\
    inMemoryStore st' = inMemoryStore st).
Proof.
  intros Hpid Hne Ht Htne Hph (F1 & F2 & F3 & F4 & F5) Hsub event.
  unfold Payments.complete. rewrite Hpid, (truthy_str pid Hne).
  wp_step. wp_step. unfold Payments.emit_paid. wp_step. wp_step. wp_simpl.
  rewrite Hpid. cbn [get_str_at]. unfold get_str. rewrite Ht. cbn [from_option].
  rewrite (truthy_str t Htne), Hph. cbn [andb].
  repeat wp_step.
  all: try (unfold Payments.record_paid; repeat wp_step).
  all: wp_simpl; store_simpl.
  all: subst event; unfold head_of, get_str; rewrite ?Ht.
  all: rewrite ?Hsub; cbn [negb].
  all: repeat split; try reflexivity.
  all: by eexists.
Qed.


End PaymentAfterIssue.

Section AmendExtras.
Context `{External}.
Variable remote : Remote.

(** X6.  An amendment is sent to the ledger and recorded nowhere else.  For
    a prescription that has a channel, the 'amended' message -- which
    carries the new content hash but no [prevEventHash], [contentHash] or
    [signature] of its own -- is handed to the ledger; the stored event, the
    channel head and the last event type stay as they were, so the event
    that follows on the channel names the amendment's predecessor, not the
    amendment. *)
Theorem amendment_outside_the_chain w req st t :
  prescriptionToTopic st !! Amend.prescriptionId req = Some t -> t <> "" ->
  fails w CSubmitMessage = false ->
  let st' := (Amend.handler remote w req st).2 in
  let message := Amend.on_channel w req (JStr t) in
  (Amend.handler remote w req st).1 = Ok (json [("success", JBool true)]) /\
  hcsSubmitted st' = hcsSubmitted st ++
    [{| sub_args := [JObj message]; sub_event := message; sub_accepted := true |}] /\
  lookup_prop "hashes" message
  = JObj [("contentHash", JStr (Amend.contentHash req))] /\
  lookup_prop "prevEventHash" message = JUndef /\
  lookup_prop "contentHash" message = JUndef /\
  lookup_prop "signature" message = JUndef /\
  inMemoryStore st' = inMemoryStore st /\
  lastEventHashPerTopic st' = lastEventHashPerTopic st /\
  lastEventTypePerTopic st' = lastEventTypePerTopic st.
Proof.
  intros Ht Hne Hf st' message.
  enough (wp (Amend.handler remote w req) st (fun o s =>
            o = Ok (json [("success", JBool true)]) /\
            hcsSubmitted s = hcsSubmitted st ++
              [{| sub_args := [JObj message]; sub_event := message;
                  sub_accepted := true |}] /\
            inMemoryStore s = inMemoryStore st /\
            lastEventHashPerTopic s = lastEventHashPerTopic st /\
            lastEventTypePerTopic s = lastEventTypePerTopic st))
    as (Ho & Hs & Hm & Hh & Hty) by (repeat split; done).
  unfold Amend.handler. wp_go. wp_go. wp_go. wp_go. wp_simpl.
  unfold get_str. rewrite Ht. cbn [from_option].
  rewrite (truthy_str _ Hne).
  repeat wp_go. wp_simpl. store_simpl. rewrite Hf. done.
Qed.

End AmendExtras.
Section CatalogExtras.
Import Catalog.

(** *** Characters *)

Lemma alnum_fixed c :
  is_alnum c = true ->
  unaccent c = c /\ toLowerCase c = c /\ is_white c = false.
Proof.
  destruct c as [[] [] [] [] [] [] [] []]; vm_compute; intros; try discriminate;
    repeat split.
Qed.

Lemma space_fixed : unaccent " " = " "%char /\ toLowerCase " " = " "%char.
Proof. by vm_compute. Qed.

(** *** The shape of a squeezed and trimmed string *)

Lemma trimStart_squeeze_true s : trimStart (squeeze true s) = squeeze true s.
Proof.
  induction s as [|c s IH]; [done|]. cbn [squeeze].
  destruct (is_alnum c) eqn:E; [|exact IH].
  cbn [trimStart]. by rewrite (proj2 (proj2 (alnum_fixed c E))).
Qed.

Lemma trimStart_squeeze s : trimStart (squeeze false s) = squeeze true s.
Proof.
  destruct s as [|c s]; [done|]. cbn [squeeze].
  destruct (is_alnum c) eqn:E.
  - cbn [trimStart]. by rewrite (proj2 (proj2 (alnum_fixed c E))).
  - cbn [trimStart]. change (is_white " ") with true. cbv iota.
    apply trimStart_squeeze_true.
Qed.

Lemma trimEnd_cons_alnum c t :
  is_alnum c = true ->
  exists t', trimEnd (String c t) = String c t' /\ t' = trimEnd t.
Proof.
  intros E. cbn [trimEnd]. destruct (trimEnd t) as [|d t'] eqn:Et.
  - rewrite (proj2 (proj2 (alnum_fixed c E))). by exists "".
  - by eexists.
Qed.

Lemma squeezed_shape s :
  spaced false (trimEnd (squeeze false s)) = true /\
  (trimEnd (squeeze true s) = "" \/ spaced true (trimEnd (squeeze true s)) = true).
Proof.
  induction s as [|c s [IH1 IH2]]; [by split; [|left]|].
  cbn [squeeze]. destruct (is_alnum c) eqn:E.
  - destruct (trimEnd_cons_alnum c (squeeze false s) E) as (t' & -> & ->).
    cbn [spaced]. rewrite E. split; [done | by right].
  - split; [|done].
    cbn [trimEnd]. destruct IH2 as [-> | IH2]; [done|].
    destruct (trimEnd (squeeze true s)) as [|d t] eqn:Et; [done|].
    cbn [spaced] in IH2 |- *.
    change (is_alnum " ") with false. cbv iota.
    change (Ascii.eqb " " " ") with true. exact IH2.
Qed.

Lemma squeezed_normal s : normal (trimEnd (squeeze true s)) = true.
Proof.
  induction s as [|c s IH]; [done|]. cbn [squeeze].
  destruct (is_alnum c) eqn:E; [|exact IH].
  destruct (trimEnd_cons_alnum c (squeeze false s) E) as (t' & -> & ->).
  cbn [normal]. rewrite E. apply squeezed_shape.
Qed.

Lemma normalizeKey_normal key : normal (normalizeKey key) = true.
Proof.
  unfold normalizeKey. destruct (String.eqb key ""); [done|].
  unfold trim. rewrite trimStart_squeeze. apply squeezed_normal.
Qed.

(** *** Normal keys are fixed *)

Lemma spaced_chars_fixed b s :
  spaced b s = true ->
  map_chars unaccent s = s /\ map_chars toLowerCase s = s.
Proof.
  revert b. induction s as [|c s IH]; intros b Hs; [done|].
  cbn [spaced] in Hs. cbn [map_chars]. destruct (is_alnum c) eqn:E.
  - destruct (alnum_fixed c E) as (-> & -> & _).
    destruct (IH false Hs) as [-> ->]. done.
  - apply andb_true_iff in Hs as [Hc Hs]. apply andb_true_iff in Hc as [Hc _].
    apply Ascii.eqb_eq in Hc. subst c.
    destruct space_fixed as [-> ->].
    destruct (IH true Hs) as [-> ->]. done.
Qed.

Lemma spaced_squeeze b s : spaced b s = true -> squeeze b s = s.
Proof.
  revert b. induction s as [|c s IH]; intros b Hs; [done|].
  cbn [spaced] in Hs. cbn [squeeze]. destruct (is_alnum c) eqn:E.
  - by rewrite (IH false Hs).
  - apply andb_true_iff in Hs as [Hc Hs]. apply andb_true_iff in Hc as [Hc Hb].
    apply Ascii.eqb_eq in Hc. subst c.
    destruct b; [discriminate|]. by rewrite (IH true Hs).
Qed.

Lemma spaced_trimEnd b s : spaced b s = true -> trimEnd s = s.
Proof.
  revert b. induction s as [|c s IH]; intros b Hs; [done|].
  cbn [spaced] in Hs. cbn [trimEnd]. destruct (is_alnum c) eqn:E.
  - rewrite (IH false Hs). destruct s; [|done].
    by rewrite (proj2 (proj2 (alnum_fixed c E))).
  - apply andb_true_iff in Hs as [_ Hs].
    rewrite (IH true Hs). by destruct s.
Qed.

Lemma normal_fixed s : normal s = true -> normalizeKey s = s.
Proof.
  destruct s as [|c s]; [done|]. intros Hn. cbn [normal] in Hn.
  apply andb_true_iff in Hn as [E Hs].
  assert (Hsp : spaced false (String c s) = true) by (cbn [spaced]; by rewrite E).
  unfold normalizeKey. cbn [String.eqb].
  destruct (spaced_chars_fixed false _ Hsp) as [-> ->].
  rewrite (spaced_squeeze false _ Hsp). unfold trim.
  cbn [trimStart]. rewrite (proj2 (proj2 (alnum_fixed c E))).
  by apply (spaced_trimEnd false).
Qed.

(** X23.  [normalizeKey] yields words of lower-case letters and digits with
    single spaces between them and none at the ends, whatever the case, the
    accents, the punctuation and the spacing of the key.  The keys it leaves
    as they are are exactly the keys of that shape, and so normalizing twice
    is normalizing once. *)
Theorem normalizeKey_idempotent key :
  normal (normalizeKey key) = true /\
  (normalizeKey key = key <-> normal key = true) /\
  normalizeKey (normalizeKey key) = normalizeKey key.
Proof.
  split; [apply normalizeKey_normal|]. split.
  - split; [|apply normal_fixed].
    intros E. rewrite <- E. apply normalizeKey_normal.
  - apply normal_fixed, normalizeKey_normal.
Qed.

(** *** Trimmed values *)

Lemma trimEnd_idem s : trimEnd (trimEnd s) = trimEnd s.
Proof.
  induction s as [|c s IH]; [done|]. cbn [trimEnd].
  destruct (trimEnd s) as [|d t] eqn:Et.
  - destruct (is_white c) eqn:E; [done|]. cbn [trimEnd]. by rewrite E.
  - cbn [trimEnd]. cbn [trimEnd] in IH. by rewrite IH.
Qed.

Lemma trimStart_trimEnd s :
  trimStart s = s -> trimStart (trimEnd s) = trimEnd s.
Proof.
  destruct s as [|c s]; [done|]. cbn [trimStart].
  destruct (is_white c) eqn:E.
  - intros Hs. exfalso.
    assert (Hlen : forall u, (String.length (trimStart u) <= String.length u)%nat).
    { induction u as [|d u IHu]; [done|]. cbn [trimStart].
      destruct (is_white d); simpl; lia. }
    pose proof (Hlen s) as Hl. rewrite Hs in Hl. simpl in Hl. lia.
  - intros _. cbn [trimEnd]. destruct (trimEnd s); rewrite ?E; cbn [trimStart]; by rewrite E.
Qed.

Lemma trimStart_idem s : trimStart (trimStart s) = trimStart s.
Proof.
  induction s as [|c s IH]; [done|]. cbn [trimStart].
  destruct (is_white c) eqn:E; [done|]. cbn [trimStart]. by rewrite E.
Qed.

Lemma trim_idem s : trim (trim s) = trim s.
Proof.
  unfold trim. rewrite trimStart_trimEnd by apply trimStart_idem.
  apply trimEnd_idem.
Qed.

Lemma firstFilled_trimmed row nCand keys v :
  firstFilled row nCand keys = Some v -> v <> "" /\ trim v = v.
Proof.
  induction keys as [|k keys IH]; [done|]. cbn [firstFilled].
  destruct (String.eqb (normalizeKey k) nCand && filled (lookup_prop k row)) eqn:E;
    [|exact IH].
  intros [= <-]. apply andb_true_iff in E as [_ Hf].
  unfold filled in Hf. apply andb_true_iff in Hf as [_ Hf].
  split; [|apply trim_idem].
  intros Hv. rewrite Hv in Hf. discriminate.
Qed.

Lemma pickField_trimmed row candidates :
  pickField row candidates = JUndef \/
  exists v, pickField row candidates = JStr v /\ v <> "" /\ trim v = v.
Proof.
  induction candidates as [|cand candidates IH]; [by left|]. cbn [pickField].
  destruct (firstFilled row (normalizeKey cand) (map fst row)) as [v|] eqn:E; [|exact IH].
  right. exists v. split; [done|]. by eapply firstFilled_trimmed.
Qed.

(** X24.  Every row of the CNOPS catalogue has a name.  Whatever rows the
    sheet holds, each entry the loader keeps was derived from one of them
    and carries under [name] a string that is not empty and has no white
    space at either end; a sheet row in which no name column has a filled
    cell is left out. *)
Theorem catalogue_rows_are_named rows r :
  In r (cnopsCatalog rows) ->
  exists row name,
    In row rows /\ r = deriveCatalogRow row /\
    lookup_prop "raw" r = JObj row /\
    lookup_prop "name" r = JStr name /\ name <> "" /\ trim name = name.
Proof.
  unfold cnopsCatalog. intros Hin. apply filter_In in Hin as [Hin Hname].
  apply in_map_iff in Hin as (row & <- & Hrow).
  assert (Hn : lookup_prop "name" (deriveCatalogRow row)
               = or (or (pickField row nameColumns) (pickField row ["Name"])) JUndef)
    by reflexivity.
  rewrite Hn in Hname.
  assert (Hpick : exists name,
            or (or (pickField row nameColumns) (pickField row ["Name"])) JUndef = JStr name /\
            name <> "" /\ trim name = name).
  { destruct (pickField_trimmed row nameColumns) as [E1|(v & E1 & Hv)];
      rewrite E1 in Hname |- *.
    - destruct (pickField_trimmed row ["Name"]) as [E2|(v & E2 & Hv)];
        rewrite E2 in Hname |- *; [discriminate Hname|].
      exists v. split; [|done].
      change (or JUndef (JStr v)) with (JStr v). apply or_str, Hv.
    - exists v. split; [|done]. rewrite !or_str by apply Hv. done. }
  destruct Hpick as (name & Ename & Hne & Htrim).
  exists row, name. rewrite Hn, Ename. done.
Qed.

End CatalogExtras.
Section OverlapExtras.
Context `{External}.
Import Overlap.

(** The two parts make up the deferred emission of [/api/payments]. *)
Lemma emit_paid_in_two_parts w req st :
  attempt (Payments.emit_paid w req) st = (begin w req ≫= finish w req) st.
Proof.
  unfold attempt, begin, finish, attempt, Payments.emit_paid, before_await, after_await,
    submitPrescriptionMessage, try_catch, mbind, M_bind, read, update, mret, M_ret.
  destruct (get_str_at (prescriptionToTopic st) (Payments.prescriptionId req));
    try reflexivity.
  destruct (truthy _ && truthy _); [|reflexivity].
  destruct (sign_event w _ _ _) as [[m|e] s1]; [|reflexivity].
  destruct (compress w m s1) as [[c|e] s2]; [|reflexivity].
  cbn. destruct (calling w CSubmitMessage _ _) as [[[]|e] s3]; reflexivity.
Qed.

Lemma overlapped_emits w1 req1 w2 req2 st pid1 pid2 t :
  Payments.prescriptionId req1 = JStr pid1 ->
  Payments.prescriptionId req2 = JStr pid2 ->
  prescriptionToTopic st !! pid1 = Some t ->
  prescriptionToTopic st !! pid2 = Some t ->
  t <> "" ->
  truthy (Payments.pharmacistNationalId req1) = true ->
  truthy (Payments.pharmacistNationalId req2) = true ->
  undisturbed w1 -> undisturbed w2 ->
  fails w1 CSubmitMessage = false -> fails w2 CSubmitMessage = false ->
  let event1 := signed_event w1 (Payments.base w1 req1 (JStr t) (head_of st t))
                  (to_string (Payments.pharmacistNationalId req1)) in
  let event2 := signed_event w2 (Payments.base w2 req2 (JStr t) (head_of st t))
                  (to_string (Payments.pharmacistNationalId req2)) in
  wp (overlapped w1 req1 w2 req2) st (fun _ st' =>
    (exists args1 args2,
       hcsSubmitted st' = hcsSubmitted st ++
         [{| sub_args := args1; sub_event := event1; sub_accepted := true |};
          {| sub_args := args2; sub_event := event2; sub_accepted := true |}]) /\
    lastEventHashPerTopic st' = <[t := hash_of event2]> (<[t := hash_of event1]> (lastEventHashPerTopic st))).
Proof.
  intros Hp1 Hp2 Ht1 Ht2 Htne Hph1 Hph2 (F1 & F2 & F3 & F4 & F5) (G1 & G2 & G3 & G4 & G5)
    Hs1 Hs2 event1 event2.
  unfold overlapped, begin, before_await.
  wp_step. wp_step. wp_step. wp_step. wp_simpl.
  rewrite Hp1. cbn [get_str_at]. unfold get_str. rewrite Ht1. cbn [from_option].
  rewrite (truthy_str t Htne), Hph1. cbn [andb].
  repeat wp_step. wp_simpl. store_simpl.
  rewrite Hp2. cbn [get_str_at]. unfold get_str. rewrite Ht2. cbn [from_option].
  rewrite (truthy_str t Htne), Hph2. cbn [andb].
  repeat wp_step.
  all: unfold finish, after_await; repeat wp_step.
  all: try (unfold Payments.record_paid; repeat wp_step).
  all: wp_simpl; store_simpl.
  all: rewrite ?Hs1, ?Hs2; cbn [negb on_topic signed built].
  all: subst event1 event2; unfold head_of, get_str.
  all: split; [eexists _, _; by rewrite <- app_assoc | reflexivity].
Qed.

(** The same two payments served one after the other: the second names the
    first. *)
Lemma in_turn_emits w1 req1 w2 req2 st pid1 pid2 t :
  Payments.prescriptionId req1 = JStr pid1 ->
  Payments.prescriptionId req2 = JStr pid2 ->
  prescriptionToTopic st !! pid1 = Some t ->
  prescriptionToTopic st !! pid2 = Some t ->
  t <> "" ->
  truthy (Payments.pharmacistNationalId req1) = true ->
  truthy (Payments.pharmacistNationalId req2) = true ->
  undisturbed w1 -> undisturbed w2 ->
  fails w1 CSubmitMessage = false -> fails w2 CSubmitMessage = false ->
  let event1 := signed_event w1 (Payments.base w1 req1 (JStr t) (head_of st t))
                  (to_string (Payments.pharmacistNationalId req1)) in
  let event2 := signed_event w2 (Payments.base w2 req2 (JStr t) (JStr (hash_of event1)))
                  (to_string (Payments.pharmacistNationalId req2)) in
  wp (in_turn w1 req1 w2 req2) st (fun _ st' =>
    (exists args1 args2,
       hcsSubmitted st' = hcsSubmitted st ++
         [{| sub_args := args1; sub_event := event1; sub_accepted := true |};
          {| sub_args := args2; sub_event := event2; sub_accepted := true |}]) /\
    lastEventHashPerTopic st' = <[t := hash_of event2]> (<[t := hash_of event1]> (lastEventHashPerTopic st))).
Proof.
  intros Hp1 Hp2 Ht1 Ht2 Htne Hph1 Hph2 (F1 & F2 & F3 & F4 & F5) (G1 & G2 & G3 & G4 & G5)
    Hs1 Hs2 event1 event2.
  unfold in_turn, Payments.emit_paid.
  wp_step. wp_step. wp_step. wp_step. wp_simpl.
  rewrite Hp1. cbn [get_str_at]. unfold get_str. rewrite Ht1. cbn [from_option].
  rewrite (truthy_str t Htne), Hph1. cbn [andb].
  repeat wp_step.
  all: try (unfold Payments.record_paid; repeat wp_step).
  all: wp_simpl; store_simpl.
  all: rewrite Hp2; cbn [get_str_at]; unfold get_str; rewrite Ht2; cbn [from_option].
  all: rewrite (truthy_str t Htne), Hph2; cbn [andb].
  all: repeat wp_step.
  all: try (unfold Payments.record_paid; repeat wp_step).
  all: wp_simpl; store_simpl.
  all: rewrite ?lookup_insert_eq; cbn [from_option].
  all: repeat match goal with
              | |- context [or (JStr (hash_of ?e)) JUndef] =>
                  change (or (JStr (hash_of e)) JUndef) with (JStr (hash_of e))
              end.
  all: rewrite ?Hs1, ?Hs2; cbn [negb].
  all: subst event1 event2; unfold head_of, get_str.
  all: split; [eexists _, _; by rewrite <- app_assoc | reflexivity].
Qed.


End OverlapExtras.

(** ** The statements at sample inputs *)

Section Instances.
Import Sample.

Lemma quiet_undisturbed now : undisturbed (quiet now).
Proof. by repeat split. Defined.

Lemma dispense_exactly_max_witness :
  (1 <= 2)%Z /\
  dispenseCount_of (store_with 2) "0.0.1001" = JNum 0 /\
  maxDispenses_of (store_with 2) "0.0.1001" = JNum 2 /\
  dispenseLocks (store_with 2) !! "0.0.1001" = None /\
  Forall (fun call => Dispense.topicID call.2 = "0.0.1001" /\ undisturbed call.1)
    three_calls /\
  dispenseCount_of (serve (take 3 three_calls) (store_with 2)).2 "0.0.1001"
    = JNum (Z.min (Z.of_nat (length (take 3 three_calls))) 2) /\
  (forall i r, (serve (take 3 three_calls) (store_with 2)).1 !! i = Some r ->
     r = Ok (if (Z.of_nat i <? 2)%Z then dispensed_ok
             else Dispense.fully_dispensed (JNum 2) (JNum 2))) /\
  lookup_prop "message" (body (Dispense.fully_dispensed (JNum 2) (JNum 2)))
    = JStr ("Prescription fully dispensed (" +:+ show_Z 2 +:+ "/" +:+ show_Z 2 +:+ ")").
Proof.
  assert (H1 : (1 <= 2)%Z) by lia.
  assert (H2 : dispenseCount_of (store_with 2) "0.0.1001" = JNum 0)
    by (vm_compute; reflexivity).
  assert (H3 : maxDispenses_of (store_with 2) "0.0.1001" = JNum 2)
    by (vm_compute; reflexivity).
  assert (H4 : dispenseLocks (store_with 2) !! "0.0.1001" = None)
    by (vm_compute; reflexivity).
  assert (H5 : Forall (fun call => Dispense.topicID call.2 = "0.0.1001" /\ undisturbed call.1)
                 three_calls).
  { repeat constructor. }
  do 5 (split; [assumption|]).
  exact (dispense_exactly_max 2 "0.0.1001" three_calls (store_with 2) H1 H2 H3 H4 H5 3%nat).
Defined.

Lemma dispense_conflict_when_locked_witness :
  dispenseLocks locked_store !! "0.0.1001"
    = Some {| Lock.owner := "PH2"; Lock.acquiredAt := 0 |} /\
  "PH2" <> "PH1" /\
  Lock.expired LOCK_TIMEOUT_MS (now_ms (quiet 1000))
    {| Lock.owner := "PH2"; Lock.acquiredAt := 0 |} = false /\
  Dispense.handler (quiet 1000) dispense_request locked_store
    = (Ok Dispense.conflict, locked_store) /\
  status Dispense.conflict = 409%Z /\
  lookup_prop "error" (body Dispense.conflict) = JStr "CONCURRENT_DISPENSE_ATTEMPT" /\
  lookup_prop "success" (body Dispense.conflict) = JBool false.
Proof.
  assert (H1 : dispenseLocks locked_store !! "0.0.1001"
               = Some {| Lock.owner := "PH2"; Lock.acquiredAt := 0 |})
    by (vm_compute; reflexivity).
  assert (H2 : "PH2" <> "PH1") by discriminate.
  assert (H3 : Lock.expired LOCK_TIMEOUT_MS (now_ms (quiet 1000))
                 {| Lock.owner := "PH2"; Lock.acquiredAt := 0 |} = false)
    by (vm_compute; reflexivity).
  do 3 (split; [assumption|]).
  exact (dispense_conflict_when_locked (quiet 1000) dispense_request locked_store
           {| Lock.owner := "PH2"; Lock.acquiredAt := 0 |} H1 H2 H3).
Defined.

Lemma dispense_lock_released_witness :
  lock_free (quiet 1) (store_with 2) "0.0.1001" "PH1" /\
  dispenseLocks (Dispense.handler (quiet 1) dispense_request (store_with 2)).2
    !! "0.0.1001" = None /\
  exists reply,
    (Dispense.handler (quiet 1) dispense_request (store_with 2)).1 = Ok reply /\
    (status reply = 200 \/ status reply = 400 \/ status reply = 500)%Z.
Proof.
  assert (H1 : lock_free (quiet 1) (store_with 2) "0.0.1001" "PH1")
    by (vm_compute; reflexivity).
  split; [assumption|].
  exact (proj2 (dispense_lock_released (quiet 1) dispense_request (store_with 2) H1)).
Defined.

Lemma dispense_unknown_channel_witness :
  inMemoryStore empty_store !! "0.0.1001" = None /\
  undisturbed (quiet 1) /\
  lock_free (quiet 1) empty_store "0.0.1001" "PH1" /\
  (Dispense.handler (quiet 1) dispense_request empty_store).1 = Ok dispensed_ok /\
  inMemoryStore (Dispense.handler (quiet 1) dispense_request empty_store).2
    = inMemoryStore empty_store.
Proof.
  assert (H1 : inMemoryStore empty_store !! "0.0.1001" = None)
    by (vm_compute; reflexivity).
  assert (H2 : undisturbed (quiet 1)) by apply quiet_undisturbed.
  assert (H3 : lock_free (quiet 1) empty_store "0.0.1001" "PH1")
    by (vm_compute; reflexivity).
  do 3 (split; [assumption|]).
  destruct (dispense_unknown_channel (quiet 1) dispense_request empty_store H1 H2 H3)
    as (R1 & _ & _ & _ & _ & _ & _ & R8).
  split; assumption.
Defined.



(** C3 as stated fails: a dispense request that names a previous hash of
    its own has that value, not the channel head, in the event it
    submits. *)
Lemma supplied_prev_replaces_head :
  exists sub,
    In sub (emitted (CallDispense (quiet 1) stale_request) headed_store) /\
    lookup_prop "topicID" (sub_event sub) = JStr "0.0.1001" /\
    head_of headed_store "0.0.1001" = JStr "sha256:head" /\
    lookup_prop "prevEventHash" (sub_event sub) = JStr "sha256:stale" /\
    lookup_prop "prevEventHash" (sub_event sub) <> head_of headed_store "0.0.1001".
Proof.
  eexists. split; [vm_compute; left; reflexivity|].
  repeat split; try (vm_compute; reflexivity).
  vm_compute. discriminate.
Qed.

Lemma prev_hash_is_head_unless_supplied_witness :
  Forall (fun c => truthy (supplied_prev c) = false /\
                   fails (world_of c) CSubmitMessage = false) two_calls /\
  linked (head_of headed_store "0.0.1001")
    (map sub_event (List.filter (on_channel "0.0.1001") (trail two_calls headed_store))) /\
  (forall sub, In sub (emitted (CallDispense (quiet 1) dispense_request) headed_store) ->
     exists t,
       lookup_prop "topicID" (sub_event sub) = JStr t /\
       lookup_prop "prevEventHash" (sub_event sub) = head_of headed_store t).
Proof.
  assert (H1 : Forall (fun c => truthy (supplied_prev c) = false /\
                                fails (world_of c) CSubmitMessage = false) two_calls)
    by (repeat constructor).
  split; [assumption|].
  destruct prev_hash_is_head_unless_supplied as (R1 & R2).
  split; [exact (R2 two_calls headed_store "0.0.1001" H1) |].
  intros sub Hin.
  exact (R1 (CallDispense (quiet 1) dispense_request) headed_store sub Hin).
Defined.

Lemma decompress_compress_witness :
  Compressor.event_shape dispensed_sample = true /\
  lookup_prop "paymentMethod" dispensed_sample = JStr "#" /\
  lookup_prop "paymentMethod" (Compressor.compressPayload dispensed_sample []).1
  = JStr "#iii" /\
  Compressor.decompressPayload (Compressor.compressPayload dispensed_sample []).1
    (Compressor.compressPayload dispensed_sample []).2 = dispensed_sample /\
  Compressor.is_compressed (JObj (Compressor.compressPayload dispensed_sample []).1) = true /\
  Compressor.is_compressed (JObj dispensed_sample) = false.
Proof.
  assert (H1 : Compressor.event_shape dispensed_sample = true)
    by (vm_compute; reflexivity).
  split; [assumption|]. do 2 (split; [vm_compute; reflexivity|]).
  destruct (decompress_compress dispensed_sample [] H1) as (R1 & _ & R3 & R4).
  repeat split; assumption.
Defined.

Lemma issued_content_hash_omits_keyId_witness :
  truthy (Issue.nationalId issue_request) = true /\
  stringify (del_prop "signature"
               (del_prop "contentHash" (Issue.completePayload (quiet 1) issue_request)))
  <> stringify (Issue.toHash (quiet 1) issue_request).
Proof.
  assert (H1 : truthy (Issue.nationalId issue_request) = true) by reflexivity.
  split; [assumption|].
  destruct (issued_content_hash_omits_keyId (quiet 1) issue_request H1) as (_ & _ & R).
  exact R.
Defined.

End Instances.
(** ** The further statements at sample inputs *)

Ltac split_all := repeat lazymatch goal with |- _ /\ _ => split end.

Section MoreInstances.
Import Sample Cases.

Lemma dispense_counted_though_refused_witness :
  dispenseCount_of (store_with 2) "0.0.1001" = JNum 0 /\
  maxDispenses_of (store_with 2) "0.0.1001" = JNum 2 /\
  undisturbed (troubled 1 ledger_down) /\
  lock_free (troubled 1 ledger_down) (store_with 2) "0.0.1001" "PH1" /\
  fails (troubled 1 ledger_down) CSubmitMessage = true /\
  (Dispense.handler (troubled 1 ledger_down) dispense_request (store_with 2)).1
    = Ok dispensed_ok /\
  dispenseCount_of
    (Dispense.handler (troubled 1 ledger_down) dispense_request (store_with 2)).2
    "0.0.1001" = JNum 1.
Proof.
  assert (H1 : dispenseCount_of (store_with 2) "0.0.1001" = JNum 0)
    by (vm_compute; reflexivity).
  assert (H2 : maxDispenses_of (store_with 2) "0.0.1001" = JNum 2)
    by (vm_compute; reflexivity).
  assert (H3 : (0 <= 0 < 2)%Z) by lia.
  assert (H4 : undisturbed (troubled 1 ledger_down)) by (by repeat split).
  assert (H5 : lock_free (troubled 1 ledger_down) (store_with 2) "0.0.1001" "PH1")
    by (vm_compute; reflexivity).
  assert (H6 : fails (troubled 1 ledger_down) CSubmitMessage = true) by reflexivity.
  do 2 (split; [assumption|]). do 3 (split; [assumption|]).
  destruct (dispense_counted_though_refused (troubled 1 ledger_down) dispense_request
              (store_with 2) 0 2 H1 H2 H3 H4 H5 H6) as (R1 & _ & R3).
  split; assumption.
Defined.

Lemma dispense_unsigned_changes_nothing_witness :
  lock_free (troubled 1 signer_down) (store_with 2) "0.0.1001" "PH1" /\
  fails (troubled 1 signer_down) CSignPayload = true /\
  exists reply locks,
    Dispense.handler (troubled 1 signer_down) dispense_request (store_with 2)
    = (Ok reply, with_dispenseLocks (fun _ => locks) (store_with 2)) /\
    locks !! "0.0.1001" = None /\
    (status reply = 400 \/ status reply = 500)%Z /\
    lookup_prop "success" (body reply) = JBool false.
Proof.
  assert (H1 : lock_free (troubled 1 signer_down) (store_with 2) "0.0.1001" "PH1")
    by (vm_compute; reflexivity).
  assert (H2 : fails (troubled 1 signer_down) CSignPayload = true) by reflexivity.
  do 2 (split; [assumption|]).
  exact (dispense_unsigned_changes_nothing (troubled 1 signer_down) dispense_request
           (store_with 2) H1 (or_intror H2)).
Defined.

Lemma payment_refused_when_exhausted_witness :
  prescriptionToTopic exhausted_store !! "RX-1" = Some "0.0.1001" /\
  dispenseCount_of exhausted_store "0.0.1001" = JNum 2 /\
  maxDispenses_of exhausted_store "0.0.1001" = JNum 2 /\
  PaymentRoute.handler (mirror "dispensed") (quiet 4) (payment_request "RX-1")
    exhausted_store
  = (Ok (PaymentRoute.fully_dispensed (JStr "dispensed") (JNum 2) (JNum 2)),
     exhausted_store).
Proof.
  assert (H1 : "RX-1" <> "") by discriminate.
  assert (H2 : prescriptionToTopic exhausted_store !! "RX-1" = Some "0.0.1001")
    by (vm_compute; reflexivity).
  assert (H3 : "0.0.1001" <> "") by discriminate.
  assert (H4 : dispenseCount_of exhausted_store "0.0.1001" = JNum 2)
    by (vm_compute; reflexivity).
  assert (H5 : maxDispenses_of exhausted_store "0.0.1001" = JNum 2)
    by (vm_compute; reflexivity).
  assert (H6 : (1 <= 2 <= 2)%Z) by lia.
  do 3 (split; [assumption|]).
  exact (proj1 (payment_refused_when_exhausted (mirror "dispensed") (quiet 4)
                  (payment_request "RX-1") exhausted_store "RX-1" "0.0.1001"
                  (JStr "dispensed") 2 2 eq_refl H1 H2 H3 eq_refl H4 H5 H6)).
Defined.

Lemma payment_for_unknown_prescription_witness :
  get_str_at (prescriptionToTopic issued_store)
    (Payments.prescriptionId (payment_request "RX-404")) = JUndef /\
  PaymentRoute.handler (mirror "issued") (quiet 4) (payment_request "RX-404") issued_store
  = (Ok (Payments.completed (quiet 4) (payment_request "RX-404")), issued_store).
Proof.
  assert (H1 : get_str_at (prescriptionToTopic issued_store)
                 (Payments.prescriptionId (payment_request "RX-404")) = JUndef)
    by (vm_compute; reflexivity).
  split; [assumption|].
  exact (proj1 (payment_for_unknown_prescription (mirror "issued") (quiet 4)
                  (payment_request "RX-404") issued_store H1)).
Defined.

Lemma payment_refused_on_status_witness :
  prescriptionToTopic issued_store !! "RX-1" = Some "0.0.1001" /\
  dispenseCount_of issued_store "0.0.1001" = JNum 0 /\
  maxDispenses_of issued_store "0.0.1001" = JNum 2 /\
  PaymentRoute.handler (mirror "cancelled") (quiet 4) (payment_request "RX-1") issued_store
  = (Ok (PaymentRoute.invalid_status (JStr "cancelled")), issued_store).
Proof.
  assert (H1 : "RX-1" <> "") by discriminate.
  assert (H2 : prescriptionToTopic issued_store !! "RX-1" = Some "0.0.1001")
    by (vm_compute; reflexivity).
  assert (H3 : "0.0.1001" <> "") by discriminate.
  assert (H4 : dispenseCount_of issued_store "0.0.1001" = JNum 0)
    by (vm_compute; reflexivity).
  assert (H5 : maxDispenses_of issued_store "0.0.1001" = JNum 2)
    by (vm_compute; reflexivity).
  assert (H6 : (0 <= 0 < 2)%Z) by lia.
  do 3 (split; [assumption|]).
  exact (proj1 (payment_refused_on_status (mirror "cancelled") (quiet 4)
                  (payment_request "RX-1") issued_store "RX-1" "0.0.1001"
                  (JStr "cancelled") 0 2 eq_refl H1 H2 H3 eq_refl eq_refl eq_refl eq_refl
                  H4 H5 H6)).
Defined.

Lemma batch_refused_as_a_whole_witness :
  In (JStr "RX-404") [JStr "RX-1"; JStr "RX-404"] /\
  get_str_at (prescriptionToTopic issued_store) (JStr "RX-404") = JUndef /\
  exists reply,
    Batch.screen (mirror "issued") (batch_request ["RX-1"; "RX-404"]) issued_store
    = (Ok (Some reply), issued_store) /\
    lookup_prop "success" (body reply) = JBool false /\
    (status reply = 409 \/ status reply = 500)%Z.
Proof.
  assert (H1 : In (JStr "RX-404") [JStr "RX-1"; JStr "RX-404"]) by (right; by left).
  assert (H2 : get_str_at (prescriptionToTopic issued_store) (JStr "RX-404") = JUndef)
    by (vm_compute; reflexivity).
  do 2 (split; [assumption|]).
  destruct (batch_refused_as_a_whole (mirror "issued") (batch_request ["RX-1"; "RX-404"])
              issued_store [JStr "RX-1"; JStr "RX-404"] (JStr "RX-404") eq_refl H1 H2)
    as (reply & R1 & R2 & R3 & _).
  exists reply. split_all; assumption.
Defined.

Lemma paid_status_alone_and_in_batch_witness :
  prescriptionToTopic issued_store !! "RX-1" = Some "0.0.1001" /\
  dispenseCount_of issued_store "0.0.1001" = JNum 0 /\
  maxDispenses_of issued_store "0.0.1001" = JNum 2 /\
  PaymentRoute.handler (mirror "paid") (quiet 4) (payment_request "RX-1") issued_store
  = Payments.complete (quiet 4) (payment_request "RX-1") issued_store /\
  Batch.screen (mirror "paid") (batch_request ["RX-1"]) issued_store
  = (Ok (Some (Batch.refused
                 [Batch.not_eligible (JStr "RX-1") "Invalid status: paid"])),
     issued_store).
Proof.
  assert (H1 : "RX-1" <> "") by discriminate.
  assert (H2 : prescriptionToTopic issued_store !! "RX-1" = Some "0.0.1001")
    by (vm_compute; reflexivity).
  assert (H3 : "0.0.1001" <> "") by discriminate.
  assert (H4 : dispenseCount_of issued_store "0.0.1001" = JNum 0)
    by (vm_compute; reflexivity).
  assert (H5 : maxDispenses_of issued_store "0.0.1001" = JNum 2)
    by (vm_compute; reflexivity).
  assert (H6 : (0 <= 0 < 2)%Z) by lia.
  do 3 (split; [assumption|]).
  exact (paid_status_alone_and_in_batch (mirror "paid") (quiet 4) (payment_request "RX-1")
           (batch_request ["RX-1"]) issued_store "RX-1" "0.0.1001" 0 2
           eq_refl H1 eq_refl H2 H3 eq_refl H4 H5 H6).
Defined.

Lemma cancelled_prescription_still_dispensed_witness :
  prescriptionToTopic issued_store !! "RX-1" = Some "0.0.1001" /\
  dispenseCount_of issued_store "0.0.1001" = JNum 0 /\
  maxDispenses_of issued_store "0.0.1001" = JNum 2 /\
  lock_free (quiet 6) issued_store "0.0.1001" "PH1" /\
  (let st1 := (Cancel.handler (mirror "issued") (quiet 5) cancel_request issued_store).2 in
   (Cancel.handler (mirror "issued") (quiet 5) cancel_request issued_store).1
     = Ok (json [("success", JBool true)]) /\
   (Dispense.handler (quiet 6) dispense_request st1).1 = Ok dispensed_ok /\
   dispenseCount_of (Dispense.handler (quiet 6) dispense_request st1).2 "0.0.1001"
     = JNum 1).
Proof.
  assert (H1 : prescriptionToTopic issued_store !! "RX-1" = Some "0.0.1001")
    by (vm_compute; reflexivity).
  assert (H2 : "0.0.1001" <> "") by discriminate.
  assert (H3 : dispenseCount_of issued_store "0.0.1001" = JNum 0)
    by (vm_compute; reflexivity).
  assert (H4 : maxDispenses_of issued_store "0.0.1001" = JNum 2)
    by (vm_compute; reflexivity).
  assert (H5 : (0 <= 0 < 2)%Z) by lia.
  assert (H6 : undisturbed (quiet 6)) by apply quiet_undisturbed.
  assert (H7 : lock_free (quiet 6) issued_store "0.0.1001" "PH1")
    by (vm_compute; reflexivity).
  split; [assumption|]. do 3 (split; [assumption|]).
  destruct (cancelled_prescription_still_dispensed (mirror "issued") (quiet 5)
              cancel_request (quiet 6) dispense_request issued_store 0 2
              H1 H2 eq_refl H3 H4 H5 H6 H7) as (R1 & _ & _ & R4 & R5).
  cbv zeta. split_all; assumption.
Defined.




Lemma verify_nothing_to_verify_witness :
  truthy (Verify.payload (by_topic "   ")) = false /\
  Verify.normalized (Verify.topicID (by_topic "   ")) = JUndef /\
  Verify.handler (quiet 2) (by_topic "   ") issued_store
  = (Ok Verify.not_found, issued_store).
Proof.
  assert (H1 : truthy (Verify.payload (by_topic "   ")) = false) by reflexivity.
  assert (H2 : Verify.normalized (Verify.topicID (by_topic "   ")) = JUndef)
    by (vm_compute; reflexivity).
  do 2 (split; [assumption|]).
  exact (proj1 (verify_nothing_to_verify (quiet 2) (by_topic "   ") issued_store
                  H1 (or_introl H2))).
Defined.

Lemma verify_refuses_exhausted_channel_witness :
  Compressor.is_compressed (JObj early_copy) = false /\
  lastEventTypePerTopic exhausted_store !! "0.0.1001" = Some "dispensed" /\
  dispenseCount_of exhausted_store "0.0.1001" = JNum 2 /\
  maxDispenses_of exhausted_store "0.0.1001" = JNum 2 /\
  lookup_prop "dispenseCount" early_copy = JNum 0 /\
  Verify.handler (quiet 4) (scan early_copy) exhausted_store
  = (Ok (Verify.fully_dispensed 409 (JNum 2) (JNum 2)), exhausted_store).
Proof.
  assert (H1 : Compressor.is_compressed (JObj early_copy) = false) by reflexivity.
  assert (H2 : lastEventTypePerTopic exhausted_store !! "0.0.1001" = Some "dispensed")
    by (vm_compute; reflexivity).
  assert (H3 : dispenseCount_of exhausted_store "0.0.1001" = JNum 2)
    by (vm_compute; reflexivity).
  assert (H4 : maxDispenses_of exhausted_store "0.0.1001" = JNum 2)
    by (vm_compute; reflexivity).
  assert (H5 : (1 <= 2 <= 2)%Z) by lia.
  do 4 (split; [assumption|]). split; [reflexivity|].
  exact (proj1 (verify_refuses_exhausted_channel (quiet 4) (scan early_copy)
                  exhausted_store early_copy "0.0.1001" 2 2
                  eq_refl H1 eq_refl (or_introl H2) H3 H4 H5)).
Defined.


Lemma verify_by_prescription_id_always_accepted_witness :
  Verify.normalized (Verify.topicID (by_topic "RX-1")) = JStr "RX-1" /\
  inMemoryStore exhausted_store !! "RX-1" = None /\
  lastEventTypePerTopic exhausted_store !! "RX-1" = None /\
  prescriptionIndex exhausted_store !! "RX-1"
  = Some (JObj (Issue.full (quiet 1) issue_request)) /\
  dispenseCount_of exhausted_store "0.0.1001" = maxDispenses_of exhausted_store "0.0.1001" /\
  exists reply,
    (Verify.handler (quiet 4) (by_topic "RX-1") exhausted_store).1 = Ok reply /\
    status reply = 200%Z /\
    lookup_prop "valid" (body reply) = JBool true.
Proof.
  assert (H1 : Verify.normalized (Verify.topicID (by_topic "RX-1")) = JStr "RX-1")
    by (vm_compute; reflexivity).
  assert (H2 : inMemoryStore exhausted_store !! "RX-1" = None)
    by (vm_compute; reflexivity).
  assert (H3 : lastEventTypePerTopic exhausted_store !! "RX-1" = None)
    by (vm_compute; reflexivity).
  assert (H4 : prescriptionIndex exhausted_store !! "RX-1"
               = Some (JObj (Issue.full (quiet 1) issue_request)))
    by (vm_compute; reflexivity).
  assert (H5 : dispenseCount_of exhausted_store "0.0.1001"
               = maxDispenses_of exhausted_store "0.0.1001")
    by (vm_compute; reflexivity).
  do 4 (split; [assumption|]). split; [assumption|].
  destruct (verify_by_prescription_id_always_accepted (quiet 4) (by_topic "RX-1")
              exhausted_store "RX-1" (JObj (Issue.full (quiet 1) issue_request))
              eq_refl H1 H2 H3 H4 eq_refl eq_refl eq_refl)
    as (reply & R1 & R2 & _ & R4 & _).
  exists reply. split_all; assumption.
Defined.

Lemma qr_signature_checked_as_signed_witness :
  Qr.qrPayload (quiet 1) issue_request = Some qr_sample /\
  Qr.geotag (Issue.geo issue_request) = Some (JStr "MA-34.00,-7.00") /\
  Qr.textual (opt_get (Qr.firstMed issue_request) "unit") = true /\
  Verify.normalized (Verify.doctorNationalId (scan qr_sample)) = JStr "DOC1" /\
  Verify.signedPayload (JObj qr_sample) = Qr.unsigned (quiet 1) issue_request (JStr "MA-34.00,-7.00") /\
  Verify.signatureValid (scan qr_sample) (JObj qr_sample)
  = verifySignature (Qr.unsigned (quiet 1) issue_request (JStr "MA-34.00,-7.00"))
      (JStr ("hex:" +:+ signPayload (Qr.unsigned (quiet 1) issue_request (JStr "MA-34.00,-7.00"))
                          "DOC1")) "DOC1".
Proof.
  assert (H1 : Qr.qrPayload (quiet 1) issue_request = Some qr_sample) by reflexivity.
  assert (H2 : Qr.geotag (Issue.geo issue_request) = Some (JStr "MA-34.00,-7.00")) by reflexivity.
  assert (H3 : "DOC1" <> "") by discriminate.
  assert (H4 : Issue.topicID issue_request <> "") by discriminate.
  assert (H5 : Qr.hashedPatientId issue_request <> "") by (vm_compute; discriminate).
  assert (H6 : hashIdentifier "DOC1" salt (JStr (Issue.prescriptionId issue_request)) <> "")
    by (vm_compute; discriminate).
  assert (H7 : Qr.validUntil (quiet 1) <> "") by (vm_compute; discriminate).
  assert (H8 : randomHex (entropy (quiet 1)) <> "") by (vm_compute; discriminate).
  assert (H9 : Qr.textual (opt_get (Qr.firstMed issue_request) "unit") = true)
    by reflexivity.
  assert (H10 : Verify.normalized (Verify.doctorNationalId (scan qr_sample)) = JStr "DOC1")
    by (vm_compute; reflexivity).
  do 2 (split; [assumption|]). do 2 (split; [assumption|]).
  destruct (qr_signature_checked_as_signed (quiet 1) issue_request qr_sample
              (JStr "MA-34.00,-7.00") "DOC1" (scan qr_sample)
              H1 H2 eq_refl H3 H4 H5 H6 H7 H8 H9 H10) as (R1 & _ & R3).
  split; assumption.
Defined.

Lemma issued_qr_accepted_whatever_is_stored_witness :
  @Qr.qrPayload clock (quiet 1) issue_request = Some qr_dated /\
  @parseDate clock (JStr (@Qr.validUntil clock (quiet 1))) = Some 5184000001%Z /\
  dispenseCount_of exhausted_dated "0.0.1001" = JNum 2 /\
  maxDispenses_of exhausted_dated "0.0.1001" = JNum 2 /\
  lookup_prop "t" qr_dated = JStr "0.0.1001" /\
  exists reply,
    (@Verify.handler clock (quiet 4) (scan qr_dated) exhausted_dated).1 = Ok reply /\
    status reply = 200%Z /\
    lookup_prop "valid" (body reply) = JBool true.
Proof.
  assert (H1 : @Qr.qrPayload clock (quiet 1) issue_request = Some qr_dated)
    by reflexivity.
  assert (H2 : (1 <= 2)%Z) by lia.
  assert (H0 : @parseDate clock (JStr (@Qr.validUntil clock (quiet 1)))
               = Some 5184000001%Z) by (vm_compute; reflexivity).
  assert (H3 : forall t, @parseDate clock (JStr (@Qr.validUntil clock (quiet 1))) = Some t ->
                 (now_ms (quiet 4) <= t)%Z)
    by (intros t E; rewrite H0 in E; injection E as <-; simpl; lia).
  split; [assumption|]. split; [assumption|].
  do 3 (split; [vm_compute; reflexivity|]).
  destruct (@issued_qr_accepted_whatever_is_stored clock (quiet 1) issue_request
              qr_dated 2 (quiet 4) (scan qr_dated) exhausted_dated
              H1 eq_refl H2 eq_refl H3 eq_refl eq_refl)
    as (reply & R1 & R2 & _ & R4 & _).
  exists reply. split_all; assumption.
Defined.

Lemma generated_ids_coincide_iff_witness :
  Ids.in_range morning /\ Ids.in_range later /\
  Ids.getMinutes morning <> Ids.getMinutes later /\
  Ids.generatePrescriptionId morning = Ids.generatePrescriptionId later /\
  Ids.generatePrescriptionId morning = "RX-20251027-007".
Proof.
  assert (H1 : Ids.in_range morning) by (unfold Ids.in_range; simpl; lia).
  assert (H2 : Ids.in_range later) by (unfold Ids.in_range; simpl; lia).
  do 2 (split; [assumption|]). split; [discriminate|]. split; [|reflexivity].
  destruct (generated_ids_coincide_iff morning later H1 H2) as [[_ R] _].
  apply R. repeat split.
Defined.


Lemma amendment_outside_the_chain_witness :
  prescriptionToTopic issued_store !! "RX-1" = Some "0.0.1001" /\
  (let st' := (Amend.handler (mirror "issued") (quiet 5) amend_request issued_store).2 in
   (Amend.handler (mirror "issued") (quiet 5) amend_request issued_store).1
     = Ok (json [("success", JBool true)]) /\
   inMemoryStore st' = inMemoryStore issued_store /\
   lastEventHashPerTopic st' = lastEventHashPerTopic issued_store).
Proof.
  assert (H1 : prescriptionToTopic issued_store !! "RX-1" = Some "0.0.1001")
    by (vm_compute; reflexivity).
  assert (H2 : "0.0.1001" <> "") by discriminate.
  split; [assumption|].
  destruct (amendment_outside_the_chain (mirror "issued") (quiet 5) amend_request
              issued_store "0.0.1001" H1 H2 eq_refl)
    as (R1 & _ & _ & _ & _ & _ & R7 & R8 & _).
  cbv zeta. split_all; assumption.
Defined.

Lemma catalogue_rows_are_named_witness :
  Catalog.cnopsCatalog sheet = [named_row] /\
  lookup_prop "name" named_row = JStr "Doliprane 500" /\
  lookup_prop "code" named_row = JStr "1234" /\
  exists row name,
    In row sheet /\ named_row = Catalog.deriveCatalogRow row /\
    lookup_prop "raw" named_row = JObj row /\
    lookup_prop "name" named_row = JStr name /\ name <> "" /\
    Catalog.trim name = name.
Proof.
  assert (H1 : Catalog.cnopsCatalog sheet = [named_row]) by (vm_compute; reflexivity).
  assert (H2 : In named_row (Catalog.cnopsCatalog sheet))
    by (rewrite H1; left; reflexivity).
  split; [assumption|]. do 2 (split; [vm_compute; reflexivity|]).
  exact (catalogue_rows_are_named sheet named_row H2).
Defined.

Lemma payment_always_completes_witness :
  fails (troubled 5 ledger_down) CSubmitMessage = true /\
  (Payments.complete (troubled 5 ledger_down) (payment_request "RX-1") issued_store).1
  = Ok (Payments.completed (troubled 5 ledger_down) (payment_request "RX-1")) /\
  lastEventHashPerTopic
    (Payments.complete (troubled 5 ledger_down) (payment_request "RX-1") issued_store).2
  = lastEventHashPerTopic issued_store /\
  hcsEventLog
    (Payments.complete (troubled 5 ledger_down) (payment_request "RX-1") issued_store).2
  = hcsEventLog issued_store.
Proof.
  assert (H1 : fails (troubled 5 ledger_down) CSubmitMessage = true) by reflexivity.
  split; [assumption|].
  destruct (payment_always_completes (troubled 5 ledger_down) (payment_request "RX-1")
              issued_store) as (R1 & _ & _ & _ & R5).
  destruct (R5 H1) as (R6 & _ & _ & R9).
  split_all; assumption.
Defined.

Lemma verify_consumes_long_nonce_only_witness :
  lookup_prop "n" qr_sample = JStr "1" /\
  truthy (opt_get (Verify.effective_payload (quiet 4) (scan qr_sample) exhausted_store)
            "nonce") = false /\
  usedNonces (Verify.handler (quiet 4) (scan qr_sample) exhausted_store).2
  = usedNonces exhausted_store.
Proof.
  assert (H1 : truthy (opt_get (Verify.effective_payload (quiet 4) (scan qr_sample)
                                  exhausted_store) "nonce") = false)
    by (vm_compute; reflexivity).
  split; [vm_compute; reflexivity|]. split; [assumption|].
  exact (proj2 (verify_consumes_long_nonce_only (quiet 4) (scan qr_sample) exhausted_store)
           H1).
Defined.


End MoreInstances.
